(** * tree-cli: the tree builder and its summary (src/tree-builder.ts)

    A shallow embedding of [getSummary] and [buildTree].  The node
    type follows src/tree-types.ts.  The three things the builder
    takes from outside the repository are interfaces here:

    - the [path] module of the runtime ([basename], [join], [relative]),
    - the [ignore] package (a matcher object one adds patterns to and
      asks [ignores]),
    - [String.prototype.localeCompare], the comparison used to sort names.

    The functions of [path] and [localeCompare] are total: a call into
    them returns.  [ignores] throws on a path that the package does not
    accept; [buildTree] is the builder on the runs in which no call of
    [ignores] throws, and [Throwing.buildTree], further down, is the
    builder with that exception.

    The filesystem is one observation: what [lstat], [readFile] and
    [readdir] answer for each path, a rejected call being [None]; a
    path gets the same answer throughout a run.  The promise returned
    by [buildTree] is modelled by its value.  The recursion on
    sub-directories is bounded by a fuel argument, [None] meaning that
    the fuel ran out; the source's [try]/[catch] blocks are the matches
    on the answers of the filesystem. *)

From Stdlib Require Import Ascii String List ZArith Bool Lia Sorted Permutation
  OrderedTypeEx.
Import ListNotations.
Open Scope string_scope.
Open Scope Z_scope.

Set Warnings "-register-all".

(** ** Data model (tree-types.ts) *)

Inductive NodeType : Type := file | folder.

(** The two values of the optional field [skipped]. *)
Inductive SkipReason : Type := skipped_gitignore | skipped_size.

(** The object of the optional field [stats]. *)
Record NodeStats : Type := { size : Z }.

(** [children], [skipped] and [stats] are optional fields: [None] is an
    absent field, [Some []] a present, empty array. *)
Inductive TreeNode : Type := mkTreeNode {
  name : string;
  path : string;
  type : NodeType;
  children : option (list TreeNode);
  skipped : option SkipReason;
  stats : option NodeStats
}.

(** Induction on a tree, with the hypothesis for every child. *)
Section TreeNodeInduction.

Variable P : TreeNode -> Prop.
Hypothesis absent_case :
  forall nm p ty sk st, P (mkTreeNode nm p ty None sk st).
Hypothesis present_case :
  forall nm p ty cs sk st,
    Forall P cs -> P (mkTreeNode nm p ty (Some cs) sk st).

Fixpoint TreeNode_nested_ind (n : TreeNode) : P n :=
  match n with
  | mkTreeNode nm p ty None sk st => absent_case nm p ty sk st
  | mkTreeNode nm p ty (Some cs) sk st =>
      present_case nm p ty cs sk st
        ((fix every (l : list TreeNode) : Forall P l :=
            match l with
            | [] => Forall_nil P
            | c :: l' => Forall_cons c (TreeNode_nested_ind c) (every l')
            end) cs)
  end.

End TreeNodeInduction.

Record TreeOptions : Type := {
  maxLeaf : option Z;
  ignorePatterns : option (list string)
}.

Definition NodeType_eqb (a b : NodeType) : bool :=
  match a, b with
  | file, file | folder, folder => true
  | _, _ => false
  end.

(** ** getSummary *)

Record TreeSummary : Type := {
  totalFiles : Z;
  totalFolders : Z;
  skippedGitignore : Z;
  skippedSize : Z
}.

(** The statements of [traverse] that update the shared [summary] object
    for the node itself, as a function on the summary. *)
Definition countNode (n : TreeNode) (summary : TreeSummary) : TreeSummary :=
  match type n with
  | folder =>
      let s1 := {| totalFiles := totalFiles summary;
                   totalFolders := totalFolders summary + 1;
                   skippedGitignore := skippedGitignore summary;
                   skippedSize := skippedSize summary |} in
      let s2 := match skipped n with
                | Some skipped_gitignore =>
                    {| totalFiles := totalFiles s1;
                       totalFolders := totalFolders s1;
                       skippedGitignore := skippedGitignore s1 + 1;
                       skippedSize := skippedSize s1 |}
                | _ => s1
                end in
      match skipped n with
      | Some skipped_size =>
          {| totalFiles := totalFiles s2;
             totalFolders := totalFolders s2;
             skippedGitignore := skippedGitignore s2;
             skippedSize := skippedSize s2 + 1 |}
      | _ => s2
      end
  | file =>
      {| totalFiles := totalFiles summary + 1;
         totalFolders := totalFolders summary;
         skippedGitignore := skippedGitignore summary;
         skippedSize := skippedSize summary |}
  end.

(** [traverse] threads the summary: the node first, then each child in
    order ([forEach]) when the field [children] is present. *)
Fixpoint traverse (n : TreeNode) (summary : TreeSummary) : TreeSummary :=
  let s := countNode n summary in
  match n with
  | mkTreeNode _ _ _ (Some cs) _ _ =>
      fold_left (fun acc c => traverse c acc) cs s
  | mkTreeNode _ _ _ None _ _ => s
  end.

Definition emptySummary : TreeSummary :=
  {| totalFiles := 0; totalFolders := 0;
     skippedGitignore := 0; skippedSize := 0 |}.

Definition getSummary (node : TreeNode) : TreeSummary :=
  traverse node emptySummary.

(** ** The interfaces of the runtime and of the [ignore] package *)

(** The functions of the [path] module that the builder calls. *)
Class PathModule : Type := {
  basename : string -> string;
  join : string -> string -> string;
  relative : string -> string -> string
}.

(** The [ignore] package: [ignore] is the call [ignore()], [add] is
    [.add] on a string (the package splits it into lines), [addAll] is
    [.add] on an array of patterns, [ignores] is [.ignores].  A matcher
    is built once and only read afterwards, so the mutable object is
    modelled by its value. *)
Class IgnorePackage : Type := {
  Ignore : Type;
  ignore : Ignore;
  add : Ignore -> string -> Ignore;
  addAll : Ignore -> list string -> Ignore;
  ignores : Ignore -> string -> bool
}.

(** [a.localeCompare(b)]: negative, zero or positive. *)
Class Collation : Type := {
  localeCompare : string -> string -> Z
}.

(** ** The observed filesystem (fs/promises) *)

Module fs.

(** What the builder reads of an [fs.Stats] object. *)
Record Stats : Type := {
  isSymbolicLink : bool;
  isDirectory : bool;
  size : Z
}.

(** One observation of the filesystem: the answer of each call for
    each path, [None] when the call rejects. *)
Record FileSystem : Type := {
  lstat : string -> option Stats;
  readFile : string -> option string;
  readdir : string -> option (list string)
}.

End fs.

(** ** buildTree *)

Section Builder.

Context {PM : PathModule} {IP : IgnorePackage} {CO : Collation}.

Record IgnoreStackItem : Type := {
  ignorer : Ignore;
  basePath : string
}.

(** An element of [candidates]; the source's fields [name], [path] and
    [stats] carry the prefix [cand_] here, the node type owning the
    plain names. *)
Record Candidate : Type := {
  cand_name : string;
  cand_path : string;
  isIgnored : bool;
  cand_stats : fs.Stats
}.

(** The inner loop over [newStack]: the first level that ignores the
    relative path, or its directory form when the entry is a
    directory, sets [isIgnored] and breaks. *)
Fixpoint checkIgnored (stack : list IgnoreStackItem) (itemPath : string)
    (isDir : bool) : bool :=
  match stack with
  | [] => false
  | lvl :: rest =>
      let relPath := relative (basePath lvl) itemPath in
      if ignores (ignorer lvl) relPath then true
      else if isDir && ignores (ignorer lvl) (relPath ++ "/") then true
      else checkIgnored rest itemPath isDir
  end.

(** The loop that fills [candidates]: an entry whose [lstat] fails or
    that is a symbolic link is passed over ([continue]). *)
Fixpoint scanCandidates (f : fs.FileSystem) (newStack : list IgnoreStackItem)
    (currentPath : string) (childrenItems : list string) : list Candidate :=
  match childrenItems with
  | [] => []
  | item :: rest =>
      let itemPath := join currentPath item in
      match fs.lstat f itemPath with
      | None => scanCandidates f newStack currentPath rest
      | Some s =>
          if fs.isSymbolicLink s then scanCandidates f newStack currentPath rest
          else
            {| cand_name := item;
               cand_path := itemPath;
               isIgnored := checkIgnored newStack itemPath (fs.isDirectory s);
               cand_stats := s |}
            :: scanCandidates f newStack currentPath rest
      end
  end.

Definition visibleCount (candidates : list Candidate) : Z :=
  Z.of_nat (length (filter (fun c => negb (isIgnored c)) candidates)).

(** The node pushed for an ignored directory. *)
Definition ignoredFolder (cand : Candidate) : TreeNode :=
  {| name := cand_name cand; path := cand_path cand; type := folder;
     children := None; skipped := Some skipped_gitignore; stats := None |}.

(** The node pushed for a visible file. *)
Definition fileNode (cand : Candidate) : TreeNode :=
  {| name := cand_name cand; path := cand_path cand; type := file;
     children := None; skipped := None;
     stats := Some {| size := fs.size (cand_stats cand) |} |}.

(** The loop that fills [children]; [recur] is the recursive call
    [buildTree(cand.path, options, newStack)]. *)
Fixpoint collectChildren (recur : string -> option TreeNode)
    (candidates : list Candidate) : option (list TreeNode) :=
  match candidates with
  | [] => Some []
  | cand :: rest =>
      if isIgnored cand then
        if fs.isDirectory (cand_stats cand) then
          option_map (cons (ignoredFolder cand)) (collectChildren recur rest)
        else collectChildren recur rest
      else if fs.isDirectory (cand_stats cand) then
        match recur (cand_path cand) with
        | None => None
        | Some n => option_map (cons n) (collectChildren recur rest)
        end
      else option_map (cons (fileNode cand)) (collectChildren recur rest)
  end.

(** The comparator given to [children.sort]. *)
Definition compareNodes (a b : TreeNode) : Z :=
  if NodeType_eqb (type a) (type b) then localeCompare (name a) (name b)
  else match type a with folder => -1 | file => 1 end.

(** [Array.prototype.sort] is stable; for a comparator that is a
    consistent order its result is the stable sorted arrangement,
    computed here by insertion. *)
Fixpoint insertNode (x : TreeNode) (l : list TreeNode) : list TreeNode :=
  match l with
  | [] => [x]
  | y :: l' => if compareNodes x y <=? 0 then x :: y :: l'
               else y :: insertNode x l'
  end.

Fixpoint sort (l : list TreeNode) : list TreeNode :=
  match l with
  | [] => []
  | x :: l' => insertNode x (sort l')
  end.

(** The degenerate node returned when [lstat] fails, for a symbolic
    link, and (with the real size) for a plain file. *)
Definition leafNode (currentPath : string) (sz : Z) : TreeNode :=
  {| name := basename currentPath; path := currentPath; type := file;
     children := None; skipped := None; stats := Some {| size := sz |} |}.

(** The matcher of the current directory: [.git] and the option
    patterns only when the stack is empty, then the content of the
    directory's [.gitignore] when it can be read. *)
Definition currentIgnore (f : fs.FileSystem) (currentPath : string)
    (options : TreeOptions) (ignoreStack : list IgnoreStackItem) : Ignore :=
  let currentIg := ignore in
  let currentIg :=
    if (length ignoreStack =? 0)%nat then
      let ig := add currentIg ".git" in
      match ignorePatterns options with
      | Some patterns => addAll ig patterns
      | None => ig
      end
    else currentIg in
  match fs.readFile f (join currentPath ".gitignore") with
  | Some gitignoreContent => add currentIg gitignoreContent
  | None => currentIg
  end.

Definition pushLevel (f : fs.FileSystem) (currentPath : string)
    (options : TreeOptions) (ignoreStack : list IgnoreStackItem)
    : list IgnoreStackItem :=
  ignoreStack ++ [{| ignorer := currentIgnore f currentPath options ignoreStack;
                     basePath := currentPath |}].

(** [options.maxLeaf && visibleCount > options.maxLeaf]: an absent
    field and the number 0 are both falsy. *)
Definition overMaxLeaf (options : TreeOptions) (visible : Z) : bool :=
  match maxLeaf options with
  | None => false
  | Some m => negb (m =? 0) && (visible >? m)
  end.

Fixpoint buildTree (fuel : nat) (f : fs.FileSystem) (currentPath : string)
    (options : TreeOptions) (ignoreStack : list IgnoreStackItem)
    : option TreeNode :=
  match fuel with
  | O => None
  | S fuel' =>
      let name_ := basename currentPath in
      match fs.lstat f currentPath with
      | None => Some (leafNode currentPath 0)
      | Some stats_ =>
          if fs.isSymbolicLink stats_ then Some (leafNode currentPath 0)
          else if negb (fs.isDirectory stats_) then
            Some (leafNode currentPath (fs.size stats_))
          else
            let newStack := pushLevel f currentPath options ignoreStack in
            match fs.readdir f currentPath with
            | None =>
                Some {| name := name_; path := currentPath; type := folder;
                        children := Some []; skipped := None; stats := None |}
            | Some childrenItems =>
                let candidates :=
                  scanCandidates f newStack currentPath childrenItems in
                if overMaxLeaf options (visibleCount candidates) then
                  Some {| name := name_; path := currentPath; type := folder;
                          children := None; skipped := Some skipped_size;
                          stats := None |}
                else
                  match collectChildren
                          (fun p => buildTree fuel' f p options newStack)
                          candidates with
                  | None => None
                  | Some children_ =>
                      Some {| name := name_; path := currentPath;
                              type := folder;
                              children := Some (sort children_);
                              skipped := None; stats := None |}
                  end
            end
      end
  end.

End Builder.

(** ** Vocabulary of the statements *)

(** The nodes of a tree: the node itself, then the nodes of its
    children when the field is present. *)
Fixpoint subnodes (n : TreeNode) : list TreeNode :=
  match n with
  | mkTreeNode _ _ _ (Some cs) _ _ => n :: flat_map subnodes cs
  | mkTreeNode _ _ _ None _ _ => [n]
  end.

(** The nodes strictly below the root. *)
Definition descendants (n : TreeNode) : list TreeNode :=
  match children n with
  | Some cs => flat_map subnodes cs
  | None => []
  end.

Definition isFolder (n : TreeNode) : bool := NodeType_eqb (type n) folder.
Definition isFile (n : TreeNode) : bool := NodeType_eqb (type n) file.

Definition hasSkip (r : SkipReason) (n : TreeNode) : bool :=
  match skipped n, r with
  | Some skipped_gitignore, skipped_gitignore => true
  | Some skipped_size, skipped_size => true
  | _, _ => false
  end.

(** A node that carries a marker, whichever. *)
Definition isMarked (n : TreeNode) : bool :=
  match skipped n with
  | Some _ => true
  | None => false
  end.

(** The tree in which every file node carries the marker that [m]
    gives it; the folder nodes and all other fields stay as they
    are. *)
Fixpoint remarkFiles (m : TreeNode -> option SkipReason) (n : TreeNode)
    : TreeNode :=
  match n with
  | mkTreeNode nm p ty cs sk st =>
      mkTreeNode nm p ty
        (match cs with
         | Some l => Some (map (remarkFiles m) l)
         | None => None
         end)
        (match ty with
         | file => m n
         | folder => sk
         end)
        st
  end.

Definition countIf (p : TreeNode -> bool) (l : list TreeNode) : Z :=
  Z.of_nat (length (filter p l)).

(** The summary of a list of nodes, each counted once. *)
Definition tally (l : list TreeNode) : TreeSummary :=
  {| totalFiles := countIf isFile l;
     totalFolders := countIf isFolder l;
     skippedGitignore :=
       countIf (fun n => isFolder n && hasSkip skipped_gitignore n) l;
     skippedSize :=
       countIf (fun n => isFolder n && hasSkip skipped_size n) l |}.

Definition addSummary (a b : TreeSummary) : TreeSummary :=
  {| totalFiles := totalFiles a + totalFiles b;
     totalFolders := totalFolders a + totalFolders b;
     skippedGitignore := skippedGitignore a + skippedGitignore b;
     skippedSize := skippedSize a + skippedSize b |}.

(** The tree of the repository's test of [getSummary]: the fields the
    test leaves out are empty here. *)
Definition bareNode (t : NodeType) (cs : option (list TreeNode))
    (sk : option SkipReason) : TreeNode :=
  {| name := ""; path := ""; type := t; children := cs; skipped := sk;
     stats := None |}.

Definition summaryTestTree : TreeNode :=
  bareNode folder
    (Some [ bareNode file None None;
            bareNode folder (Some [bareNode file None None]) None;
            bareNode folder None (Some skipped_gitignore);
            bareNode folder None (Some skipped_size) ])
    None.

Section Vocabulary.

Context {PM : PathModule} {IP : IgnorePackage} {CO : Collation}.

(** [lstat] reports [p] as a directory that is not a link. *)
Definition isDirectoryAt (f : fs.FileSystem) (p : string) : Prop :=
  exists s, fs.lstat f p = Some s /\ fs.isSymbolicLink s = false /\
            fs.isDirectory s = true.

(** Such a directory, of which [readdir] lists [items]. *)
Definition listedDirectory (f : fs.FileSystem) (p : string)
    (items : list string) : Prop :=
  isDirectoryAt f p /\ fs.readdir f p = Some items.

(** A listed entry that counts as visible: [lstat] reports it, it is
    not a link, and no level of the stack ignores it. *)
Definition isVisibleEntry (f : fs.FileSystem) (stack : list IgnoreStackItem)
    (p item : string) : bool :=
  match fs.lstat f (join p item) with
  | Some s =>
      negb (fs.isSymbolicLink s)
      && negb (checkIgnored stack (join p item) (fs.isDirectory s))
  | None => false
  end.

(** The three folder nodes [buildTree] returns for a directory. *)
Definition emptyFolder (p : string) : TreeNode :=
  {| name := basename p; path := p; type := folder;
     children := Some []; skipped := None; stats := None |}.

Definition truncatedFolder (p : string) : TreeNode :=
  {| name := basename p; path := p; type := folder;
     children := None; skipped := Some skipped_size; stats := None |}.

Definition expandedFolder (p : string) (cs : list TreeNode) : TreeNode :=
  {| name := basename p; path := p; type := folder;
     children := Some cs; skipped := None; stats := None |}.

(** One level of the stack excludes an entry: its matcher ignores the
    path relative to the level's directory, or, for a directory, that
    path followed by a separator. *)
Definition excludes (lvl : IgnoreStackItem) (itemPath : string)
    (isDir : bool) : Prop :=
  ignores (ignorer lvl) (relative (basePath lvl) itemPath) = true \/
  (isDir = true /\
   ignores (ignorer lvl) (relative (basePath lvl) itemPath ++ "/") = true).

(** The order the comparator of [children.sort] stands for: a folder
    before a file, and inside one kind the names as [localeCompare]
    orders them. *)
Definition nodeBefore (a b : TreeNode) : Prop :=
  (type a = folder /\ type b = file) \/
  (type a = type b /\ localeCompare (name a) (name b) <= 0).

(** What is asked of [localeCompare] for the sort to be defined: any
    two names are comparable and the comparison is transitive. *)
Definition collationTotal : Prop :=
  forall a b, localeCompare a b <= 0 \/ localeCompare b a <= 0.

Definition collationTransitive : Prop :=
  forall a b c, localeCompare a b <= 0 -> localeCompare b c <= 0 ->
                localeCompare a c <= 0.

(** The runtime compares names by their character codes: the plain
    case-sensitive lexicographic order. *)
Definition collationByCodes : Prop :=
  forall a b, localeCompare a b <= 0 <-> String.leb a b = true.

(** [nodeBefore] for that order. *)
Definition lexBefore (a b : TreeNode) : Prop :=
  (type a = folder /\ type b = file) \/
  (type a = type b /\ String.leb (name a) (name b) = true).

(** The directories below [p] nest at most [n] deep, as [readdir]
    lists them. *)
Fixpoint depthWithin (n : nat) (f : fs.FileSystem) (p : string) : bool :=
  match n with
  | O => false
  | S n' =>
      match fs.readdir f p with
      | None => true
      | Some items => forallb (fun item => depthWithin n' f (join p item)) items
      end
  end.

(** The directory reached from [p] through the entries [names]. *)
Definition descend (p : string) (names : list string) : string :=
  fold_left join names p.

(** The directories left behind on the way from [p] through [names]. *)
Fixpoint dirsAlong (p : string) (names : list string) : list string :=
  match names with
  | [] => []
  | a :: rest => p :: dirsAlong (join p a) rest
  end.

(** The stack that the invocation for [descend p names] receives when
    the invocation for [p] received [stack]: every directory on the way
    has pushed its level. *)
Fixpoint stackAt (f : fs.FileSystem) (options : TreeOptions)
    (stack : list IgnoreStackItem) (p : string) (names : list string)
    : list IgnoreStackItem :=
  match names with
  | [] => stack
  | a :: rest =>
      stackAt f options (pushLevel f p options stack) (join p a) rest
  end.

(** [q] is [p] or lies below it, through entries that [readdir]
    lists. *)
Inductive below (f : fs.FileSystem) (p : string) : string -> Prop :=
| below_here : below f p p
| below_entry q items a :
    below f p q -> fs.readdir f q = Some items -> In a items ->
    below f p (join q a).

(** The entries listed anywhere are named as a filesystem names
    them: the path of an entry is longer than its directory's, and it
    determines the directory. *)
Definition listedPathsNest (f : fs.FileSystem) : Prop :=
  forall p q items items' a b,
    fs.readdir f p = Some items -> In a items ->
    fs.readdir f q = Some items' -> In b items' ->
    (String.length p < String.length (join p a))%nat /\
    (join p a = join q b -> p = q).

(** Where a node of [children] comes from. *)
Inductive childOf (recur : string -> option TreeNode) (c : Candidate)
    : TreeNode -> Prop :=
| child_ignored_folder :
    isIgnored c = true -> fs.isDirectory (cand_stats c) = true ->
    childOf recur c (ignoredFolder c)
| child_subtree n :
    isIgnored c = false -> fs.isDirectory (cand_stats c) = true ->
    recur (cand_path c) = Some n ->
    childOf recur c n
| child_file :
    isIgnored c = false -> fs.isDirectory (cand_stats c) = false ->
    childOf recur c (fileNode c).

(** The shapes of the node an invocation returns. *)
Inductive rootShape (f : fs.FileSystem) (options : TreeOptions)
    (p : string) (stack : list IgnoreStackItem) (fuel : nat)
    : TreeNode -> Prop :=
| shape_unreadable :
    fs.lstat f p = None -> rootShape f options p stack fuel (leafNode p 0)
| shape_link s :
    fs.lstat f p = Some s -> fs.isSymbolicLink s = true ->
    rootShape f options p stack fuel (leafNode p 0)
| shape_file s :
    fs.lstat f p = Some s -> fs.isSymbolicLink s = false ->
    fs.isDirectory s = false ->
    rootShape f options p stack fuel (leafNode p (fs.size s))
| shape_unlisted :
    isDirectoryAt f p -> fs.readdir f p = None ->
    rootShape f options p stack fuel (emptyFolder p)
| shape_truncated items :
    listedDirectory f p items ->
    overMaxLeaf options
      (visibleCount (scanCandidates f (pushLevel f p options stack) p items))
      = true ->
    rootShape f options p stack fuel (truncatedFolder p)
| shape_expanded items cs :
    listedDirectory f p items ->
    overMaxLeaf options
      (visibleCount (scanCandidates f (pushLevel f p options stack) p items))
      = false ->
    collectChildren
      (fun q => buildTree fuel f q options (pushLevel f p options stack))
      (scanCandidates f (pushLevel f p options stack) p items) = Some cs ->
    rootShape f options p stack fuel (expandedFolder p (sort cs)).

End Vocabulary.

(** ** A concrete runtime, for the examples

    The general statements below hold for every [PathModule],
    [IgnorePackage] and [Collation].  The examples run the builder on
    small filesystems, for which the three interfaces are given values:
    POSIX paths without [.] and [..] segments, the [ignore] package on
    patterns without wildcards or negation, and the comparison of
    strings by character codes. *)

Module Posix.

Definition slash : Ascii.ascii := "/"%char.

(** The segment after the last separator. *)
Fixpoint lastSegment (acc s : string) : string :=
  match s with
  | EmptyString => acc
  | String c s' =>
      if Ascii.eqb c slash then lastSegment "" s'
      else lastSegment (acc ++ String c "") s'
  end.

Definition basename (p : string) : string := lastSegment "" p.

(** [path.join(dir, entry)] for a directory path that has no trailing
    separator and an entry name. *)
Definition join (dir entry : string) : string := dir ++ "/" ++ entry.

(** [path.relative(from, to)] for [to] below [from]: what follows
    [from] and the separator. *)
Definition relative (from to : string) : string :=
  if String.prefix (from ++ "/") to
  then String.substring (String.length from + 1)
                        (String.length to - (String.length from + 1)) to
  else to.

Definition pathModule : PathModule :=
  Build_PathModule basename join relative.

End Posix.

Module Literal.

(** Split at every occurrence of a character. *)
Fixpoint splitOn (sep : Ascii.ascii) (acc s : string) : list string :=
  match s with
  | EmptyString => [acc]
  | String c s' =>
      if Ascii.eqb c sep then acc :: splitOn sep "" s'
      else splitOn sep (acc ++ String c "") s'
  end.

Definition nonEmpty (s : string) : bool := negb (String.eqb s "").

Definition segments (s : string) : list string :=
  filter nonEmpty (splitOn Posix.slash "" s).

Fixpoint endsWithSlash (s : string) : bool :=
  match s with
  | EmptyString => false
  | String c EmptyString => Ascii.eqb c Posix.slash
  | String _ s' => endsWithSlash s'
  end.

Fixpoint hasSlash (s : string) : bool :=
  match s with
  | EmptyString => false
  | String c s' => Ascii.eqb c Posix.slash || hasSlash s'
  end.

(** A pattern without its trailing separator. *)
Fixpoint core (s : string) : string :=
  match s with
  | EmptyString => EmptyString
  | String c EmptyString => if Ascii.eqb c Posix.slash then "" else s
  | String c s' => String c (core s')
  end.

Fixpoint stripSegments (ps segs : list string) : option (list string) :=
  match ps, segs with
  | [], _ => Some segs
  | _ :: _, [] => None
  | x :: ps', y :: segs' =>
      if String.eqb x y then stripSegments ps' segs' else None
  end.

(** The pattern segments lead the path; when they are the whole path,
    a directory-only pattern asks for the directory form. *)
Definition matchAt (dirOnly dirForm : bool) (ps segs : list string) : bool :=
  match stripSegments ps segs with
  | Some [] => implb dirOnly dirForm
  | Some (_ :: _) => true
  | None => false
  end.

Fixpoint matchAnywhere (dirOnly dirForm : bool) (ps segs : list string)
    : bool :=
  match segs with
  | [] => false
  | _ :: segs' =>
      matchAt dirOnly dirForm ps segs
      || matchAnywhere dirOnly dirForm ps segs'
  end.

(** One literal pattern against a relative path: a pattern with an
    inner separator is anchored at the matcher's directory, a plain
    name matches at any depth, and a trailing separator in the pattern
    restricts it to directories. *)
Definition matches (pattern rel : string) : bool :=
  let dirOnly := endsWithSlash pattern in
  let dirForm := endsWithSlash rel in
  let ps := segments pattern in
  if hasSlash (core pattern) then matchAt dirOnly dirForm ps (segments rel)
  else matchAnywhere dirOnly dirForm ps (segments rel).

Definition newline : Ascii.ascii := Ascii.ascii_of_nat 10.

(** The lines of an ignore file that are patterns: not blank, not a
    comment. *)
Definition patternLines (content : string) : list string :=
  filter (fun l => nonEmpty l && negb (String.prefix "#" l))
         (splitOn newline "" content).

Definition ignorePackage : IgnorePackage :=
  {| Ignore := list string;
     ignore := [];
     add := fun ig content => (ig ++ patternLines content)%list;
     addAll := fun ig patterns => (ig ++ patterns)%list;
     ignores := fun ig rel => existsb (fun p => matches p rel) ig |}.

End Literal.

Module CodeUnits.

Definition localeCompare (a b : string) : Z :=
  match String.compare a b with
  | Lt => -1
  | Eq => 0
  | Gt => 1
  end.

Definition collation : Collation :=
  Build_Collation localeCompare.

End CodeUnits.

(** [localeCompare] as a runtime with locale-aware collation answers
    in its default collation, on names made of ASCII letters: the
    letters are compared without regard to case first; names that
    differ by case only are then compared with the lowercase letter
    before the uppercase one.  So ["a"] comes before ["B"], and ["ab"]
    before ["aB"]. *)
Module Dictionary.

Definition isUpper (c : Ascii.ascii) : bool :=
  ((65 <=? nat_of_ascii c) && (nat_of_ascii c <=? 90))%nat.

Definition isLower (c : Ascii.ascii) : bool :=
  ((97 <=? nat_of_ascii c) && (nat_of_ascii c <=? 122))%nat.

Definition fold (c : Ascii.ascii) : Ascii.ascii :=
  if isUpper c then ascii_of_nat (nat_of_ascii c + 32) else c.

Definition swapCase (c : Ascii.ascii) : Ascii.ascii :=
  if isUpper c then ascii_of_nat (nat_of_ascii c + 32)
  else if isLower c then ascii_of_nat (nat_of_ascii c - 32)
  else c.

Fixpoint mapString (g : Ascii.ascii -> Ascii.ascii) (s : string) : string :=
  match s with
  | EmptyString => EmptyString
  | String c s' => String (g c) (mapString g s')
  end.

Definition sign (c : comparison) : Z :=
  match c with
  | Lt => -1
  | Eq => 0
  | Gt => 1
  end.

Definition localeCompare (a b : string) : Z :=
  match String.compare (mapString fold a) (mapString fold b) with
  | Eq => sign (String.compare (mapString swapCase a) (mapString swapCase b))
  | c => sign c
  end.

Definition collation : Collation :=
  Build_Collation localeCompare.

End Dictionary.

(** ** Example filesystems *)

Module Example.

Inductive Entry : Type :=
| File (bytes : Z) (content : string)
| Dir (entries : list string)
| Unlistable
| Link.

Fixpoint lookup (p : string) (table : list (string * Entry)) : option Entry :=
  match table with
  | [] => None
  | (q, e) :: table' => if String.eqb p q then Some e else lookup p table'
  end.

Definition regular (dir : bool) (bytes : Z) : fs.Stats :=
  {| fs.isSymbolicLink := false; fs.isDirectory := dir; fs.size := bytes |}.

(** The filesystem a table of paths describes; a path that is not in
    the table does not exist, an [Unlistable] directory refuses
    [readdir], and [readFile] reads regular files only. *)
Definition observe (table : list (string * Entry)) : fs.FileSystem :=
  {| fs.lstat := fun p =>
       match lookup p table with
       | Some (File bytes _) => Some (regular false bytes)
       | Some (Dir _) | Some Unlistable => Some (regular true 4096)
       | Some Link =>
           Some {| fs.isSymbolicLink := true; fs.isDirectory := false;
                   fs.size := 0 |}
       | None => None
       end;
     fs.readFile := fun p =>
       match lookup p table with
       | Some (File _ content) => Some content
       | _ => None
       end;
     fs.readdir := fun p =>
       match lookup p table with
       | Some (Dir entries) => Some entries
       | _ => None
       end |}.

Definition noOptions : TreeOptions :=
  {| maxLeaf := None; ignorePatterns := None |}.

Definition withMaxLeaf (m : Z) : TreeOptions :=
  {| maxLeaf := Some m; ignorePatterns := None |}.

(** The builder on the concrete runtime. *)
Definition build (fuel : nat) (f : fs.FileSystem) (root : string)
    (options : TreeOptions) : option TreeNode :=
  @buildTree Posix.pathModule Literal.ignorePackage CodeUnits.collation
             fuel f root options [].

(** The test "path-specific ignore rules from root": the root's
    ignore file names [src/ignore.txt]; a file [ignore.txt] also sits
    at the root. *)
Definition pathSpecific : fs.FileSystem :=
  observe
    [ ("/r", Dir [".gitignore"; "ignore.txt"; "src"]);
      ("/r/.gitignore", File 14 "src/ignore.txt");
      ("/r/ignore.txt", File 4 "root");
      ("/r/src", Dir ["ignore.txt"; "keep.txt"]);
      ("/r/src/ignore.txt", File 7 "ignored");
      ("/r/src/keep.txt", File 4 "kept") ].

Definition leaf (nm p : string) (bytes : Z) : TreeNode :=
  {| name := nm; path := p; type := file; children := None;
     skipped := None; stats := Some {| size := bytes |} |}.

Definition dir (nm p : string) (cs : list TreeNode) : TreeNode :=
  {| name := nm; path := p; type := folder; children := Some cs;
     skipped := None; stats := None |}.

Definition stub (nm p : string) (r : SkipReason) : TreeNode :=
  {| name := nm; path := p; type := folder; children := None;
     skipped := Some r; stats := None |}.

(** The test "ignore files based on .gitignore": an ignored file, an
    ignored directory with a file in it, and a file that stays. *)
Definition ignoredEntries : fs.FileSystem :=
  observe
    [ ("/r", Dir [".gitignore"; "ignored.txt"; "included.txt";
                  "node_modules"]);
      ("/r/.gitignore",
       File 24 ("ignored.txt" ++ String Literal.newline "node_modules"));
      ("/r/ignored.txt", File 7 "content");
      ("/r/included.txt", File 7 "content");
      ("/r/node_modules", Dir ["pkg.json"]);
      ("/r/node_modules/pkg.json", File 2 "{}") ].

(** The test "respect maxLeaf option": a directory of five files. *)
Definition largeDir : fs.FileSystem :=
  observe
    [ ("/r", Dir ["large-dir"]);
      ("/r/large-dir",
       Dir ["file0.txt"; "file1.txt"; "file2.txt"; "file3.txt";
            "file4.txt"]);
      ("/r/large-dir/file0.txt", File 7 "content");
      ("/r/large-dir/file1.txt", File 7 "content");
      ("/r/large-dir/file2.txt", File 7 "content");
      ("/r/large-dir/file3.txt", File 7 "content");
      ("/r/large-dir/file4.txt", File 7 "content") ].

(** The same directory with three of the five files ignored. *)
Definition ignoringThree (m : Z) : TreeOptions :=
  {| maxLeaf := Some m;
     ignorePatterns := Some ["file0.txt"; "file1.txt"; "file2.txt"] |}.

(** The test "skip symbolic links": a directory and a link to it. *)
Definition linked : fs.FileSystem :=
  observe
    [ ("/r", Dir ["link"; "target"]);
      ("/r/link", Link);
      ("/r/target", Dir ["file.txt"]);
      ("/r/target/file.txt", File 7 "content") ].


(** Two files whose names differ in case. *)
Definition mixedCase : fs.FileSystem :=
  observe
    [ ("/r", Dir ["B"; "a"]);
      ("/r/B", File 1 "b");
      ("/r/a", File 1 "a") ].

(** The test "directory-specific ignore rules (trailing slash)". *)
Definition directoryOnly : fs.FileSystem :=
  observe
    [ ("/r", Dir [".gitignore"; "coverage"; "coverage_file"]);
      ("/r/.gitignore", File 9 "coverage/");
      ("/r/coverage", Dir ["data.json"]);
      ("/r/coverage/data.json", File 2 "{}");
      ("/r/coverage_file", File 4 "data") ].

(** A directory that cannot be listed. *)
Definition locked : fs.FileSystem :=
  observe
    [ ("/r", Dir ["locked"]);
      ("/r/locked", Unlistable) ].

Definition pathSpecificTree : TreeNode :=
  dir "r" "/r"
    [ dir "src" "/r/src" [ leaf "keep.txt" "/r/src/keep.txt" 4 ];
      leaf ".gitignore" "/r/.gitignore" 14;
      leaf "ignore.txt" "/r/ignore.txt" 4 ].

End Example.

#[global] Existing Instances
  Posix.pathModule Literal.ignorePackage CodeUnits.collation.

(** ** renderTree (src/render.ts) *)

(** The colourings of the [chalk] package that the renderer calls:
    [chalk.gray], [chalk.yellow] and [chalk.bold.blue]. *)
Class Chalk : Type := {
  gray : string -> string;
  yellow : string -> string;
  boldBlue : string -> string
}.

Module Render.

Section Renderer.

Context {CH : Chalk}.

(** The icon and the name of a line: the marker [skipped] is looked at
    before the kind of the node. *)
Definition label (node : TreeNode) : string :=
  match skipped node with
  | Some skipped_gitignore =>
      "🚫" ++ " " ++ gray (name node ++ " (ignored)")
  | Some skipped_size =>
      "📚" ++ " " ++ yellow (name node ++ " (too many files)")
  | None =>
      match type node with
      | folder => "📁" ++ " " ++ boldBlue (name node)
      | file => "📄" ++ " " ++ name node
      end
  end.

(** What stands before the label: nothing for the root, the prefix and
    a connector otherwise. *)
Definition lead (prefix : string) (isLast isRoot : bool) : string :=
  if isRoot then ""
  else prefix ++ (if isLast then "└── " else "├── ").

Definition childPrefix (prefix : string) (isLast isRoot : bool) : string :=
  if isRoot then ""
  else prefix ++ (if isLast then "    " else "│   ").

(** The inner function [traverse]; the array [lines] it pushes to is
    threaded.  A child is the last one when nothing follows it
    ([index === node.children.length - 1]). *)
Fixpoint traverse (node : TreeNode) (prefix : string) (isLast isRoot : bool)
    (lines : list string) {struct node} : list string :=
  let line := lead prefix isLast isRoot ++ label node in
  let lines := (lines ++ [line])%list in
  match node with
  | mkTreeNode _ _ _ (Some cs) _ _ =>
      (fix forEach (l : list TreeNode) (lines : list string)
         : list string :=
         match l with
         | [] => lines
         | child :: rest =>
             forEach rest
               (traverse child (childPrefix prefix isLast isRoot)
                  (match rest with [] => true | _ :: _ => false end)
                  false lines)
         end) cs lines
  | mkTreeNode _ _ _ None _ _ => lines
  end.

(** The array [lines] when [traverse] is done. *)
Definition renderLines (tree : TreeNode) : list string :=
  traverse tree "" true true [].

Definition lineFeed : string := String (ascii_of_nat 10) "".

Definition renderTree (tree : TreeNode) : string :=
  String.concat lineFeed (renderLines tree).

End Renderer.

(** The lines without the threading: the node's own line, then the
    lines of each child under the child prefix, the last child marked
    as such. *)
Section Lines.

Context {CH : Chalk}.

Fixpoint linesOf (node : TreeNode) (prefix : string) (isLast isRoot : bool)
    {struct node} : list string :=
  (lead prefix isLast isRoot ++ label node)
  :: match node with
     | mkTreeNode _ _ _ (Some cs) _ _ =>
         (fix each (l : list TreeNode) : list string :=
            match l with
            | [] => []
            | child :: rest =>
                (linesOf child (childPrefix prefix isLast isRoot)
                   (match rest with [] => true | _ :: _ => false end)
                   false
                 ++ each rest)%list
            end) cs
     | mkTreeNode _ _ _ None _ _ => []
     end.

(** The lines of a list of children under one prefix. *)
Fixpoint childLines (cp : string) (l : list TreeNode) : list string :=
  match l with
  | [] => []
  | child :: rest =>
      (linesOf child cp (match rest with [] => true | _ :: _ => false end)
         false
       ++ childLines cp rest)%list
  end.

End Lines.

(** A prefix for depth [d]: [d] units of four columns, each blank or
    carrying the vertical bar. *)
Inductive indent : nat -> string -> Prop :=
| indent_none : indent 0 ""
| indent_blank d s : indent d s -> indent (S d) (s ++ "    ")
| indent_bar d s : indent d s -> indent (S d) (s ++ "│   ").

(** The nodes of a tree with their depths, in the order of
    [subnodes]. *)
Fixpoint withDepth (d : nat) (n : TreeNode) : list (nat * TreeNode) :=
  match n with
  | mkTreeNode _ _ _ (Some cs) _ _ => (d, n) :: flat_map (withDepth (S d)) cs
  | mkTreeNode _ _ _ None _ _ => [(d, n)]
  end.

Section LineShape.

Context {CH : Chalk}.

(** The line of a node at a depth: the bare label at depth 0; below,
    an indentation of one unit less than the depth, a connector and the
    label. *)
Definition lineAt (dn : nat * TreeNode) (line : string) : Prop :=
  match fst dn with
  | O => line = label (snd dn)
  | S d =>
      exists ind,
        indent d ind /\
        (line = ind ++ "├── " ++ label (snd dn) \/
         line = ind ++ "└── " ++ label (snd dn))
  end.

End LineShape.

(** The number of occurrences of a character in a text, and the lines
    of a text: what [text.split] gives at the line feeds. *)
Fixpoint occurrences (c : Ascii.ascii) (s : string) : nat :=
  match s with
  | EmptyString => 0
  | String x s' => (if Ascii.eqb x c then 1 else 0) + occurrences c s'
  end.

Definition lineFeeds (s : string) : nat := occurrences Literal.newline s.

Definition textLines (s : string) : list string :=
  Literal.splitOn Literal.newline "" s.

(** [chalk] without colour support: the text comes back as it is. *)
Definition plain : Chalk :=
  {| gray := fun s => s; yellow := fun s => s; boldBlue := fun s => s |}.

End Render.

(** ** The verification script (verify-file-list.js) *)

Module Verify.

(** [Set.prototype.add] on a set kept in insertion order. *)
Definition setAdd (x : string) (s : list string) : list string :=
  if existsb (String.eqb x) s then s else (s ++ [x])%list.

Definition setHas (s : list string) (x : string) : bool :=
  existsb (String.eqb x) s.

Section Script.

Context {PM : PathModule}.

(** [collectFiles]: a file node adds its path relative to the target;
    any other node hands over to its children when it has the field. *)
Fixpoint collectFiles (resolvedTarget : string) (node : TreeNode)
    (treeFiles : list string) : list string :=
  match node with
  | mkTreeNode _ p file _ _ _ => setAdd (relative resolvedTarget p) treeFiles
  | mkTreeNode _ _ folder (Some cs) _ _ =>
      fold_left (fun acc c => collectFiles resolvedTarget c acc) cs treeFiles
  | mkTreeNode _ _ folder None _ _ => treeFiles
  end.

End Script.

(** The comparison of step 3: what git lists and the tree lacks, what
    the tree lists and git lacks; success when both are empty. *)
Definition missingInTree (gitFiles treeFiles : list string) : list string :=
  filter (fun x => negb (setHas treeFiles x)) gitFiles.

Definition extraInTree (gitFiles treeFiles : list string) : list string :=
  filter (fun x => negb (setHas gitFiles x)) treeFiles.

Definition listsMatch (gitFiles treeFiles : list string) : bool :=
  ((length (missingInTree gitFiles treeFiles) =? 0)
   && (length (extraInTree gitFiles treeFiles) =? 0))%nat.

End Verify.

(** ** Further vocabulary for buildTree *)

(** The three shapes of a node: a file with its size, an expanded
    folder, a folder that carries a marker and no children. *)
Definition nodeShapeOk (n : TreeNode) : bool :=
  match type n, children n, skipped n, stats n with
  | file, None, None, Some _ => true
  | folder, Some _, None, None => true
  | folder, None, Some _, None => true
  | _, _, _, _ => false
  end.

(** The tally of the nodes below a list of children. *)
Definition childrenTally (cs : list TreeNode) : TreeSummary :=
  tally (flat_map subnodes cs).

Section MoreVocabulary.

Context {PM : PathModule} {IP : IgnorePackage}.

(** A listed entry that [lstat] reports and that is not a link. *)
Definition entryCounts (f : fs.FileSystem) (p item : string) : bool :=
  match fs.lstat f (join p item) with
  | Some s => negb (fs.isSymbolicLink s)
  | None => false
  end.

(** A listed entry that gets a node among the children: it counts, and
    it is a directory or no level of the stack ignores it. *)
Definition entryKept (f : fs.FileSystem) (stack : list IgnoreStackItem)
    (p item : string) : bool :=
  match fs.lstat f (join p item) with
  | Some s =>
      negb (fs.isSymbolicLink s)
      && (fs.isDirectory s
          || negb (checkIgnored stack (join p item) (fs.isDirectory s)))
  | None => false
  end.

(** The base name of a listed entry's path is the entry's name. *)
Definition listedNamesKept (f : fs.FileSystem) : Prop :=
  forall p items a,
    fs.readdir f p = Some items -> In a items -> basename (join p a) = a.


End MoreVocabulary.

(** ** Further example filesystems *)

Module Cases.

(** A directory that holds a link and a name that is gone. *)
Definition onlyLinks : fs.FileSystem :=
  Example.observe
    [ ("/r", Example.Dir ["a"; "gone"]);
      ("/r/a", Example.Link) ].

End Cases.

(** * The command line: [main] of index.ts *)

Module Main.

Definition equals : Ascii.ascii := "="%char.

(** [s.includes('=')]. *)
Fixpoint includesEquals (s : string) : bool :=
  match s with
  | EmptyString => false
  | String c s' => Ascii.eqb c equals || includesEquals s'
  end.

(** The three variables that the argument loop assigns. *)
Record Settings (Num : Type) : Type := mkSettings {
  targetDir : string;
  maxLeaf : option Num;
  showSummary : bool
}.

Arguments mkSettings {Num} _ _ _.
Arguments targetDir {Num} _.
Arguments maxLeaf {Num} _.
Arguments showSummary {Num} _.

Section Arguments.

(** The numbers of the language and [parseInt(val, 10)]. *)
Variable Num : Type.
Variable parseInt : string -> Num.

Definition isSummaryFlag (arg : string) : bool :=
  String.eqb arg "--summary" || String.eqb arg "-s".

Definition isMaxLeafFlag (arg : string) : bool :=
  String.eqb arg "--maxLeaf" || String.prefix "--maxLeaf=" arg
  || String.eqb arg "-m" || String.prefix "-m=" arg.

(** [if (val) maxLeaf = parseInt(val, 10)]: [undefined] and the empty
    string leave the variable as it is. *)
Definition assignMaxLeaf (val : option string) (st : Settings Num) :
    Settings Num :=
  match val with
  | Some v =>
      if String.eqb v "" then st
      else mkSettings (targetDir st) (Some (parseInt v)) (showSummary st)
  | None => st
  end.

(** The loop over [args], from the current index on: the list holds
    [args[i]], [args[i + 1]], ...  An option without [=] takes the next
    argument as its value and steps over it. *)
Fixpoint parseArgs (args : list string) (st : Settings Num) : Settings Num :=
  match args with
  | [] => st
  | arg :: rest =>
      if isSummaryFlag arg then
        parseArgs rest (mkSettings (targetDir st) (maxLeaf st) true)
      else if isMaxLeafFlag arg then
        if includesEquals arg then
          parseArgs rest
            (assignMaxLeaf (nth_error (Literal.splitOn equals "" arg) 1) st)
        else
          match rest with
          | [] => assignMaxLeaf None st
          | val :: rest' => parseArgs rest' (assignMaxLeaf (Some val) st)
          end
      else if negb (String.prefix "-" arg) then
        parseArgs rest (mkSettings arg (maxLeaf st) (showSummary st))
      else parseArgs rest st
  end.

Definition initial : Settings Num := mkSettings "." None false.

End Arguments.

(** The condition under which the summary has its line of skipped
    folders. *)
Definition skippedLineShown (summary : TreeSummary) : bool :=
  (skippedGitignore summary >? 0) || (skippedSize summary >? 0).

(** [parseInt(val, 10)] for the runs below, on a text without sign or
    leading blanks: the number written by the decimal digits the text
    begins with, [None] (for [NaN]) when it begins with none. *)
Definition digitOf (c : Ascii.ascii) : option Z :=
  let n := Z.of_nat (Ascii.nat_of_ascii c) in
  if (48 <=? n) && (n <=? 57) then Some (n - 48) else None.

Fixpoint readDigits (s : string) (acc : option Z) : option Z :=
  match s with
  | EmptyString => acc
  | String c s' =>
      match digitOf c with
      | Some d =>
          readDigits s' (Some (10 * match acc with Some a => a | None => 0 end
                               + d))
      | None => acc
      end
  end.

Definition parseDecimal (s : string) : option Z := readDigits s None.

End Main.

(** * The builder with the exceptions of the [ignore] package *)

(** [ignores] checks the path it is handed before it matches it, and
    throws on a path that it does not take for a relative one;
    [checkPath] tells the paths it accepts.  The field [ignores] of
    [IgnorePackage] is the verdict on an accepted path. *)
Class PathCheck : Type := {
  checkPath : string -> bool
}.

(** How an invocation ends: the promise resolves with a value, it
    rejects, or the fuel of the model ran out. *)
Inductive Outcome (A : Type) : Type :=
| resolves (a : A)
| rejects
| unfinished.

Arguments resolves {A} a.
Arguments rejects {A}.
Arguments unfinished {A}.

Definition ofOption {A : Type} (o : option A) : Outcome A :=
  match o with
  | Some a => resolves a
  | None => unfinished
  end.

Definition mapOutcome {A B : Type} (g : A -> B) (o : Outcome A) : Outcome B :=
  match o with
  | resolves a => resolves (g a)
  | rejects => rejects
  | unfinished => unfinished
  end.

Module Throwing.

Section Builder.

Context {PM : PathModule} {IP : IgnorePackage} {CO : Collation}
        {PC : PathCheck}.

(** The inner loop over [newStack], [None] when a call of [ignores]
    throws: neither call stands inside a [try]. *)
Fixpoint checkIgnored (stack : list IgnoreStackItem) (itemPath : string)
    (isDir : bool) : option bool :=
  match stack with
  | [] => Some false
  | lvl :: rest =>
      let relPath := relative (basePath lvl) itemPath in
      if checkPath relPath then
        if ignores (ignorer lvl) relPath then Some true
        else if isDir then
          if checkPath (relPath ++ "/") then
            if ignores (ignorer lvl) (relPath ++ "/") then Some true
            else checkIgnored rest itemPath isDir
          else None
        else checkIgnored rest itemPath isDir
      else None
  end.

(** The loop that fills [candidates], [None] when it is left by an
    exception. *)
Fixpoint scanCandidates (f : fs.FileSystem) (newStack : list IgnoreStackItem)
    (currentPath : string) (childrenItems : list string)
    : option (list Candidate) :=
  match childrenItems with
  | [] => Some []
  | item :: rest =>
      let itemPath := join currentPath item in
      match fs.lstat f itemPath with
      | None => scanCandidates f newStack currentPath rest
      | Some s =>
          if fs.isSymbolicLink s then scanCandidates f newStack currentPath rest
          else
            match checkIgnored newStack itemPath (fs.isDirectory s) with
            | None => None
            | Some ig =>
                option_map
                  (cons {| cand_name := item; cand_path := itemPath;
                           isIgnored := ig; cand_stats := s |})
                  (scanCandidates f newStack currentPath rest)
            end
      end
  end.

(** The loop that fills [children]: a recursive call that rejects
    rejects the caller. *)
Fixpoint collectChildren (recur : string -> Outcome TreeNode)
    (candidates : list Candidate) : Outcome (list TreeNode) :=
  match candidates with
  | [] => resolves []
  | cand :: rest =>
      if isIgnored cand then
        if fs.isDirectory (cand_stats cand) then
          mapOutcome (cons (ignoredFolder cand)) (collectChildren recur rest)
        else collectChildren recur rest
      else if fs.isDirectory (cand_stats cand) then
        match recur (cand_path cand) with
        | resolves n => mapOutcome (cons n) (collectChildren recur rest)
        | rejects => rejects
        | unfinished => unfinished
        end
      else mapOutcome (cons (fileNode cand)) (collectChildren recur rest)
  end.

Fixpoint buildTree (fuel : nat) (f : fs.FileSystem) (currentPath : string)
    (options : TreeOptions) (ignoreStack : list IgnoreStackItem)
    : Outcome TreeNode :=
  match fuel with
  | O => unfinished
  | S fuel' =>
      let name_ := basename currentPath in
      match fs.lstat f currentPath with
      | None => resolves (leafNode currentPath 0)
      | Some stats_ =>
          if fs.isSymbolicLink stats_ then resolves (leafNode currentPath 0)
          else if negb (fs.isDirectory stats_) then
            resolves (leafNode currentPath (fs.size stats_))
          else
            let newStack := pushLevel f currentPath options ignoreStack in
            match fs.readdir f currentPath with
            | None =>
                resolves {| name := name_; path := currentPath;
                            type := folder; children := Some [];
                            skipped := None; stats := None |}
            | Some childrenItems =>
                match scanCandidates f newStack currentPath childrenItems with
                | None => rejects
                | Some candidates =>
                    if overMaxLeaf options (visibleCount candidates) then
                      resolves {| name := name_; path := currentPath;
                                  type := folder; children := None;
                                  skipped := Some skipped_size;
                                  stats := None |}
                    else
                      match collectChildren
                              (fun p => buildTree fuel' f p options newStack)
                              candidates with
                      | resolves children_ =>
                          resolves {| name := name_; path := currentPath;
                                      type := folder;
                                      children := Some (sort children_);
                                      skipped := None; stats := None |}
                      | rejects => rejects
                      | unfinished => unfinished
                      end
                end
            end
      end
  end.

End Builder.

End Throwing.

(** The check of the package on the runs below: it refuses the empty
    path, a path made of dots only, and a path that begins with a
    separator or with dots followed by a separator. *)
Module Checked.

Fixpoint onlyDots (s : string) : bool :=
  match s with
  | EmptyString => true
  | String c s' => Ascii.eqb c "."%char && onlyDots s'
  end.

Fixpoint dotsThenSlash (s : string) : bool :=
  match s with
  | EmptyString => false
  | String c s' =>
      Ascii.eqb c Posix.slash || (Ascii.eqb c "."%char && dotsThenSlash s')
  end.

Definition checkPath (p : string) : bool :=
  negb (String.eqb p "") && negb (onlyDots p) && negb (dotsThenSlash p).

Definition pathCheck : PathCheck := Build_PathCheck checkPath.

(** A directory that holds a file named by three dots. *)
Definition dotsEntry : fs.FileSystem :=
  Example.observe
    [ ("/r", Example.Dir ["..."; "a.txt"]);
      ("/r/...", Example.File 1 "x");
      ("/r/a.txt", Example.File 1 "a") ].

End Checked.
(** * Properties of getSummary *)


Lemma addSummary_assoc (a b c : TreeSummary) :
  addSummary (addSummary a b) c = addSummary a (addSummary b c).
Proof.
  unfold addSummary; simpl; f_equal; lia.
Qed.

Lemma countIf_app (p : TreeNode -> bool) (l1 l2 : list TreeNode) :
  countIf p (l1 ++ l2) = countIf p l1 + countIf p l2.
Proof.
  unfold countIf. rewrite filter_app, length_app. lia.
Qed.

Lemma tally_app (l1 l2 : list TreeNode) :
  tally (l1 ++ l2) = addSummary (tally l1) (tally l2).
Proof.
  unfold tally, addSummary; simpl. now rewrite !countIf_app.
Qed.

Lemma tally_nil : tally [] = emptySummary.
Proof. reflexivity. Qed.

Lemma addSummary_empty_r (a : TreeSummary) : addSummary a emptySummary = a.
Proof.
  destruct a; unfold addSummary; simpl; f_equal; lia.
Qed.

Lemma addSummary_empty_l (a : TreeSummary) : addSummary emptySummary a = a.
Proof.
  destruct a; unfold addSummary; simpl; f_equal; lia.
Qed.

(** The statements of [traverse] for one node add the tally of that
    node to the summary. *)
Lemma countNode_tally (n : TreeNode) (s : TreeSummary) :
  countNode n s = addSummary s (tally [n]).
Proof.
  destruct s as [a b c d], n as [nm p ty cs sk st].
  unfold countNode, addSummary, tally, countIf, isFile, isFolder, hasSkip.
  destruct ty; simpl.
  - f_equal; lia.
  - destruct sk as [[|]|]; simpl; f_equal; lia.
Qed.

Lemma forEach_traverse_tally (cs : list TreeNode) :
  Forall (fun c => forall s, traverse c s = addSummary s (tally (subnodes c))) cs ->
  forall s,
    fold_left (fun acc c => traverse c acc) cs s =
    addSummary s (tally (flat_map subnodes cs)).
Proof.
  induction 1 as [|c cs Hc _ IH]; intros s; simpl.
  - now rewrite tally_nil, addSummary_empty_r.
  - rewrite Hc, IH, tally_app. apply addSummary_assoc.
Qed.

Lemma traverse_tally (n : TreeNode) :
  forall s, traverse n s = addSummary s (tally (subnodes n)).
Proof.
  induction n as [nm p ty sk st | nm p ty cs sk st IH]
    using TreeNode_nested_ind; intros s.
  - simpl. apply countNode_tally.
  - change (traverse (mkTreeNode nm p ty (Some cs) sk st) s)
      with (fold_left (fun acc c => traverse c acc) cs
              (countNode (mkTreeNode nm p ty (Some cs) sk st) s)).
    rewrite (forEach_traverse_tally cs IH), countNode_tally.
    rewrite addSummary_assoc, <- tally_app. reflexivity.
Qed.

(** C8. For every tree, [getSummary] counts each folder node of the
    tree (the root too) once in [totalFolders] and each file node once
    in [totalFiles]; a folder skipped for [gitignore] is counted once
    more in [skippedGitignore] and one skipped for [size] once more in
    [skippedSize].  On the tree of one file, one nested folder holding
    one file, one folder skipped by an ignore rule and one skipped for
    its size, the summary is 2 files, 4 folders, 1 and 1. *)
Theorem getSummary_counts :
  (forall tree : TreeNode,
     totalFolders (getSummary tree) = countIf isFolder (subnodes tree) /\
     totalFiles (getSummary tree) = countIf isFile (subnodes tree) /\
     skippedGitignore (getSummary tree) =
       countIf (fun n => isFolder n && hasSkip skipped_gitignore n)
               (subnodes tree) /\
     skippedSize (getSummary tree) =
       countIf (fun n => isFolder n && hasSkip skipped_size n)
               (subnodes tree)) /\
  getSummary summaryTestTree =
    {| totalFiles := 2; totalFolders := 4;
       skippedGitignore := 1; skippedSize := 1 |}.
Proof.
  split; [|reflexivity].
  intros tree. unfold getSummary.
  rewrite traverse_tally, addSummary_empty_l. simpl. auto.
Qed.

Lemma countIf_split (P Q : TreeNode -> bool) (l : list TreeNode) :
  countIf P l =
  countIf (fun n => P n && Q n) l + countIf (fun n => P n && negb (Q n)) l.
Proof.
  unfold countIf.
  assert (H : (length (filter P l) =
               length (filter (fun n => P n && Q n) l)
               + length (filter (fun n => P n && negb (Q n)) l))%nat).
  { induction l as [|n l IH]; [reflexivity|].
    cbn [filter]. destruct (P n), (Q n); cbn [andb negb length]; lia. }
  lia.
Qed.

Lemma countIf_pointwise (P Q : TreeNode -> bool) (l : list TreeNode) :
  (forall n, P n = Q n) -> countIf P l = countIf Q l.
Proof.
  intros H. unfold countIf. f_equal. f_equal.
  induction l as [|n l IH]; [reflexivity|].
  cbn [filter]. now rewrite H, IH.
Qed.

(** The tally of one node reads its kind, and its marker when it is a
    folder. *)
Lemma tally_single (n n' : TreeNode) :
  type n = type n' ->
  (type n = folder -> skipped n = skipped n') ->
  tally [n] = tally [n'].
Proof.
  intros Hty Hsk.
  unfold tally, countIf, isFile, isFolder, hasSkip. cbn [filter].
  rewrite <- Hty. destruct (type n); cbn [NodeType_eqb andb].
  - reflexivity.
  - rewrite <- (Hsk eq_refl). now destruct (skipped n) as [[|]|].
Qed.

(** The markers on the file nodes do not enter the tally. *)
Lemma tally_remarkFiles (m : TreeNode -> option SkipReason) (n : TreeNode) :
  tally (subnodes (remarkFiles m n)) = tally (subnodes n).
Proof.
  induction n as [nm p ty sk st | nm p ty cs sk st IH]
    using TreeNode_nested_ind.
  - cbn [remarkFiles subnodes]. apply tally_single; cbn [type skipped].
    + reflexivity.
    + now intros ->.
  - cbn [remarkFiles subnodes].
    match goal with
    | |- tally (?a :: ?l) = tally (?b :: ?l') =>
        change (tally ([a] ++ l) = tally ([b] ++ l'))
    end.
    rewrite !tally_app. f_equal.
    + apply tally_single; cbn [type skipped]; [reflexivity | now intros ->].
    + induction IH as [|c rest Hc _ IHrest]; [reflexivity|].
      cbn [map flat_map]. now rewrite !tally_app, Hc, IHrest.
Qed.

(** C10. Over a whole tree the two skip counters move only on folder
    nodes.  Every file node, with a marker or without, is counted in
    [totalFiles]; [skippedGitignore] is the number of nodes that carry
    the marker [gitignore] less the file nodes among them, and
    [skippedSize] likewise for [size]; so the markers of the file nodes
    can be set, changed or removed anywhere in the tree and the summary
    stays the same. *)
Theorem getSummary_file_marker_not_counted :
  forall tree : TreeNode,
    totalFiles (getSummary tree) =
      countIf (fun n => isFile n && isMarked n) (subnodes tree)
      + countIf (fun n => isFile n && negb (isMarked n)) (subnodes tree) /\
    skippedGitignore (getSummary tree) =
      countIf (hasSkip skipped_gitignore) (subnodes tree)
      - countIf (fun n => isFile n && hasSkip skipped_gitignore n)
                (subnodes tree) /\
    skippedSize (getSummary tree) =
      countIf (hasSkip skipped_size) (subnodes tree)
      - countIf (fun n => isFile n && hasSkip skipped_size n)
                (subnodes tree) /\
    (forall m : TreeNode -> option SkipReason,
       getSummary (remarkFiles m tree) = getSummary tree).
Proof.
  intros tree.
  assert (Hskip : forall r l,
            countIf (fun n => isFolder n && hasSkip r n) l =
            countIf (hasSkip r) l
            - countIf (fun n => isFile n && hasSkip r n) l).
  { intros r l.
    rewrite (countIf_split (hasSkip r) isFolder l).
    rewrite (countIf_pointwise (fun n => hasSkip r n && isFolder n)
               (fun n => isFolder n && hasSkip r n))
      by (intros n; apply andb_comm).
    rewrite (countIf_pointwise (fun n => hasSkip r n && negb (isFolder n))
               (fun n => isFile n && hasSkip r n)).
    - lia.
    - intros n. unfold isFolder, isFile.
      destruct (type n), (hasSkip r n); reflexivity. }
  unfold getSummary. rewrite traverse_tally, addSummary_empty_l.
  cbn [tally totalFiles skippedGitignore skippedSize].
  split; [apply countIf_split|].
  split; [apply Hskip|]. split; [apply Hskip|].
  intros m. now rewrite traverse_tally, addSummary_empty_l, tally_remarkFiles.
Qed.

(** ** buildTree: the loops *)

Section BuilderFacts.

Context {PM : PathModule} {IP : IgnorePackage} {CO : Collation}.

Lemma checkIgnored_iff (stack : list IgnoreStackItem) (itemPath : string)
    (isDir : bool) :
  checkIgnored stack itemPath isDir = true <->
  exists lvl, In lvl stack /\ excludes lvl itemPath isDir.
Proof.
  unfold excludes. induction stack as [|lvl rest IH]; simpl.
  - split; [discriminate | intros (lvl & [] & _)].
  - destruct (ignores (ignorer lvl) (relative (basePath lvl) itemPath)) eqn:E1.
    + split; [intros _ | reflexivity]. exists lvl; auto.
    + destruct isDir; simpl.
      * destruct (ignores (ignorer lvl)
                    (relative (basePath lvl) itemPath ++ "/")) eqn:E2.
        -- split; [intros _ | reflexivity]. exists lvl; auto.
        -- rewrite IH. split.
           ++ intros (l & Hin & Hex). exists l; auto.
           ++ intros (l & [<- | Hin] & Hex).
              ** destruct Hex as [H | [_ H]]; congruence.
              ** exists l; auto.
      * rewrite IH. split.
        -- intros (l & Hin & Hex). exists l; auto.
        -- intros (l & [<- | Hin] & Hex).
           ++ destruct Hex as [H | [H _]]; congruence.
           ++ exists l; auto.
Qed.

(** The loop stops at the first level that excludes: what stands
    after it in the stack has no part in the answer. *)
Lemma checkIgnored_prefix (pre post : list IgnoreStackItem)
    (itemPath : string) (isDir : bool) :
  checkIgnored pre itemPath isDir = true ->
  checkIgnored (pre ++ post) itemPath isDir = true.
Proof.
  induction pre as [|lvl rest IH]; simpl; [discriminate|].
  destruct (ignores (ignorer lvl) (relative (basePath lvl) itemPath));
    [reflexivity|].
  destruct (isDir && ignores (ignorer lvl)
              (relative (basePath lvl) itemPath ++ "/")); auto.
Qed.

Lemma scanCandidates_In (f : fs.FileSystem) (stack : list IgnoreStackItem)
    (p : string) (items : list string) (c : Candidate) :
  In c (scanCandidates f stack p items) <->
  exists item s,
    In item items /\ fs.lstat f (join p item) = Some s /\
    fs.isSymbolicLink s = false /\
    c = {| cand_name := item; cand_path := join p item;
           isIgnored := checkIgnored stack (join p item) (fs.isDirectory s);
           cand_stats := s |}.
Proof.
  induction items as [|item rest IH]; simpl.
  - split; [intros [] | intros (i & s & [] & _)].
  - destruct (fs.lstat f (join p item)) as [s|] eqn:El.
    + destruct (fs.isSymbolicLink s) eqn:Es.
      * rewrite IH. split.
        -- intros (i & s' & Hin & H). exists i, s'; auto.
        -- intros (i & s' & [<- | Hin] & Hl & Hs & Hc).
           ++ congruence.
           ++ exists i, s'; auto.
      * simpl. rewrite IH. split.
        -- intros [<- | (i & s' & Hin & H)].
           ++ exists item, s; auto.
           ++ exists i, s'; auto.
        -- intros (i & s' & [<- | Hin] & Hl & Hs & Hc).
           ++ left. rewrite El in Hl. injection Hl as <-. now subst c.
           ++ right. exists i, s'; auto.
    + rewrite IH. split.
      * intros (i & s' & Hin & H). exists i, s'; auto.
      * intros (i & s' & [<- | Hin] & Hl & Hs & Hc).
        -- congruence.
        -- exists i, s'; auto.
Qed.

Lemma collectChildren_In (recur : string -> option TreeNode)
    (candidates : list Candidate) :
  forall cs, collectChildren recur candidates = Some cs ->
  forall n, In n cs <-> exists c, In c candidates /\ childOf recur c n.
Proof.
  induction candidates as [|c rest IH]; simpl; intros cs Hcs n.
  - injection Hcs as <-. split; [intros [] | intros (c & [] & _)].
  - destruct (isIgnored c) eqn:Ei, (fs.isDirectory (cand_stats c)) eqn:Ed.
    + destruct (collectChildren recur rest) as [cs'|]; [|discriminate].
      simpl in Hcs. injection Hcs as <-. simpl. rewrite (IH cs' eq_refl n). split.
      * intros [<- | (c' & Hin & Hc)].
        -- exists c. split; [now left | now constructor].
        -- exists c'; auto.
      * intros (c' & [<- | Hin] & Hc).
        -- left. inversion Hc; congruence.
        -- right. exists c'; auto.
    + rewrite (IH cs Hcs n). split.
      * intros (c' & Hin & Hc). exists c'; auto.
      * intros (c' & [<- | Hin] & Hc).
        -- inversion Hc; congruence.
        -- exists c'; auto.
    + destruct (recur (cand_path c)) as [t|] eqn:Er; [|discriminate].
      destruct (collectChildren recur rest) as [cs'|]; [|discriminate].
      simpl in Hcs. injection Hcs as <-. simpl. rewrite (IH cs' eq_refl n). split.
      * intros [<- | (c' & Hin & Hc)].
        -- exists c. split; [now left | now apply child_subtree].
        -- exists c'; auto.
      * intros (c' & [<- | Hin] & Hc).
        -- left. inversion Hc; congruence.
        -- right. exists c'; auto.
    + destruct (collectChildren recur rest) as [cs'|]; [|discriminate].
      simpl in Hcs. injection Hcs as <-. simpl. rewrite (IH cs' eq_refl n). split.
      * intros [<- | (c' & Hin & Hc)].
        -- exists c. split; [now left | now constructor].
        -- exists c'; auto.
      * intros (c' & [<- | Hin] & Hc).
        -- left. inversion Hc; congruence.
        -- right. exists c'; auto.
Qed.

(** The loop ends with a list as soon as every recursive call it makes
    returns. *)
Lemma collectChildren_returns (recur : string -> option TreeNode)
    (candidates : list Candidate) :
  (forall c, In c candidates -> isIgnored c = false ->
             fs.isDirectory (cand_stats c) = true ->
             exists n, recur (cand_path c) = Some n) ->
  exists cs, collectChildren recur candidates = Some cs.
Proof.
  induction candidates as [|c rest IH]; simpl; intros H.
  - now exists [].
  - destruct IH as (cs & Hcs); [intros c' Hin; apply H; now right|].
    rewrite Hcs.
    destruct (isIgnored c) eqn:Ei, (fs.isDirectory (cand_stats c)) eqn:Ed;
      simpl; eauto.
    destruct (H c (or_introl eq_refl) Ei Ed) as (n & ->). simpl. eauto.
Qed.

Lemma collectChildren_mono (r1 r2 : string -> option TreeNode)
    (candidates : list Candidate) :
  (forall q n, r1 q = Some n -> r2 q = Some n) ->
  forall cs, collectChildren r1 candidates = Some cs ->
             collectChildren r2 candidates = Some cs.
Proof.
  intros H. induction candidates as [|c rest IH]; simpl; intros cs Hcs; auto.
  destruct (isIgnored c), (fs.isDirectory (cand_stats c)); auto.
  - destruct (collectChildren r1 rest) as [cs'|]; [|discriminate].
    now rewrite (IH cs' eq_refl).
  - destruct (r1 (cand_path c)) as [t|] eqn:Er; [|discriminate].
    rewrite (H _ _ Er).
    destruct (collectChildren r1 rest) as [cs'|]; [|discriminate].
    now rewrite (IH cs' eq_refl).
  - destruct (collectChildren r1 rest) as [cs'|]; [|discriminate].
    now rewrite (IH cs' eq_refl).
Qed.

Lemma collectChildren_ext (r1 r2 : string -> option TreeNode)
    (candidates : list Candidate) :
  (forall c, In c candidates -> r1 (cand_path c) = r2 (cand_path c)) ->
  collectChildren r1 candidates = collectChildren r2 candidates.
Proof.
  induction candidates as [|c rest IH]; simpl; intros H; auto.
  rewrite IH by (intros c' Hin; apply H; now right).
  now rewrite (H c (or_introl eq_refl)).
Qed.

(** ** buildTree: the sort *)

Lemma insertNode_perm (x : TreeNode) (l : list TreeNode) :
  Permutation (insertNode x l) (x :: l).
Proof.
  induction l as [|y l IH]; simpl; auto.
  destruct (compareNodes x y <=? 0); auto.
  rewrite IH. apply perm_swap.
Qed.

Lemma sort_perm (l : list TreeNode) : Permutation (sort l) l.
Proof.
  induction l as [|x l IH]; simpl; auto.
  rewrite insertNode_perm. now constructor.
Qed.

Lemma sort_In (l : list TreeNode) (n : TreeNode) :
  In n (sort l) <-> In n l.
Proof.
  split; apply Permutation_in; [|symmetry]; apply sort_perm.
Qed.

Lemma compareNodes_before (a b : TreeNode) :
  compareNodes a b <= 0 <-> nodeBefore a b.
Proof.
  unfold compareNodes, nodeBefore.
  destruct (type a), (type b); simpl; split; intros H.
  - now right.
  - destruct H as [[H _] | [_ H]]; [discriminate | exact H].
  - lia.
  - destruct H as [[H _] | [H _]]; discriminate.
  - now left.
  - lia.
  - now right.
  - destruct H as [[_ H] | [_ H]]; [discriminate | exact H].
Qed.

Section Sorted.

Hypothesis total : collationTotal.
Hypothesis transitive : collationTransitive.

Lemma nodeBefore_total (a b : TreeNode) : nodeBefore a b \/ nodeBefore b a.
Proof.
  unfold nodeBefore.
  destruct (type a) eqn:Ea, (type b) eqn:Eb; auto;
    destruct (total (name a) (name b)); auto.
Qed.

Lemma nodeBefore_trans (a b c : TreeNode) :
  nodeBefore a b -> nodeBefore b c -> nodeBefore a c.
Proof.
  unfold nodeBefore.
  intros [[Ha Hb] | [Hab Hn]] [[Hb' Hc] | [Hbc Hn']]; try congruence.
  - left. split; congruence.
  - left. split; congruence.
  - right. split; [congruence|]. eapply transitive; eassumption.
Qed.

Lemma insertNode_sorted (x : TreeNode) (l : list TreeNode) :
  StronglySorted nodeBefore l -> StronglySorted nodeBefore (insertNode x l).
Proof.
  induction 1 as [|y l Hl IH Hy]; simpl.
  - constructor; constructor.
  - destruct (compareNodes x y <=? 0) eqn:E.
    + apply Z.leb_le, compareNodes_before in E.
      constructor; [now constructor|].
      constructor; auto.
      eapply Forall_impl; [|exact Hy].
      intros z Hz. eapply nodeBefore_trans; eassumption.
    + apply Z.leb_gt in E.
      assert (Hyx : nodeBefore y x).
      { destruct (nodeBefore_total x y) as [H|H]; auto.
        apply compareNodes_before in H. lia. }
      constructor; auto.
      eapply Permutation_Forall; [symmetry; apply insertNode_perm|].
      constructor; auto.
Qed.

Lemma sort_sorted (l : list TreeNode) : StronglySorted nodeBefore (sort l).
Proof.
  induction l as [|x l IH]; simpl; [constructor|].
  now apply insertNode_sorted.
Qed.

End Sorted.

End BuilderFacts.

(** ** buildTree: one invocation and its recursion *)

Section BuildTreeFacts.

Context {PM : PathModule} {IP : IgnorePackage} {CO : Collation}.

Variable f : fs.FileSystem.
Variable options : TreeOptions.

Lemma buildTree_lstat_fails (fuel : nat) (p : string)
    (stack : list IgnoreStackItem) :
  fs.lstat f p = None ->
  buildTree (S fuel) f p options stack = Some (leafNode p 0).
Proof.
  intros H. simpl. now rewrite H.
Qed.

Lemma buildTree_symlink (fuel : nat) (p : string)
    (stack : list IgnoreStackItem) (s : fs.Stats) :
  fs.lstat f p = Some s -> fs.isSymbolicLink s = true ->
  buildTree (S fuel) f p options stack = Some (leafNode p 0).
Proof.
  intros H Hs. simpl. now rewrite H, Hs.
Qed.

Lemma buildTree_plain_file (fuel : nat) (p : string)
    (stack : list IgnoreStackItem) (s : fs.Stats) :
  fs.lstat f p = Some s -> fs.isSymbolicLink s = false ->
  fs.isDirectory s = false ->
  buildTree (S fuel) f p options stack = Some (leafNode p (fs.size s)).
Proof.
  intros H Hs Hd. simpl. now rewrite H, Hs, Hd.
Qed.

Lemma buildTree_readdir_fails (fuel : nat) (p : string)
    (stack : list IgnoreStackItem) :
  isDirectoryAt f p -> fs.readdir f p = None ->
  buildTree (S fuel) f p options stack = Some (emptyFolder p).
Proof.
  intros (s & H & Hs & Hd) Hr. simpl. now rewrite H, Hs, Hd, Hr.
Qed.

(** A directory that is listed: truncated when the visible count is
    over [maxLeaf], expanded with the sorted children otherwise; the
    recursive calls receive the stack with this directory's level. *)
Lemma buildTree_listed (fuel : nat) (p : string)
    (stack : list IgnoreStackItem) (items : list string) :
  listedDirectory f p items ->
  buildTree (S fuel) f p options stack =
    let newStack := pushLevel f p options stack in
    let candidates := scanCandidates f newStack p items in
    if overMaxLeaf options (visibleCount candidates)
    then Some (truncatedFolder p)
    else option_map (fun cs => expandedFolder p (sort cs))
           (collectChildren (fun q => buildTree fuel f q options newStack)
                            candidates).
Proof.
  intros ((s & H & Hs & Hd) & Hr). simpl. rewrite H, Hs, Hd, Hr. simpl.
  destruct (overMaxLeaf _ _); [reflexivity|].
  now destruct (collectChildren _ _).
Qed.

Lemma buildTree_shape (fuel : nat) (p : string)
    (stack : list IgnoreStackItem) (t : TreeNode) :
  buildTree (S fuel) f p options stack = Some t ->
  rootShape f options p stack fuel t.
Proof.
  destruct (fs.lstat f p) as [s|] eqn:H.
  - destruct (fs.isSymbolicLink s) eqn:Hs.
    + rewrite (buildTree_symlink _ _ _ _ H Hs). intros [= <-].
      now apply shape_link with s.
    + destruct (fs.isDirectory s) eqn:Hd.
      * assert (Hdir : isDirectoryAt f p) by (exists s; auto).
        destruct (fs.readdir f p) as [items|] eqn:Hr.
        -- assert (Hl : listedDirectory f p items) by (split; auto).
           rewrite (buildTree_listed _ _ _ _ Hl). cbv zeta.
           destruct (overMaxLeaf _ _) eqn:Ho.
           ++ intros [= <-]. now apply shape_truncated with items.
           ++ destruct (collectChildren _ _) as [cs|] eqn:Hc;
                [|discriminate].
              intros [= <-]. now apply shape_expanded with items.
        -- rewrite (buildTree_readdir_fails _ _ _ Hdir Hr). intros [= <-].
           now constructor.
      * rewrite (buildTree_plain_file _ _ _ _ H Hs Hd). intros [= <-].
        now apply shape_file.
  - rewrite (buildTree_lstat_fails _ _ _ H). intros [= <-].
    now constructor.
Qed.

Lemma buildTree_path (fuel : nat) (p : string)
    (stack : list IgnoreStackItem) (t : TreeNode) :
  buildTree fuel f p options stack = Some t ->
  path t = p /\ name t = basename p.
Proof.
  destruct fuel as [|fuel]; [discriminate|].
  intros H. apply buildTree_shape in H. destruct H; auto.
Qed.

(** An invocation never returns a node marked [gitignore]: that
    marker is only put on the stubs of the children loop. *)
Lemma buildTree_never_gitignore (fuel : nat) (p : string)
    (stack : list IgnoreStackItem) (t : TreeNode) :
  buildTree fuel f p options stack = Some t ->
  skipped t <> Some skipped_gitignore.
Proof.
  destruct fuel as [|fuel]; [discriminate|].
  intros H. apply buildTree_shape in H. destruct H; discriminate.
Qed.

(** More fuel does not change a result. *)
Lemma buildTree_more_fuel (fuel : nat) :
  forall p stack t,
    buildTree fuel f p options stack = Some t ->
    buildTree (S fuel) f p options stack = Some t.
Proof.
  induction fuel as [|fuel IH]; intros p stack t; [discriminate|].
  intros H. pose proof (buildTree_shape _ _ _ _ H) as Hshape.
  destruct Hshape as [Hl | s Hl Hs | s Hl Hs Hd | Hdir Hr
                      | items Hli Ho | items cs Hli Ho Hc].
  - now apply buildTree_lstat_fails.
  - now apply buildTree_symlink with s.
  - now apply buildTree_plain_file.
  - now apply buildTree_readdir_fails.
  - rewrite (buildTree_listed _ _ _ _ Hli). cbv zeta. now rewrite Ho.
  - rewrite (buildTree_listed _ _ _ _ Hli). cbv zeta. rewrite Ho.
    erewrite collectChildren_mono; [reflexivity | | exact Hc].
    intros q n. apply IH.
Qed.

Lemma buildTree_fuel_irrelevant (fuel fuel' : nat) (p : string)
    (stack : list IgnoreStackItem) (t : TreeNode) :
  buildTree fuel f p options stack = Some t -> (fuel <= fuel')%nat ->
  buildTree fuel' f p options stack = Some t.
Proof.
  intros H. induction 1 as [|m _ IH]; auto.
  now apply buildTree_more_fuel.
Qed.

(** Every entry of [candidates] is an entry of the listing that
    [lstat] reports and that is not a link. *)
Lemma candidate_listed (stack : list IgnoreStackItem) (p : string)
    (items : list string) (c : Candidate) :
  In c (scanCandidates f stack p items) ->
  exists item,
    In item items /\ cand_name c = item /\ cand_path c = join p item /\
    fs.lstat f (cand_path c) = Some (cand_stats c) /\
    fs.isSymbolicLink (cand_stats c) = false /\
    isIgnored c =
      checkIgnored stack (cand_path c) (fs.isDirectory (cand_stats c)).
Proof.
  intros H. apply scanCandidates_In in H.
  destruct H as (item & s & Hin & Hl & Hs & ->). simpl.
  exists item. auto 8.
Qed.

(** Termination: with the directories nested at most [n] deep, fuel
    [n] is enough. *)
Lemma buildTree_returns (n : nat) :
  forall p stack,
    depthWithin n f p = true ->
    exists t, buildTree n f p options stack = Some t.
Proof.
  induction n as [|n IH]; intros p stack Hd; [discriminate|].
  destruct (fs.lstat f p) as [s|] eqn:H.
  - destruct (fs.isSymbolicLink s) eqn:Hs.
    + eexists. now apply buildTree_symlink with s.
    + destruct (fs.isDirectory s) eqn:Hdir.
      * assert (Hat : isDirectoryAt f p) by (exists s; auto).
        destruct (fs.readdir f p) as [items|] eqn:Hr.
        -- assert (Hl : listedDirectory f p items) by (split; auto).
           rewrite (buildTree_listed _ _ _ _ Hl). cbv zeta.
           destruct (overMaxLeaf _ _); [eauto|].
           simpl in Hd. rewrite Hr in Hd. rewrite forallb_forall in Hd.
           destruct (collectChildren_returns
                       (fun q => buildTree n f q options
                                   (pushLevel f p options stack))
                       (scanCandidates f (pushLevel f p options stack)
                          p items)) as (cs & ->); [|simpl; eauto].
           intros c Hc _ _.
           apply candidate_listed in Hc.
           destruct Hc as (item & Hin & _ & -> & _).
           apply IH. now apply Hd.
        -- eexists. now apply buildTree_readdir_fails.
      * eexists. eapply buildTree_plain_file; eassumption.
  - eexists. now apply buildTree_lstat_fails.
Qed.

End BuildTreeFacts.

(** ** buildTree: the nodes of the result *)

Section TreeNodes.

Context {PM : PathModule} {IP : IgnorePackage} {CO : Collation}.

Variable f : fs.FileSystem.
Variable options : TreeOptions.

Lemma subnodes_root (n : TreeNode) : subnodes n = n :: descendants n.
Proof.
  destruct n as [nm p ty [cs|] sk st]; reflexivity.
Qed.

Lemma below_trans (p q r : string) :
  below f p q -> below f q r -> below f p r.
Proof.
  intros Hpq Hqr. induction Hqr; auto.
  eapply below_entry; eassumption.
Qed.

Lemma stackAt_basePaths (names : list string) :
  forall p stack,
    map basePath (stackAt f options stack p names) =
    (map basePath stack ++ dirsAlong p names)%list.
Proof.
  induction names as [|a rest IH]; intros p stack; simpl.
  - now rewrite app_nil_r.
  - rewrite IH. unfold pushLevel. rewrite map_app. simpl.
    now rewrite <- app_assoc.
Qed.

(** A node below the root was pushed by the children loop of some
    directory at or below the root's, reached through listed entries,
    and scanned with the stack accumulated on the way. *)
Lemma descendant_origin (fuel : nat) :
  forall p stack t n,
    buildTree fuel f p options stack = Some t ->
    In n (descendants t) ->
    exists names items c fuel',
      let q := descend p names in
      let stk := pushLevel f q options (stackAt f options stack p names) in
      below f p q /\ listedDirectory f q items /\
      In c (scanCandidates f stk q items) /\
      childOf (fun r => buildTree fuel' f r options stk) c n.
Proof.
  induction fuel as [|fuel IH]; intros p stack t n; [discriminate|].
  intros H Hn. apply buildTree_shape in H.
  destruct H as [Hl | s Hl Hs | s Hl Hs Hd | Hdir Hr
                 | items Hli Ho | items cs Hli Ho Hc];
    try contradiction.
  unfold descendants in Hn. simpl in Hn.
  apply in_flat_map in Hn. destruct Hn as (c' & Hc' & Hn).
  apply (proj1 (sort_In _ _)) in Hc'.
  apply (proj1 (collectChildren_In _ _ _ Hc _)) in Hc'.
  destruct Hc' as (c & Hin & Hchild).
  rewrite subnodes_root in Hn. destruct Hn as [<- | Hn].
  - exists [], items, c, fuel. simpl. split; [constructor | auto].
  - destruct Hchild as [Hi Hd | n' Hi Hd Hrec | Hi Hd];
      try contradiction.
    destruct (IH _ _ _ _ Hrec Hn)
      as (names & items' & c0 & fuel' & Hb & Hq & Hc0 & Hch).
    apply candidate_listed in Hin.
    destruct Hin as (item & Hitem & _ & Hcp & _).
    rewrite Hcp in Hb, Hq, Hc0, Hch.
    exists (item :: names), items', c0, fuel'. simpl.
    repeat split; auto; try apply Hq.
    apply below_trans with (join p item); auto.
    destruct Hli as [_ Hr].
    eapply below_entry; [constructor | eassumption | assumption].
Qed.

(** Every node of the result is the stub of an ignored directory, the
    node of a visible file, or the result of an invocation. *)
Lemma subnode_kinds (fuel : nat) (p : string)
    (stack : list IgnoreStackItem) (t n : TreeNode) :
  buildTree fuel f p options stack = Some t ->
  In n (subnodes t) ->
  (exists c, n = ignoredFolder c) \/ (exists c, n = fileNode c) \/
  (exists fuel' q stk, buildTree (S fuel') f q options stk = Some n).
Proof.
  intros H Hn. rewrite subnodes_root in Hn. destruct Hn as [<- | Hn].
  - right; right. destruct fuel as [|fuel]; [discriminate|]. eauto.
  - destruct (descendant_origin _ _ _ _ _ H Hn)
      as (names & items & c & fuel' & _ & _ & _ & Hch).
    destruct Hch as [Hi Hd | n' Hi Hd Hrec | Hi Hd]; eauto.
    right; right. destruct fuel' as [|fuel']; [discriminate|]. eauto.
Qed.

(** The path of a node below the root is the path of a listed entry
    that [lstat] reports and that is not a link. *)
Lemma descendant_entry (fuel : nat) (p : string)
    (stack : list IgnoreStackItem) (t n : TreeNode) :
  buildTree fuel f p options stack = Some t ->
  In n (descendants t) ->
  exists q items a s,
    below f p q /\ fs.readdir f q = Some items /\ In a items /\
    path n = join q a /\ fs.lstat f (path n) = Some s /\
    fs.isSymbolicLink s = false.
Proof.
  intros H Hn.
  destruct (descendant_origin _ _ _ _ _ H Hn)
    as (names & items & c & fuel' & Hb & [_ Hr] & Hc & Hch).
  apply candidate_listed in Hc.
  destruct Hc as (item & Hin & _ & Hp & Hl & Hs & _).
  assert (Hpath : path n = cand_path c).
  { destruct Hch as [Hi Hd | n' Hi Hd Hrec | Hi Hd]; auto.
    now apply buildTree_path in Hrec. }
  exists (descend p names), items, item, (cand_stats c).
  rewrite Hpath. auto 8.
Qed.

Lemma below_length (p q : string) :
  listedPathsNest f -> below f p q ->
  (String.length p <= String.length q)%nat.
Proof.
  intros Hnest. induction 1 as [|q items a Hb IH Hr Hin]; auto.
  destruct (Hnest q q items items a a Hr Hin Hr Hin) as [Hlt _]. lia.
Qed.

End TreeNodes.

(** * Properties of buildTree *)

(** ** The ignore-rule stack *)

Section WholeRun.

Context {PM : PathModule} {IP : IgnorePackage} {CO : Collation}.

(** In a run started with the empty stack, a node below the root stands
    for an entry of some directory [q] reached from the root; the stack
    in use there holds one level for each directory from the root down
    to [q], and the node is marked [gitignore] exactly when one of
    these levels excludes its path. *)
Lemma marked_iff_some_level_excludes (f : fs.FileSystem)
    (options : TreeOptions) (root : string) (fuel : nat) (t n : TreeNode) :
  buildTree fuel f root options [] = Some t ->
  In n (descendants t) ->
  exists names items a s,
    let q := descend root names in
    let stk := pushLevel f q options (stackAt f options [] root names) in
    fs.readdir f q = Some items /\ In a items /\ path n = join q a /\
    fs.lstat f (path n) = Some s /\
    map basePath stk = (dirsAlong root names ++ [q])%list /\
    (skipped n = Some skipped_gitignore <->
     exists lvl, In lvl stk /\ excludes lvl (path n) (fs.isDirectory s)).
Proof.
  intros Ht Hn.
  destruct (descendant_origin f options _ _ _ _ _ Ht Hn)
    as (names & items & c & fuel' & _ & [_ Hr] & Hc & Hch).
  pose proof Hc as Hc0. apply candidate_listed in Hc0.
  destruct Hc0 as (a & Ha & _ & Hcp & Hl & _ & Hi).
  assert (Hpath : path n = cand_path c).
  { destruct Hch as [? ? | n' ? ? Hrec | ? ?]; auto.
    now apply buildTree_path in Hrec. }
  exists names, items, a, (cand_stats c). cbv zeta.
  rewrite Hpath. repeat split; auto.
  - unfold pushLevel at 1. rewrite map_app, stackAt_basePaths. reflexivity.
  - intros Hsk. apply checkIgnored_iff. rewrite <- Hi.
    destruct Hch as [? ? | n' ? ? Hrec | ? ?]; auto.
    + apply buildTree_never_gitignore in Hrec. contradiction.
    + discriminate.
  - intros Hex. apply checkIgnored_iff in Hex. rewrite <- Hi in Hex.
    destruct Hch as [? ? | n' ? ? Hrec | ? ?]; auto; congruence.
Qed.

End WholeRun.

(** C1. While a directory is scanned, an entry is marked ignored exactly
    when some level of the stack in use (the levels received from the
    directories above, then the level of the directory itself) excludes
    the entry's path taken relative to that level's directory.  The
    loop stops at the first level that excludes: once a prefix of the
    stack has excluded a path, no later level brings it back.  The same
    stack is handed to the recursive call of every visible
    sub-directory, so that in a whole run the stack in use at a
    directory holds one level for each directory from the scan root
    down to it, and a node of the tree is marked [gitignore] exactly
    when one of them excludes its path.  With [src/ignore.txt] in the
    root's ignore file, the file [src/ignore.txt] is left out of the
    tree and the file [ignore.txt] at the root stays. *)
Theorem buildTree_cascading_ignore :
  (forall (PM : PathModule) (IP : IgnorePackage) (f : fs.FileSystem)
          (options : TreeOptions) (stack : list IgnoreStackItem)
          (p : string) (items : list string) (c : Candidate),
     In c (scanCandidates f (pushLevel f p options stack) p items) ->
     (isIgnored c = true <->
      exists lvl,
        In lvl (stack ++ [{| ignorer := currentIgnore f p options stack;
                             basePath := p |}]) /\
        excludes lvl (cand_path c) (fs.isDirectory (cand_stats c)))) /\
  (forall (PM : PathModule) (IP : IgnorePackage)
          (pre post : list IgnoreStackItem) (itemPath : string)
          (isDir : bool),
     checkIgnored pre itemPath isDir = true ->
     checkIgnored (pre ++ post) itemPath isDir = true) /\
  (forall (PM : PathModule) (IP : IgnorePackage) (CO : Collation)
          (f : fs.FileSystem) (options : TreeOptions)
          (stack : list IgnoreStackItem) (p : string) (items : list string)
          (fuel : nat),
     listedDirectory f p items ->
     let newStack := pushLevel f p options stack in
     let candidates := scanCandidates f newStack p items in
     overMaxLeaf options (visibleCount candidates) = false ->
     buildTree (S fuel) f p options stack =
       option_map (fun cs => expandedFolder p (sort cs))
         (collectChildren (fun q => buildTree fuel f q options newStack)
                          candidates)) /\
  (forall (PM : PathModule) (IP : IgnorePackage) (CO : Collation)
          (f : fs.FileSystem) (options : TreeOptions) (root : string)
          (fuel : nat) (t n : TreeNode),
     buildTree fuel f root options [] = Some t ->
     In n (descendants t) ->
     exists names items a s,
       let q := descend root names in
       let stk := pushLevel f q options (stackAt f options [] root names) in
       fs.readdir f q = Some items /\ In a items /\ path n = join q a /\
       fs.lstat f (path n) = Some s /\
       map basePath stk = (dirsAlong root names ++ [q])%list /\
       (skipped n = Some skipped_gitignore <->
        exists lvl, In lvl stk /\ excludes lvl (path n) (fs.isDirectory s))) /\
  Example.build 3 Example.pathSpecific "/r" Example.noOptions =
    Some Example.pathSpecificTree.
Proof.
  split; [|split; [|split; [|split]]].
  - intros PM IP f options stack p items c H.
    apply candidate_listed in H.
    destruct H as (item & _ & _ & _ & _ & _ & Hi).
    rewrite Hi. apply checkIgnored_iff.
  - intros PM IP pre post itemPath isDir. apply checkIgnored_prefix.
  - intros PM IP CO f options stack p items fuel Hl newStack candidates Ho.
    rewrite (buildTree_listed _ _ _ _ _ _ Hl). cbv zeta.
    fold newStack. fold candidates. now rewrite Ho.
  - intros PM IP CO f options root fuel t n.
    apply marked_iff_some_level_excludes.
  - reflexivity.
Qed.

Lemma buildTree_cascading_ignore_witness :
  let rootStack := pushLevel Example.pathSpecific "/r" Example.noOptions [] in
  let c := {| cand_name := "ignore.txt"; cand_path := "/r/src/ignore.txt";
              isIgnored := true; cand_stats := Example.regular false 7 |} in
  (isIgnored c = true <->
   exists lvl,
     In lvl (rootStack ++
             [{| ignorer := currentIgnore Example.pathSpecific "/r/src"
                              Example.noOptions rootStack;
                 basePath := "/r/src" |}]) /\
     excludes lvl (cand_path c) (fs.isDirectory (cand_stats c))) /\
  checkIgnored (rootStack ++ [{| ignorer := ignore; basePath := "/r/src" |}])
    "/r/src/ignore.txt" false = true /\
  Example.build 3 Example.pathSpecific "/r" Example.noOptions =
    option_map (fun cs => expandedFolder "/r" (sort cs))
      (collectChildren
         (fun q => buildTree 2 Example.pathSpecific q Example.noOptions
                     rootStack)
         (scanCandidates Example.pathSpecific rootStack "/r"
            [".gitignore"; "ignore.txt"; "src"])) /\
  (exists names items a s,
     let q := descend "/r" names in
     let stk := pushLevel Example.ignoredEntries q Example.noOptions
                  (stackAt Example.ignoredEntries Example.noOptions []
                     "/r" names) in
     fs.readdir Example.ignoredEntries q = Some items /\ In a items /\
     "/r/node_modules" = join q a /\
     fs.lstat Example.ignoredEntries "/r/node_modules" = Some s /\
     map basePath stk = (dirsAlong "/r" names ++ [q])%list /\
     (Some skipped_gitignore = Some skipped_gitignore <->
      exists lvl, In lvl stk /\
                  excludes lvl "/r/node_modules" (fs.isDirectory s))).
Proof.
  intros rootStack c.
  destruct buildTree_cascading_ignore as (Hiff & Hprefix & Hrec & Hrun & _).
  split; [|split; [|split]].
  - apply (Hiff Posix.pathModule Literal.ignorePackage Example.pathSpecific
             Example.noOptions rootStack "/r/src" ["ignore.txt"; "keep.txt"]).
    left. reflexivity.
  - apply Hprefix. reflexivity.
  - apply (Hrec Posix.pathModule Literal.ignorePackage CodeUnits.collation
             Example.pathSpecific Example.noOptions [] "/r"
             [".gitignore"; "ignore.txt"; "src"] 2%nat).
    + split; [|reflexivity].
      exists (Example.regular true 4096). repeat split.
    + reflexivity.
  - apply (Hrun Posix.pathModule Literal.ignorePackage CodeUnits.collation
             Example.ignoredEntries Example.noOptions "/r" 3%nat
             (Example.dir "r" "/r"
                [Example.stub "node_modules" "/r/node_modules"
                   skipped_gitignore;
                 Example.leaf ".gitignore" "/r/.gitignore" 24;
                 Example.leaf "included.txt" "/r/included.txt" 7])
             (Example.stub "node_modules" "/r/node_modules"
                skipped_gitignore)).
    + reflexivity.
    + simpl. auto.
Defined.

(** ** The maxLeaf threshold *)

Section Threshold.

Context {PM : PathModule} {IP : IgnorePackage} {CO : Collation}.

Lemma overMaxLeaf_spec (options : TreeOptions) (visible m : Z) :
  maxLeaf options = Some m ->
  overMaxLeaf options visible = true <-> (m <> 0 /\ visible > m).
Proof.
  unfold overMaxLeaf. intros ->.
  rewrite andb_true_iff, negb_true_iff, Z.eqb_neq, Z.gtb_lt. lia.
Qed.

(** The visible count is the number of listed entries that [lstat]
    reports, that are not links and that no level ignores. *)
Lemma visibleCount_entries (f : fs.FileSystem) (stack : list IgnoreStackItem)
    (p : string) (items : list string) :
  visibleCount (scanCandidates f stack p items) =
  Z.of_nat (length (filter (isVisibleEntry f stack p) items)).
Proof.
  unfold visibleCount. f_equal.
  induction items as [|item rest IH]; cbn [scanCandidates filter]; auto.
  unfold isVisibleEntry at 1.
  destruct (fs.lstat f (join p item)) as [s|]; auto.
  destruct (fs.isSymbolicLink s); cbn [negb andb]; auto.
  cbn [filter isIgnored].
  destruct (checkIgnored stack (join p item) (fs.isDirectory s));
    cbn [negb length]; auto.
Qed.

(** Every visible candidate has its node among the collected children. *)
Lemma collectChildren_visible (recur : string -> option TreeNode)
    (candidates : list Candidate) (cs : list TreeNode) (c : Candidate) :
  (forall q n, recur q = Some n -> path n = q) ->
  collectChildren recur candidates = Some cs ->
  In c candidates -> isIgnored c = false ->
  exists n, In n cs /\ path n = cand_path c.
Proof.
  intros Hpath. revert cs.
  induction candidates as [|c0 rest IH]; simpl; intros cs Hcs Hin Hv;
    [contradiction|].
  destruct Hin as [-> | Hin].
  - rewrite Hv in Hcs.
    destruct (fs.isDirectory (cand_stats c)).
    + destruct (recur (cand_path c)) as [n|] eqn:Hr; [|discriminate].
      destruct (collectChildren recur rest) as [cs'|]; [|discriminate].
      simpl in Hcs. injection Hcs as <-.
      exists n. split; [now left | now apply Hpath].
    + destruct (collectChildren recur rest) as [cs'|]; [|discriminate].
      simpl in Hcs. injection Hcs as <-.
      exists (fileNode c). split; [now left | reflexivity].
  - assert (Hrest : exists cs', collectChildren recur rest = Some cs' /\
                                incl cs' cs).
    { destruct (isIgnored c0), (fs.isDirectory (cand_stats c0));
        try destruct (recur (cand_path c0));
        try destruct (collectChildren recur rest) as [cs'|];
        try discriminate; simpl in Hcs; injection Hcs as <-;
        eexists; (split; [reflexivity|]);
        auto using incl_refl, incl_tl. }
    destruct Hrest as (cs' & Hcs' & Hincl).
    destruct (IH cs' Hcs' Hin Hv) as (n & Hn & Hp).
    exists n. auto.
Qed.

End Threshold.

(** C2. For every directory that [buildTree] lists, with [maxLeaf] set
    (a number; the test [options.maxLeaf && ...] takes 0 for unset):
    when the visible entries (reported by [lstat], not links, not
    ignored) are more than [maxLeaf], the result is the folder node
    marked [size], without a [children] field, whatever fuel is left
    for recursion (none is used).  When the visible count is at most
    [maxLeaf], the result is the folder with the sorted collected
    children and no marker, and every visible candidate has its node
    among them.  The count compared is the visible one: with three of
    five files ignored and [maxLeaf] 3 the directory is expanded, with
    none ignored it is truncated. *)
Theorem buildTree_maxLeaf_truncates :
  (forall (PM : PathModule) (IP : IgnorePackage) (CO : Collation)
          (f : fs.FileSystem) (options : TreeOptions)
          (stack : list IgnoreStackItem) (p : string) (items : list string)
          (m : Z) (fuel : nat),
     listedDirectory f p items ->
     maxLeaf options = Some m ->
     let newStack := pushLevel f p options stack in
     let candidates := scanCandidates f newStack p items in
     visibleCount candidates =
       Z.of_nat (length (filter (isVisibleEntry f newStack p) items)) /\
     (m <> 0 -> visibleCount candidates > m ->
      buildTree (S fuel) f p options stack =
        Some {| name := basename p; path := p; type := folder;
                children := None; skipped := Some skipped_size;
                stats := None |}) /\
     (visibleCount candidates <= m ->
      buildTree (S fuel) f p options stack =
        option_map (fun cs => expandedFolder p (sort cs))
          (collectChildren (fun q => buildTree fuel f q options newStack)
                           candidates) /\
      forall t, buildTree (S fuel) f p options stack = Some t ->
        skipped t = None /\
        exists cs, children t = Some cs /\
          forall c, In c candidates -> isIgnored c = false ->
            exists n, In n cs /\ path n = cand_path c)) /\
  Example.build 2 Example.largeDir "/r" (Example.withMaxLeaf 3) =
    Some (Example.dir "r" "/r"
            [Example.stub "large-dir" "/r/large-dir" skipped_size]) /\
  Example.build 2 Example.largeDir "/r" (Example.ignoringThree 3) =
    Some (Example.dir "r" "/r"
            [Example.dir "large-dir" "/r/large-dir"
               [Example.leaf "file3.txt" "/r/large-dir/file3.txt" 7;
                Example.leaf "file4.txt" "/r/large-dir/file4.txt" 7]]).
Proof.
  split; [|split; reflexivity].
  intros PM IP CO f options stack p items m fuel Hl Hm newStack candidates.
  pose proof (buildTree_listed f options fuel p stack items Hl) as Hb.
  cbv zeta in Hb. fold newStack in Hb. fold candidates in Hb.
  split; [apply visibleCount_entries|]. split.
  - intros Hm0 Hgt. rewrite Hb.
    now rewrite (proj2 (overMaxLeaf_spec options _ m Hm)).
  - intros Hle.
    assert (Ho : overMaxLeaf options (visibleCount candidates) = false).
    { destruct (overMaxLeaf options (visibleCount candidates)) eqn:E; auto.
      apply (overMaxLeaf_spec options _ m Hm) in E. lia. }
    rewrite Hb, Ho. split; [reflexivity|].
    intros t Ht.
    destruct (collectChildren _ candidates) as [cs|] eqn:Hc; [|discriminate].
    simpl in Ht. injection Ht as <-. split; [reflexivity|].
    exists (sort cs). split; [reflexivity|].
    intros c Hin Hv.
    destruct (collectChildren_visible _ _ _ c
                (fun q n H => proj1 (buildTree_path f options fuel q newStack n H))
                Hc Hin Hv) as (n & Hn & Hp).
    exists n. split; [now apply sort_In | exact Hp].
Qed.

Lemma buildTree_maxLeaf_truncates_witness :
  Example.build 1 Example.largeDir "/r/large-dir" (Example.withMaxLeaf 3) =
    Some (truncatedFolder "/r/large-dir") /\
  (Example.build 1 Example.largeDir "/r/large-dir" (Example.withMaxLeaf 5) =
     option_map (fun cs => expandedFolder "/r/large-dir" (sort cs))
       (collectChildren
          (fun q => buildTree 0 Example.largeDir q (Example.withMaxLeaf 5)
                      (pushLevel Example.largeDir "/r/large-dir"
                         (Example.withMaxLeaf 5) []))
          (scanCandidates Example.largeDir
             (pushLevel Example.largeDir "/r/large-dir"
                (Example.withMaxLeaf 5) [])
             "/r/large-dir"
             ["file0.txt"; "file1.txt"; "file2.txt"; "file3.txt";
              "file4.txt"]))).
Proof.
  assert (Hl : listedDirectory Example.largeDir "/r/large-dir"
                 ["file0.txt"; "file1.txt"; "file2.txt"; "file3.txt";
                  "file4.txt"]).
  { split; [|reflexivity]. exists (Example.regular true 4096). repeat split. }
  split.
  - apply (proj1 (proj2 (proj1 buildTree_maxLeaf_truncates _ _ _
                    Example.largeDir (Example.withMaxLeaf 3) []
                    "/r/large-dir" _ 3 0%nat Hl eq_refl))).
    + discriminate.
    + reflexivity.
  - apply (proj2 (proj2 (proj1 buildTree_maxLeaf_truncates _ _ _
                    Example.largeDir (Example.withMaxLeaf 5) []
                    "/r/large-dir" _ 5 0%nat Hl eq_refl))).
    discriminate.
Defined.

(** ** Ignored entries *)

Section IgnoredEntries.

Context {PM : PathModule} {IP : IgnorePackage} {CO : Collation}.

Variable f : fs.FileSystem.
Variable options : TreeOptions.

(** The children of a listed directory that came back with the field
    [children]: they are the collected ones, sorted. *)
Lemma listed_children (fuel : nat) (p : string)
    (stack : list IgnoreStackItem) (items : list string)
    (t : TreeNode) (cs : list TreeNode) :
  listedDirectory f p items ->
  buildTree (S fuel) f p options stack = Some t ->
  children t = Some cs ->
  exists collected,
    collectChildren
      (fun q => buildTree fuel f q options (pushLevel f p options stack))
      (scanCandidates f (pushLevel f p options stack) p items)
      = Some collected /\
    cs = sort collected.
Proof.
  intros Hl Ht Hcs.
  rewrite (buildTree_listed f options fuel p stack items Hl) in Ht.
  cbv zeta in Ht.
  destruct (overMaxLeaf _ _).
  - injection Ht as <-. discriminate.
  - destruct (collectChildren _ _) as [collected|]; [|discriminate].
    simpl in Ht. injection Ht as <-. simpl in Hcs. injection Hcs as <-.
    eauto.
Qed.

(** A candidate at the path of an ignored entry is that entry: same
    stats, same verdict. *)
Lemma candidate_at_ignored_path (stack : list IgnoreStackItem) (p : string)
    (items : list string) (c : Candidate) (q : string) (s : fs.Stats) :
  In c (scanCandidates f stack p items) ->
  cand_path c = q -> fs.lstat f q = Some s ->
  checkIgnored stack q (fs.isDirectory s) = true ->
  cand_stats c = s /\ isIgnored c = true.
Proof.
  intros Hc Hq Hs Hi. apply candidate_listed in Hc.
  destruct Hc as (item & _ & _ & _ & Hl & _ & Hig).
  rewrite Hq, Hs in Hl. injection Hl as Hl.
  rewrite Hig, Hq, <- Hl. auto.
Qed.

(** Below a child built at [q], every path is the path of an entry of a
    directory at or below [q]. *)
Lemma deep_node_not_sibling (fuel : nat) (p q : string)
    (stack : list IgnoreStackItem) (items : list string) (a b : string)
    (t n : TreeNode) :
  listedPathsNest f ->
  fs.readdir f p = Some items -> In a items -> In b items ->
  buildTree fuel f (join p b) options stack = Some t ->
  In n (descendants t) ->
  path n <> join p a.
Proof.
  intros Hnest Hr Ha Hb Ht Hn E.
  destruct (descendant_entry f options fuel _ _ _ _ Ht Hn)
    as (q' & items' & x & s & Hbelow & Hr' & Hx & Hp & _).
  rewrite Hp in E.
  destruct (Hnest q' p items' items x a Hr' Hx Hr Ha) as [_ Hinj].
  specialize (Hinj E). subst q'.
  apply (below_length f _ _ Hnest) in Hbelow.
  destruct (Hnest p p items items b b Hr Hb Hr Hb) as [Hlt _]. lia.
Qed.

(** A child that stands at the path of an ignored entry is the stub of
    an ignored directory. *)
Lemma ignored_entry_child (fuel : nat) (p : string)
    (stack : list IgnoreStackItem) (items : list string) (a : string)
    (s : fs.Stats) (collected : list TreeNode) (n : TreeNode) :
  fs.lstat f (join p a) = Some s ->
  checkIgnored (pushLevel f p options stack) (join p a) (fs.isDirectory s)
    = true ->
  collectChildren
    (fun q => buildTree fuel f q options (pushLevel f p options stack))
    (scanCandidates f (pushLevel f p options stack) p items)
    = Some collected ->
  In n collected -> path n = join p a ->
  fs.isDirectory s = true /\ type n = folder /\
  skipped n = Some skipped_gitignore /\ children n = None.
Proof.
  intros Hs Hi Hcoll Hn Hp.
  apply (proj1 (collectChildren_In _ _ _ Hcoll _)) in Hn.
  destruct Hn as (c & Hc & Hchild).
  assert (Hcp : cand_path c = join p a).
  { destruct Hchild as [? ? | n' ? ? Hrec | ? ?]; auto.
    apply buildTree_path in Hrec. destruct Hrec as [<- _]. auto. }
  destruct (candidate_at_ignored_path _ _ _ _ _ _ Hc Hcp Hs Hi)
    as [Hst Hig].
  destruct Hchild as [_ Hd | n' Hv _ _ | Hv _]; try congruence.
  rewrite Hst in Hd. auto.
Qed.

Lemma ignored_entry_nodes (fuel : nat) (p : string)
    (stack : list IgnoreStackItem) (items : list string) (a : string)
    (s : fs.Stats) (t n : TreeNode) :
  listedPathsNest f ->
  listedDirectory f p items -> In a items ->
  fs.lstat f (join p a) = Some s ->
  checkIgnored (pushLevel f p options stack) (join p a) (fs.isDirectory s)
    = true ->
  buildTree fuel f p options stack = Some t ->
  In n (subnodes t) -> path n = join p a ->
  fs.isDirectory s = true /\ type n = folder /\
  skipped n = Some skipped_gitignore /\ children n = None.
Proof.
  intros Hnest Hl Ha Hs Hi Ht Hn Hp.
  destruct fuel as [|fuel]; [discriminate|].
  rewrite subnodes_root in Hn. destruct Hn as [<- | Hn].
  - exfalso. apply buildTree_path in Ht. destruct Ht as [Hpt _].
    destruct Hl as [_ Hr].
    destruct (Hnest p p items items a a Hr Ha Hr Ha) as [Hlt _].
    rewrite Hp in Hpt. rewrite Hpt in Hlt. lia.
  - unfold descendants in Hn.
    destruct (children t) as [cs|] eqn:Hcs; [|contradiction].
    destruct (listed_children _ _ _ _ _ _ Hl Ht Hcs)
      as (collected & Hcoll & ->).
    apply in_flat_map in Hn. destruct Hn as (c' & Hc' & Hn).
    apply (proj1 (sort_In _ _)) in Hc'.
    rewrite subnodes_root in Hn. destruct Hn as [<- | Hn].
    + eapply ignored_entry_child; eassumption.
    + exfalso.
      apply (proj1 (collectChildren_In _ _ _ Hcoll _)) in Hc'.
      destruct Hc' as (c & Hc & Hchild).
      destruct Hchild as [? ? | n' _ _ Hrec | ? ?]; try contradiction.
      pose proof Hc as Hc0. apply candidate_listed in Hc0.
      destruct Hc0 as (b & Hb & _ & Hcp & _).
      rewrite Hcp in Hrec. destruct Hl as [_ Hr].
      exact (deep_node_not_sibling _ _ p _ _ _ _ _ _ Hnest Hr Ha Hb Hrec Hn Hp).
Qed.

End IgnoredEntries.

Ltac split_lookup :=
  repeat match goal with
  | H : context [String.eqb ?x ?y] |- _ =>
      destruct (String.eqb_spec x y); [subst x|]
  end.

Ltac listed_entries H Hin :=
  cbn [fs.readdir Example.observe Example.lookup] in H;
  split_lookup; try discriminate H;
  injection H as <-; simpl in Hin;
  repeat (destruct Hin as [<- | Hin]); try contradiction.

Ltac paths_nest table :=
  let p := fresh "p" in let q := fresh "q" in
  let Hp := fresh "Hp" in let Hq := fresh "Hq" in
  let Ha := fresh "Ha" in let Hb := fresh "Hb" in
  let E := fresh "E" in
  intros p q ? ? ? ? Hp Ha Hq Hb;
  unfold table in Hp, Hq;
  listed_entries Hp Ha; listed_entries Hq Hb;
  (split; [simpl; lia | intros E; first [reflexivity | discriminate E]]).

(** The children loop calls the builder on the candidates that are
    directories and not ignored, and on no other: two recursive calls
    that agree on these give the same children. *)
Lemma collectChildren_calls {PM : PathModule} {IP : IgnorePackage}
    (r1 r2 : string -> option TreeNode) (candidates : list Candidate) :
  (forall c, In c candidates -> isIgnored c = false ->
             fs.isDirectory (cand_stats c) = true ->
             r1 (cand_path c) = r2 (cand_path c)) ->
  collectChildren r1 candidates = collectChildren r2 candidates.
Proof.
  induction candidates as [|c rest IH]; intros H; [reflexivity|].
  cbn [collectChildren].
  rewrite IH by (intros c' Hin; apply H; now right).
  destruct (isIgnored c) eqn:Ei, (fs.isDirectory (cand_stats c)) eqn:Ed;
    try reflexivity.
  now rewrite (H c (or_introl eq_refl) Ei Ed).
Qed.

(** A children loop that comes to its end got an answer from every
    call it made. *)
Lemma collectChildren_answers {PM : PathModule} {IP : IgnorePackage}
    (recur : string -> option TreeNode) (candidates : list Candidate)
    (cs : list TreeNode) (c : Candidate) :
  collectChildren recur candidates = Some cs ->
  In c candidates -> isIgnored c = false ->
  fs.isDirectory (cand_stats c) = true ->
  exists n, recur (cand_path c) = Some n.
Proof.
  revert cs. induction candidates as [|c' rest IH]; intros cs Hcs Hin Hig Hd;
    [contradiction|].
  cbn [collectChildren] in Hcs.
  assert (Hrest : forall cs', collectChildren recur rest = Some cs' ->
                    In c rest -> exists n, recur (cand_path c) = Some n)
    by (intros cs' H' Hin'; exact (IH cs' H' Hin' Hig Hd)).
  destruct Hin as [-> | Hin].
  - rewrite Hig, Hd in Hcs.
    destruct (recur (cand_path c)) as [n|]; [eauto | discriminate].
  - destruct (isIgnored c'), (fs.isDirectory (cand_stats c')).
    + destruct (collectChildren recur rest) as [cs'|]; [eauto | discriminate].
    + eauto.
    + destruct (recur (cand_path c')); [|discriminate].
      destruct (collectChildren recur rest) as [cs'|]; [eauto | discriminate].
    + destruct (collectChildren recur rest) as [cs'|]; [eauto | discriminate].
Qed.

Lemma ignoredEntries_nest : listedPathsNest Example.ignoredEntries.
Proof. paths_nest Example.ignoredEntries. Qed.

(** C3. In a directory whose listing was expanded, take an entry the
    ignore rules exclude.  If it is a directory, the folder node marked
    [gitignore], without [children], stands among the parent's
    children, and any node of the tree at that path is such a node:
    nothing was built below it.  The builder is not called on it: the
    children are the same whatever the recursive call would do at its
    path, even if it never returned, and the invocation returns its
    tree with one unit of fuel more than the listed directories that
    are not ignored ask for, however deep the ignored ones are (with
    one unit when every listed directory is ignored).  If the entry is
    a file, no child stands
    at its path, and no node of the whole tree does.  (What is said of
    the whole tree is by path, for a filesystem whose listed paths
    nest.) *)
Theorem buildTree_ignored_entries :
  forall (PM : PathModule) (IP : IgnorePackage) (CO : Collation)
         (f : fs.FileSystem) (options : TreeOptions)
         (stack : list IgnoreStackItem) (p : string) (items : list string)
         (a : string) (s : fs.Stats) (fuel : nat) (t : TreeNode)
         (cs : list TreeNode),
    listedDirectory f p items -> In a items ->
    fs.lstat f (join p a) = Some s -> fs.isSymbolicLink s = false ->
    checkIgnored (pushLevel f p options stack) (join p a) (fs.isDirectory s)
      = true ->
    buildTree fuel f p options stack = Some t ->
    children t = Some cs ->
    (fs.isDirectory s = true ->
     In {| name := a; path := join p a; type := folder; children := None;
           skipped := Some skipped_gitignore; stats := None |} cs /\
     (listedPathsNest f ->
      forall n, In n (subnodes t) -> path n = join p a ->
                type n = folder /\ skipped n = Some skipped_gitignore /\
                children n = None) /\
     (forall recur : string -> option TreeNode,
        (forall q, q <> join p a ->
                   recur q = buildTree (pred fuel) f q options
                               (pushLevel f p options stack)) ->
        option_map sort
          (collectChildren recur
             (scanCandidates f (pushLevel f p options stack) p items))
        = Some cs) /\
     (forall k : nat,
        (forall b sb, In b items -> fs.lstat f (join p b) = Some sb ->
                      fs.isSymbolicLink sb = false ->
                      fs.isDirectory sb = true ->
                      checkIgnored (pushLevel f p options stack) (join p b)
                        true = false ->
                      buildTree k f (join p b) options
                        (pushLevel f p options stack) <> None) ->
        buildTree (S k) f p options stack = Some t)) /\
    (fs.isDirectory s = false ->
     (forall n, In n cs -> path n <> join p a) /\
     (listedPathsNest f ->
      forall n, In n (subnodes t) -> path n <> join p a)).
Proof.
  intros PM IP CO f options stack p items a s fuel t cs
         Hl Ha Hs Hlink Hi Ht Hcs.
  assert (Hall : listedPathsNest f ->
            forall n, In n (subnodes t) -> path n = join p a ->
            fs.isDirectory s = true /\ type n = folder /\
            skipped n = Some skipped_gitignore /\ children n = None).
  { intros Hnest n. eapply ignored_entry_nodes; eassumption. }
  destruct fuel as [|fuel]; [discriminate|].
  destruct (listed_children f options _ _ _ _ _ _ Hl Ht Hcs)
    as (collected & Hcoll & ->).
  split.
  - intros Hd. split; [|split; [|split]].
    + apply sort_In. apply (collectChildren_In _ _ _ Hcoll).
      exists {| cand_name := a; cand_path := join p a;
                isIgnored := checkIgnored (pushLevel f p options stack)
                               (join p a) (fs.isDirectory s);
                cand_stats := s |}.
      split.
      * apply scanCandidates_In. exists a, s. auto.
      * rewrite Hi.
        change {| name := a; path := join p a; type := folder;
                  children := None; skipped := Some skipped_gitignore;
                  stats := None |}
          with (ignoredFolder {| cand_name := a; cand_path := join p a;
                                 isIgnored := true; cand_stats := s |}).
        now constructor.
    + intros Hnest n Hn Hp. now apply Hall.
    + intros recur Hrecur. cbn [pred] in Hrecur.
      rewrite (collectChildren_calls recur
                 (fun q => buildTree fuel f q options
                             (pushLevel f p options stack))).
      * now rewrite Hcoll.
      * intros c Hc Hig _. apply Hrecur. intros Hq.
        destruct (candidate_at_ignored_path f _ _ _ _ _ _ Hc Hq Hs Hi)
          as [_ Hig'].
        congruence.
    + intros k Hdirs.
      rewrite (buildTree_listed f options fuel _ _ _ Hl) in Ht.
      rewrite (buildTree_listed f options k _ _ _ Hl).
      cbv zeta in Ht |- *.
      destruct (overMaxLeaf _ _); [exact Ht|].
      rewrite <- Ht. f_equal. apply collectChildren_calls.
      intros c Hc Hig Hdc.
      destruct (collectChildren_answers _ _ _ c Hcoll Hc Hig Hdc)
        as (n & Hn).
      pose proof Hc as Hc0. apply candidate_listed in Hc0.
      destruct Hc0 as (b & Hb & _ & Hcp & Hlc & Hsc & Hic).
      rewrite Hcp in Hlc. rewrite Hcp, Hdc in Hic. rewrite Hig in Hic.
      pose proof (Hdirs b (cand_stats c) Hb Hlc Hsc Hdc (eq_sym Hic)) as Hk.
      rewrite <- Hcp in Hk.
      destruct (buildTree k f (cand_path c) options _) as [n'|] eqn:Ek;
        [|contradiction].
      rewrite Hn. f_equal.
      pose proof (buildTree_fuel_irrelevant f options _ (Nat.max k fuel)
                    _ _ _ Ek (Nat.le_max_l _ _)) as H1.
      pose proof (buildTree_fuel_irrelevant f options _ (Nat.max k fuel)
                    _ _ _ Hn (Nat.le_max_r _ _)) as H2.
      congruence.
  - intros Hd. split.
    + intros n Hn Hp. apply (proj1 (sort_In _ _)) in Hn.
      destruct (ignored_entry_child f options _ _ _ _ _ _ _ _
                  Hs Hi Hcoll Hn Hp) as [Hd' _].
      congruence.
    + intros Hnest n Hn Hp. destruct (Hall Hnest n Hn Hp) as [Hd' _].
      congruence.
Qed.

Lemma buildTree_ignored_entries_witness :
  (In (Example.stub "node_modules" "/r/node_modules" skipped_gitignore)
      [Example.stub "node_modules" "/r/node_modules" skipped_gitignore;
       Example.leaf ".gitignore" "/r/.gitignore" 24;
       Example.leaf "included.txt" "/r/included.txt" 7]) /\
  (forall n,
     In n (subnodes
             (Example.dir "r" "/r"
                [Example.stub "node_modules" "/r/node_modules"
                   skipped_gitignore;
                 Example.leaf ".gitignore" "/r/.gitignore" 24;
                 Example.leaf "included.txt" "/r/included.txt" 7])) ->
     path n <> "/r/ignored.txt") /\
  Example.build 1 Example.ignoredEntries "/r" Example.noOptions =
    Some (Example.dir "r" "/r"
            [Example.stub "node_modules" "/r/node_modules" skipped_gitignore;
             Example.leaf ".gitignore" "/r/.gitignore" 24;
             Example.leaf "included.txt" "/r/included.txt" 7]) /\
  option_map sort
    (collectChildren (fun _ => None)
       (scanCandidates Example.ignoredEntries
          (pushLevel Example.ignoredEntries "/r" Example.noOptions [])
          "/r" [".gitignore"; "ignored.txt"; "included.txt"; "node_modules"]))
  = Some [Example.stub "node_modules" "/r/node_modules" skipped_gitignore;
          Example.leaf ".gitignore" "/r/.gitignore" 24;
          Example.leaf "included.txt" "/r/included.txt" 7].
Proof.
  assert (Hl : listedDirectory Example.ignoredEntries "/r"
                 [".gitignore"; "ignored.txt"; "included.txt";
                  "node_modules"]).
  { split; [|reflexivity]. exists (Example.regular true 4096). repeat split. }
  assert (Hin : In "node_modules"
                  [".gitignore"; "ignored.txt"; "included.txt";
                   "node_modules"]) by (simpl; auto).
  pose proof (proj1 (buildTree_ignored_entries _ _ _
                Example.ignoredEntries Example.noOptions [] "/r" _
                "node_modules" (Example.regular true 4096) 1%nat _ _
                Hl Hin eq_refl eq_refl eq_refl eq_refl eq_refl) eq_refl)
    as (Hstub & _ & Hcalls & Hfuel).
  split; [exact Hstub|]. split; [|split].
  - refine (proj2 (proj2 (buildTree_ignored_entries _ _ _
              Example.ignoredEntries Example.noOptions [] "/r" _
              "ignored.txt" (Example.regular false 7) 3%nat _ _
              Hl _ eq_refl eq_refl eq_refl eq_refl eq_refl) eq_refl)
              ignoredEntries_nest).
    simpl. auto.
  - apply (Hfuel 0%nat). intros b sb Hb Hlb _ Hdb Hig.
    simpl in Hb. repeat (destruct Hb as [<- | Hb]); try contradiction;
      try (injection Hlb as <-; discriminate Hdb).
    discriminate Hig.
  - apply Hcalls. intros q Hq. reflexivity.
Defined.

(** ** Failures of the filesystem calls *)

(** As long as no call of [ignores] throws, [buildTree] returns a node
    for every observed filesystem: no failure of [lstat], [readFile] or
    [readdir] reaches the caller.  With the directories nested at most
    [n] deep, every fuel from [n] on gives one and the same node.  A
    path whose [lstat] fails, at the root or in a recursive call, gives
    a file node of size 0; a directory whose [readdir] fails gives a
    folder node with a present, empty [children] and no marker. *)
Theorem buildTree_total :
  forall (PM : PathModule) (IP : IgnorePackage) (CO : Collation)
         (f : fs.FileSystem) (options : TreeOptions)
         (stack : list IgnoreStackItem) (p : string),
    (forall n, depthWithin n f p = true ->
       exists t, forall fuel, (n <= fuel)%nat ->
                   buildTree fuel f p options stack = Some t) /\
    (forall fuel, fs.lstat f p = None ->
       buildTree (S fuel) f p options stack =
         Some {| name := basename p; path := p; type := file;
                 children := None; skipped := None;
                 stats := Some {| size := 0 |} |}) /\
    (forall fuel, isDirectoryAt f p -> fs.readdir f p = None ->
       buildTree (S fuel) f p options stack =
         Some {| name := basename p; path := p; type := folder;
                 children := Some []; skipped := None; stats := None |}).
Proof.
  intros PM IP CO f options stack p. split; [|split].
  - intros n Hd.
    destruct (buildTree_returns f options n p stack Hd) as (t & Ht).
    exists t. intros fuel Hle.
    now apply buildTree_fuel_irrelevant with n.
  - intros fuel H. now apply buildTree_lstat_fails.
  - intros fuel Hd Hr. now apply buildTree_readdir_fails.
Qed.

Lemma buildTree_total_witness :
  (exists t, forall fuel, (2 <= fuel)%nat ->
     Example.build fuel Example.locked "/r" Example.noOptions = Some t) /\
  Example.build 1 Example.locked "/r/gone" Example.noOptions =
    Some (Example.leaf "gone" "/r/gone" 0) /\
  Example.build 1 Example.locked "/r/locked" Example.noOptions =
    Some (Example.dir "locked" "/r/locked" []).
Proof.
  split; [|split].
  - apply (proj1 (buildTree_total _ _ _ Example.locked Example.noOptions
                    [] "/r") 2%nat).
    reflexivity.
  - exact (proj1 (proj2 (buildTree_total _ _ _ Example.locked
                           Example.noOptions [] "/r/gone")) 0%nat eq_refl).
  - exact (proj2 (proj2 (buildTree_total _ _ _ Example.locked
                           Example.noOptions [] "/r/locked")) 0%nat
             (ex_intro _ (Example.regular true 4096)
                (conj eq_refl (conj eq_refl eq_refl)))
             eq_refl).
Defined.

(** ** The order of the children *)

Lemma leb_transitive (a b c : string) :
  String.leb a b = true -> String.leb b c = true -> String.leb a c = true.
Proof.
  unfold String.leb.
  pose proof (String_as_OT.cmp_eq a b) as Hab.
  pose proof (String_as_OT.cmp_eq b c) as Hbc.
  pose proof (String_as_OT.cmp_eq a c) as Hac.
  pose proof (String_as_OT.cmp_lt a b) as Lab.
  pose proof (String_as_OT.cmp_lt b c) as Lbc.
  pose proof (String_as_OT.cmp_lt a c) as Lac.
  unfold String_as_OT.cmp in *.
  destruct (String.compare a b) eqn:Eab; try discriminate;
    destruct (String.compare b c) eqn:Ebc; try discriminate; intros _ _.
  - rewrite (proj2 Hac); [reflexivity|].
    transitivity b; [now apply Hab | now apply Hbc].
  - assert (a = b) as -> by now apply Hab. now rewrite Ebc.
  - assert (b = c) as <- by now apply Hbc. now rewrite Eab.
  - rewrite (proj2 Lac); [reflexivity|].
    apply String_as_OT.lt_trans with b; [now apply Lab | now apply Lbc].
Qed.

Section ByCodes.

Context {CO : Collation}.

Hypothesis byCodes : collationByCodes.

Lemma byCodes_total : collationTotal.
Proof.
  intros a b. destruct (String.leb_total a b) as [H|H];
    [left | right]; now apply byCodes.
Qed.

Lemma byCodes_transitive : collationTransitive.
Proof.
  intros a b c Hab Hbc. apply byCodes.
  apply leb_transitive with b; now apply byCodes.
Qed.

Lemma nodeBefore_lexBefore (a b : TreeNode) : nodeBefore a b -> lexBefore a b.
Proof.
  intros [H | [H Hn]]; [now left | right].
  split; [assumption | now apply byCodes].
Qed.

End ByCodes.

Lemma StronglySorted_weaken {A : Type} (R R' : A -> A -> Prop) (l : list A) :
  (forall a b, R a b -> R' a b) ->
  StronglySorted R l -> StronglySorted R' l.
Proof.
  intros H. induction 1 as [|x l Hl IH Hx]; constructor; auto.
  eapply Forall_impl; [|exact Hx]. intros y. apply H.
Qed.

Section SortedChildren.

Context {PM : PathModule} {IP : IgnorePackage} {CO : Collation}.

Lemma children_sorted (f : fs.FileSystem) (options : TreeOptions)
    (stack : list IgnoreStackItem) (p : string) (fuel : nat)
    (t n : TreeNode) (cs : list TreeNode) :
  collationTotal -> collationTransitive ->
  buildTree fuel f p options stack = Some t ->
  In n (subnodes t) -> children n = Some cs ->
  StronglySorted nodeBefore cs.
Proof.
  intros Htot Htrans Ht Hn Hcs.
  destruct (subnode_kinds f options _ _ _ _ _ Ht Hn)
    as [(c & ->) | [(c & ->) | (fuel' & q & stk & Hq)]];
    try discriminate.
  apply buildTree_shape in Hq.
  destruct Hq; simpl in Hcs; try discriminate; injection Hcs as <-.
  - constructor.
  - now apply sort_sorted.
Qed.

End SortedChildren.

(** C5 (amended). In the tree [buildTree] returns, every [children]
    field, at any depth, is sorted: a folder stands before every file,
    and two nodes of one kind stand in the order in which
    [localeCompare] puts their names.  Where that comparison is the one
    by character codes, this is the case-sensitive lexicographic order
    of the names. *)
Theorem buildTree_children_sorted :
  forall (PM : PathModule) (IP : IgnorePackage) (CO : Collation)
         (f : fs.FileSystem) (options : TreeOptions)
         (stack : list IgnoreStackItem) (p : string) (fuel : nat)
         (t n : TreeNode) (cs : list TreeNode),
    buildTree fuel f p options stack = Some t ->
    In n (subnodes t) -> children n = Some cs ->
    (collationTotal -> collationTransitive ->
     StronglySorted nodeBefore cs) /\
    (collationByCodes -> StronglySorted lexBefore cs).
Proof.
  intros PM IP CO f options stack p fuel t n cs Ht Hn Hcs. split.
  - intros Htot Htrans. eapply children_sorted; eassumption.
  - intros Hcodes.
    apply StronglySorted_weaken with (R := nodeBefore).
    + intros a b. now apply nodeBefore_lexBefore.
    + eapply children_sorted; try eassumption.
      * now apply byCodes_total.
      * now apply byCodes_transitive.
Qed.

Lemma codeUnits_byCodes : @collationByCodes CodeUnits.collation.
Proof.
  intros a b. simpl. unfold CodeUnits.localeCompare, String.leb.
  destruct (String.compare a b); split; intros H;
    try reflexivity; try lia; discriminate.
Qed.

Lemma compare_eq_trans (a b c : string) :
  String.compare a b = Eq -> String.compare b c = String.compare a c.
Proof.
  intros H. apply String.compare_eq_iff in H. now subst.
Qed.

Lemma compare_lt_trans (a b c : string) :
  String.compare a b = Lt -> String.compare b c = Lt ->
  String.compare a c = Lt.
Proof.
  intros Hab Hbc.
  apply (proj2 (String_as_OT.cmp_lt a c)).
  apply String_as_OT.lt_trans with b; now apply String_as_OT.cmp_lt.
Qed.

Lemma dictionary_total : @collationTotal Dictionary.collation.
Proof.
  intros a b. simpl. unfold Dictionary.localeCompare.
  rewrite (String.compare_antisym
             (Dictionary.mapString Dictionary.fold a)
             (Dictionary.mapString Dictionary.fold b)).
  rewrite (String.compare_antisym
             (Dictionary.mapString Dictionary.swapCase a)
             (Dictionary.mapString Dictionary.swapCase b)).
  destruct (String.compare (Dictionary.mapString Dictionary.fold b)
                           (Dictionary.mapString Dictionary.fold a));
    simpl; try lia.
  destruct (String.compare (Dictionary.mapString Dictionary.swapCase b)
                           (Dictionary.mapString Dictionary.swapCase a));
    simpl; lia.
Qed.

Lemma dictionary_transitive : @collationTransitive Dictionary.collation.
Proof.
  intros a b c. simpl. unfold Dictionary.localeCompare.
  destruct (String.compare (Dictionary.mapString Dictionary.fold a)
                           (Dictionary.mapString Dictionary.fold b))
    eqn:Pab;
    destruct (String.compare (Dictionary.mapString Dictionary.fold b)
                             (Dictionary.mapString Dictionary.fold c))
      eqn:Pbc; simpl; try lia.
  - rewrite <- (compare_eq_trans _ _ _ Pab), Pbc.
    destruct (String.compare (Dictionary.mapString Dictionary.swapCase a)
                             (Dictionary.mapString Dictionary.swapCase b))
      eqn:Tab;
      destruct (String.compare (Dictionary.mapString Dictionary.swapCase b)
                               (Dictionary.mapString Dictionary.swapCase c))
        eqn:Tbc; simpl; try lia; intros _ _.
    + now rewrite <- (compare_eq_trans _ _ _ Tab), Tbc.
    + now rewrite <- (compare_eq_trans _ _ _ Tab), Tbc.
    + apply String.compare_eq_iff in Tbc. rewrite <- Tbc, Tab. simpl. lia.
    + now rewrite (compare_lt_trans _ _ _ Tab Tbc).
  - intros _ _. now rewrite <- (compare_eq_trans _ _ _ Pab), Pbc.
  - intros _ _. apply String.compare_eq_iff in Pbc.
    rewrite <- Pbc, Pab. simpl. lia.
  - intros _ _. now rewrite (compare_lt_trans _ _ _ Pab Pbc).
Qed.

Lemma buildTree_children_sorted_witness :
  StronglySorted (@nodeBefore Dictionary.collation)
    [ Example.leaf "a" "/r/a" 1; Example.leaf "B" "/r/B" 1 ] /\
  StronglySorted lexBefore
    [ Example.dir "src" "/r/src"
        [ Example.leaf "keep.txt" "/r/src/keep.txt" 4 ];
      Example.leaf ".gitignore" "/r/.gitignore" 14;
      Example.leaf "ignore.txt" "/r/ignore.txt" 4 ].
Proof.
  split.
  - assert (Ht : @buildTree Posix.pathModule Literal.ignorePackage
                   Dictionary.collation 1 Example.mixedCase "/r"
                   Example.noOptions []
                 = Some (Example.dir "r" "/r"
                           [ Example.leaf "a" "/r/a" 1;
                             Example.leaf "B" "/r/B" 1 ]))
      by reflexivity.
    apply (proj1 (buildTree_children_sorted Posix.pathModule
                    Literal.ignorePackage Dictionary.collation
                    Example.mixedCase Example.noOptions [] "/r" 1%nat
                    _ _ _ Ht (or_introl eq_refl) eq_refl)).
    + exact dictionary_total.
    + exact dictionary_transitive.
  - assert (Ht : buildTree 3 Example.pathSpecific "/r" Example.noOptions []
                 = Some Example.pathSpecificTree) by reflexivity.
    apply (proj2 (buildTree_children_sorted _ _ _ Example.pathSpecific
                    Example.noOptions [] "/r" 3%nat
                    Example.pathSpecificTree Example.pathSpecificTree _
                    Ht (or_introl eq_refl) eq_refl)).
    exact codeUnits_byCodes.
Defined.

(** The statement of C5 as it was given, with the names in
    case-sensitive lexicographic order, fails where [localeCompare]
    collates: of the files [B] and [a] it puts [a] first, and by
    character codes [B] comes first. *)
Lemma localeCompare_is_not_the_code_order :
  @buildTree Posix.pathModule Literal.ignorePackage Dictionary.collation
    1 Example.mixedCase "/r" Example.noOptions [] =
    Some (Example.dir "r" "/r"
            [ Example.leaf "a" "/r/a" 1; Example.leaf "B" "/r/B" 1 ]) /\
  String.leb "a" "B" = false /\
  ~ StronglySorted lexBefore
      [ Example.leaf "a" "/r/a" 1; Example.leaf "B" "/r/B" 1 ].
Proof.
  split; [reflexivity|]. split; [reflexivity|].
  intros H. inversion H as [|x l _ Hx]; subst.
  inversion Hx as [|y l' Hy _]; subst.
  destruct Hy as [[Hf _] | [_ Hn]]; discriminate.
Qed.

(** ** Exceptions of the ignore package *)

Section ThrowingFacts.

Context {PM : PathModule} {IP : IgnorePackage} {CO : Collation}
        {PC : PathCheck}.

Variable f : fs.FileSystem.
Variable options : TreeOptions.

(** Where no call throws, the loops are the ones of the builder
    above. *)
Lemma checkIgnored_throws_or_agrees (stack : list IgnoreStackItem)
    (itemPath : string) (isDir : bool) :
  Throwing.checkIgnored stack itemPath isDir = None \/
  Throwing.checkIgnored stack itemPath isDir =
    Some (checkIgnored stack itemPath isDir).
Proof.
  induction stack as [|lvl rest IH]; cbn [Throwing.checkIgnored checkIgnored].
  - now right.
  - destruct (checkPath _); [|now left].
    destruct (ignores (ignorer lvl) (relative (basePath lvl) itemPath));
      [now right|].
    destruct isDir; cbn [andb]; [|exact IH].
    destruct (checkPath _); [|now left].
    destruct (ignores _ _); [now right | exact IH].
Qed.

Lemma scanCandidates_throws_or_agrees (stack : list IgnoreStackItem)
    (p : string) (items : list string) :
  Throwing.scanCandidates f stack p items = None \/
  Throwing.scanCandidates f stack p items =
    Some (scanCandidates f stack p items).
Proof.
  induction items as [|item rest IH];
    cbn [Throwing.scanCandidates scanCandidates]; [now right|].
  destruct (fs.lstat f (join p item)) as [s|]; [|exact IH].
  destruct (fs.isSymbolicLink s); [exact IH|].
  destruct (checkIgnored_throws_or_agrees stack (join p item)
              (fs.isDirectory s)) as [-> | ->]; [now left|].
  destruct IH as [-> | ->]; [now left | now right].
Qed.

Lemma collectChildren_throws_or_agrees
    (recurE : string -> Outcome TreeNode) (recur : string -> option TreeNode)
    (candidates : list Candidate) :
  (forall q, recurE q = rejects \/ recurE q = ofOption (recur q)) ->
  Throwing.collectChildren recurE candidates = rejects \/
  Throwing.collectChildren recurE candidates =
    ofOption (collectChildren recur candidates).
Proof.
  intros Hrec.
  induction candidates as [|c rest IH];
    cbn [Throwing.collectChildren collectChildren]; [now right|].
  destruct (isIgnored c), (fs.isDirectory (cand_stats c)).
  - destruct IH as [-> | ->]; [now left | right].
    now destruct (collectChildren recur rest).
  - exact IH.
  - destruct (Hrec (cand_path c)) as [-> | ->]; [now left|].
    destruct (recur (cand_path c)); cbn [ofOption]; [|now right].
    destruct IH as [-> | ->]; [now left | right].
    now destruct (collectChildren recur rest).
  - destruct IH as [-> | ->]; [now left | right].
    now destruct (collectChildren recur rest).
Qed.

Lemma buildTree_throws_or_agrees (fuel : nat) :
  forall (p : string) (stack : list IgnoreStackItem),
    Throwing.buildTree fuel f p options stack = rejects \/
    Throwing.buildTree fuel f p options stack =
      ofOption (buildTree fuel f p options stack).
Proof.
  induction fuel as [|fuel IH]; intros p stack;
    cbn [Throwing.buildTree buildTree]; [now right|].
  destruct (fs.lstat f p) as [s|]; [|now right].
  destruct (fs.isSymbolicLink s); [now right|].
  destruct (fs.isDirectory s); cbn [negb]; [|now right].
  destruct (fs.readdir f p) as [items|]; [|now right].
  cbv zeta.
  destruct (scanCandidates_throws_or_agrees (pushLevel f p options stack)
              p items) as [-> | ->]; [now left|].
  destruct (overMaxLeaf _ _); [now right|].
  destruct (collectChildren_throws_or_agrees
              (fun q => Throwing.buildTree fuel f q options
                          (pushLevel f p options stack))
              (fun q => buildTree fuel f q options
                          (pushLevel f p options stack))
              (scanCandidates f (pushLevel f p options stack) p items)
              (fun q => IH q _)) as [-> | ->]; [now left | right].
  now destruct (collectChildren _ _).
Qed.

(** A package that accepts every path never throws. *)
Lemma checkIgnored_accepted (stack : list IgnoreStackItem)
    (itemPath : string) (isDir : bool) :
  (forall q, checkPath q = true) ->
  Throwing.checkIgnored stack itemPath isDir =
    Some (checkIgnored stack itemPath isDir).
Proof.
  intros Hall.
  induction stack as [|lvl rest IH]; cbn [Throwing.checkIgnored checkIgnored];
    [reflexivity|].
  rewrite !Hall.
  destruct (ignores (ignorer lvl) (relative (basePath lvl) itemPath));
    [reflexivity|].
  destruct isDir; cbn [andb]; [|exact IH].
  destruct (ignores _ _); [reflexivity | exact IH].
Qed.

Lemma scanCandidates_accepted (stack : list IgnoreStackItem)
    (p : string) (items : list string) :
  (forall q, checkPath q = true) ->
  Throwing.scanCandidates f stack p items =
    Some (scanCandidates f stack p items).
Proof.
  intros Hall.
  induction items as [|item rest IH];
    cbn [Throwing.scanCandidates scanCandidates]; [reflexivity|].
  destruct (fs.lstat f (join p item)) as [s|]; [|exact IH].
  destruct (fs.isSymbolicLink s); [exact IH|].
  now rewrite checkIgnored_accepted, IH.
Qed.

Lemma buildTree_accepted (fuel : nat) :
  (forall q, checkPath q = true) ->
  forall (p : string) (stack : list IgnoreStackItem),
    Throwing.buildTree fuel f p options stack =
      ofOption (buildTree fuel f p options stack).
Proof.
  intros Hall. induction fuel as [|fuel IH]; intros p stack;
    cbn [Throwing.buildTree buildTree]; [reflexivity|].
  destruct (fs.lstat f p) as [s|]; [|reflexivity].
  destruct (fs.isSymbolicLink s); [reflexivity|].
  destruct (fs.isDirectory s); cbn [negb]; [|reflexivity].
  destruct (fs.readdir f p) as [items|]; [|reflexivity].
  cbv zeta. rewrite scanCandidates_accepted by exact Hall.
  destruct (overMaxLeaf _ _); [reflexivity|].
  generalize (scanCandidates f (pushLevel f p options stack) p items).
  intros cands.
  assert (Hc : Throwing.collectChildren
                 (fun q => Throwing.buildTree fuel f q options
                             (pushLevel f p options stack)) cands =
               ofOption (collectChildren
                           (fun q => buildTree fuel f q options
                                       (pushLevel f p options stack)) cands)).
  { induction cands as [|c rest IHc];
      cbn [Throwing.collectChildren collectChildren]; [reflexivity|].
    destruct (isIgnored c), (fs.isDirectory (cand_stats c)).
    - rewrite IHc. now destruct (collectChildren _ rest).
    - exact IHc.
    - rewrite IH.
      destruct (buildTree fuel f (cand_path c) options _);
        cbn [ofOption]; [|reflexivity].
      rewrite IHc. now destruct (collectChildren _ rest).
    - rewrite IHc. now destruct (collectChildren _ rest). }
  rewrite Hc. now destruct (collectChildren _ cands).
Qed.

(** An entry on which the check of the stack throws ends the scan of
    its directory. *)
Lemma scanCandidates_throws (stack : list IgnoreStackItem) (p : string)
    (items : list string) (a : string) (s : fs.Stats) :
  In a items -> fs.lstat f (join p a) = Some s ->
  fs.isSymbolicLink s = false ->
  Throwing.checkIgnored stack (join p a) (fs.isDirectory s) = None ->
  Throwing.scanCandidates f stack p items = None.
Proof.
  intros Ha Hs Hl Hthrow.
  induction items as [|item rest IH]; [contradiction|].
  cbn [Throwing.scanCandidates].
  destruct Ha as [-> | Ha].
  - now rewrite Hs, Hl, Hthrow.
  - specialize (IH Ha).
    destruct (fs.lstat f (join p item)) as [s'|]; [|exact IH].
    destruct (fs.isSymbolicLink s'); [exact IH|].
    destruct (Throwing.checkIgnored stack (join p item) (fs.isDirectory s'));
      [|reflexivity].
    now rewrite IH.
Qed.

End ThrowingFacts.

(** C4. The exception that [ignores] throws on a path it does not
    accept is caught nowhere: when the check of a listed entry that
    [lstat] reports and that is no link throws, the invocation for the
    directory rejects, whatever the fuel.  At the root this is so as
    soon as the package refuses the entry's path relative to the
    root. *)
Theorem buildTree_rejection_reaches_caller :
  forall (PM : PathModule) (IP : IgnorePackage) (CO : Collation)
         (PC : PathCheck) (f : fs.FileSystem) (options : TreeOptions)
         (stack : list IgnoreStackItem) (p : string) (items : list string)
         (a : string) (s : fs.Stats) (fuel : nat),
    listedDirectory f p items -> In a items ->
    fs.lstat f (join p a) = Some s -> fs.isSymbolicLink s = false ->
    (Throwing.checkIgnored (pushLevel f p options stack) (join p a)
       (fs.isDirectory s) = None ->
     Throwing.buildTree (S fuel) f p options stack = rejects) /\
    (checkPath (relative p (join p a)) = false ->
     Throwing.buildTree (S fuel) f p options [] = rejects).
Proof.
  intros PM IP CO PC f options stack p items a s fuel
         [(sp & Hp & Hlp & Hdp) Hr] Ha Hs Hl.
  assert (Hgen : forall stk,
            Throwing.checkIgnored (pushLevel f p options stk) (join p a)
              (fs.isDirectory s) = None ->
            Throwing.buildTree (S fuel) f p options stk = rejects).
  { intros stk Hthrow. cbn [Throwing.buildTree].
    rewrite Hp, Hlp, Hdp, Hr. cbn [negb]. cbv zeta.
    now rewrite (scanCandidates_throws f _ p items a s Ha Hs Hl Hthrow). }
  split; [apply Hgen|].
  intros Hcheck. apply Hgen.
  unfold pushLevel. cbn [app Throwing.checkIgnored basePath].
  now rewrite Hcheck.
Qed.

Lemma buildTree_rejection_reaches_caller_witness :
  @Throwing.buildTree Posix.pathModule Literal.ignorePackage
    CodeUnits.collation Checked.pathCheck 1 Checked.dotsEntry "/r"
    Example.noOptions [] = rejects.
Proof.
  assert (Hl : @listedDirectory Checked.dotsEntry "/r" ["..."; "a.txt"]).
  { split; [|reflexivity]. exists (Example.regular true 4096). repeat split. }
  refine (proj2 (buildTree_rejection_reaches_caller Posix.pathModule
            Literal.ignorePackage CodeUnits.collation Checked.pathCheck
            Checked.dotsEntry Example.noOptions [] "/r" ["..."; "a.txt"]
            "..." (Example.regular false 1) 0%nat Hl _ eq_refl eq_refl)
            eq_refl).
  simpl. auto.
Defined.

(** ** The root node *)

(** C6 (amended). The node an invocation returns is never marked
    [gitignore].  For a path that [lstat] reports as a directory, not a
    link, it is a folder, and it is marked [size] exactly when the
    directory is listed and its visible count is over a non-zero
    [maxLeaf]: the threshold applies to the root as to any directory.
    For any other path it is a file node without marker. *)
Theorem buildTree_root_node :
  forall (PM : PathModule) (IP : IgnorePackage) (CO : Collation)
         (f : fs.FileSystem) (options : TreeOptions)
         (stack : list IgnoreStackItem) (p : string) (fuel : nat)
         (t : TreeNode),
    buildTree fuel f p options stack = Some t ->
    skipped t <> Some skipped_gitignore /\
    (isDirectoryAt f p ->
     type t = folder /\
     (skipped t = Some skipped_size <->
      exists items,
        fs.readdir f p = Some items /\
        overMaxLeaf options
          (visibleCount
             (scanCandidates f (pushLevel f p options stack) p items))
          = true)) /\
    (~ isDirectoryAt f p -> type t = file /\ skipped t = None).
Proof.
  intros PM IP CO f options stack p fuel t Ht.
  destruct fuel as [|fuel]; [discriminate|].
  apply buildTree_shape in Ht.
  destruct Ht as [Hl | s Hl Hs | s Hl Hs Hd | Hdir Hr
                  | items [Hdir Hr] Ho | items cs [Hdir Hr] Ho Hc];
    (split; [discriminate|]); split;
    try (intros (s' & Hl' & Hs' & Hd'); congruence);
    try (intros _; split; reflexivity);
    try (intros Hno; contradiction).
  - intros _. split; [reflexivity|]. split; [discriminate|].
    intros (items & Hr' & _). congruence.
  - intros _. split; [reflexivity|]. split; [|reflexivity].
    intros _. exists items. auto.
  - intros _. split; [reflexivity|]. split; [discriminate|].
    intros (items' & Hr' & Ho'). congruence.
Qed.

Lemma buildTree_root_node_witness :
  skipped (truncatedFolder "/r/large-dir") <> Some skipped_gitignore /\
  type (truncatedFolder "/r/large-dir") = folder /\
  (skipped (truncatedFolder "/r/large-dir") = Some skipped_size <->
   exists items,
     fs.readdir Example.largeDir "/r/large-dir" = Some items /\
     overMaxLeaf (Example.withMaxLeaf 3)
       (visibleCount
          (scanCandidates Example.largeDir
             (pushLevel Example.largeDir "/r/large-dir"
                (Example.withMaxLeaf 3) [])
             "/r/large-dir" items)) = true).
Proof.
  assert (Ht : buildTree 1 Example.largeDir "/r/large-dir"
                 (Example.withMaxLeaf 3) []
               = Some (truncatedFolder "/r/large-dir")) by reflexivity.
  destruct (buildTree_root_node _ _ _ Example.largeDir
              (Example.withMaxLeaf 3) [] "/r/large-dir" 1%nat
              (truncatedFolder "/r/large-dir") Ht)
    as (Hg & Hdir & _).
  split; [exact Hg|].
  apply Hdir. exists (Example.regular true 4096). repeat split.
Defined.

(** The statement of C6 as it was given fails twice: a root directory
    over the threshold comes back marked [size], and a root path that
    is a plain file comes back as a file node. *)
Lemma root_is_not_always_an_unmarked_folder :
  (exists t,
     Example.build 1 Example.largeDir "/r/large-dir" (Example.withMaxLeaf 3)
       = Some t /\
     skipped t = Some skipped_size) /\
  (exists t,
     Example.build 1 Example.largeDir "/r/large-dir/file0.txt"
       Example.noOptions = Some t /\
     type t = file).
Proof.
  split; eexists; split; reflexivity.
Qed.

(** ** Symbolic links *)

Section Links.

Context {PM : PathModule} {IP : IgnorePackage} {CO : Collation}.




End Links.




(** ** maxLeaf set to 0 *)

Section ZeroThreshold.

Context {PM : PathModule} {IP : IgnorePackage} {CO : Collation}.

Lemma buildTree_maxLeaf_zero_absent (f : fs.FileSystem)
    (patterns : option (list string)) (fuel : nat) :
  forall p stack,
    buildTree fuel f p {| maxLeaf := Some 0; ignorePatterns := patterns |}
      stack =
    buildTree fuel f p {| maxLeaf := None; ignorePatterns := patterns |}
      stack.
Proof.
  induction fuel as [|fuel IH]; intros p stack; auto.
  simpl.
  destruct (fs.lstat f p) as [s|]; auto.
  destruct (fs.isSymbolicLink s); auto.
  destruct (fs.isDirectory s); auto. simpl.
  destruct (fs.readdir f p) as [items|]; auto.
  unfold overMaxLeaf. simpl.
  change (pushLevel f p {| maxLeaf := Some 0; ignorePatterns := patterns |}
            stack)
    with (pushLevel f p {| maxLeaf := None; ignorePatterns := patterns |}
            stack).
  erewrite collectChildren_ext; [reflexivity|].
  intros c _. apply IH.
Qed.

End ZeroThreshold.

(** C9. With [maxLeaf] 0 the builder returns what it returns with
    [maxLeaf] absent, and no node of the result is marked [size],
    however many visible children a directory has: the test asks for a
    truthy [maxLeaf] before it compares. *)
Theorem buildTree_maxLeaf_zero :
  forall (PM : PathModule) (IP : IgnorePackage) (CO : Collation)
         (f : fs.FileSystem) (patterns : option (list string))
         (stack : list IgnoreStackItem) (p : string) (fuel : nat),
    buildTree fuel f p {| maxLeaf := Some 0; ignorePatterns := patterns |}
      stack =
    buildTree fuel f p {| maxLeaf := None; ignorePatterns := patterns |}
      stack /\
    (forall t n,
       buildTree fuel f p {| maxLeaf := Some 0; ignorePatterns := patterns |}
         stack = Some t ->
       In n (subnodes t) -> skipped n <> Some skipped_size).
Proof.
  intros PM IP CO f patterns stack p fuel.
  split; [apply buildTree_maxLeaf_zero_absent|].
  intros t n Ht Hn.
  destruct (subnode_kinds f _ _ _ _ _ _ Ht Hn)
    as [(c & ->) | [(c & ->) | (fuel' & q & stk & Hq)]];
    try discriminate.
  apply buildTree_shape in Hq.
  destruct Hq as [| | | | items _ Ho |]; try discriminate.
Qed.

Lemma buildTree_maxLeaf_zero_witness :
  skipped (Example.leaf "file4.txt" "/r/large-dir/file4.txt" 7)
    <> Some skipped_size.
Proof.
  apply (proj2 (buildTree_maxLeaf_zero _ _ _ Example.largeDir None []
                  "/r" 3%nat)
           (Example.dir "r" "/r"
              [Example.dir "large-dir" "/r/large-dir"
                 [Example.leaf "file0.txt" "/r/large-dir/file0.txt" 7;
                  Example.leaf "file1.txt" "/r/large-dir/file1.txt" 7;
                  Example.leaf "file2.txt" "/r/large-dir/file2.txt" 7;
                  Example.leaf "file3.txt" "/r/large-dir/file3.txt" 7;
                  Example.leaf "file4.txt" "/r/large-dir/file4.txt" 7]])).
  - reflexivity.
  - simpl. auto 10.
Defined.

(** ** The repository's tests, on the concrete runtime *)

(** "should ignore files based on .gitignore": the ignored file is
    gone, the ignored directory is a stub. *)
Example test_gitignore :
  Example.build 3 Example.ignoredEntries "/r" Example.noOptions =
    Some (Example.dir "r" "/r"
            [ Example.stub "node_modules" "/r/node_modules" skipped_gitignore;
              Example.leaf ".gitignore" "/r/.gitignore" 24;
              Example.leaf "included.txt" "/r/included.txt" 7 ]).
Proof. reflexivity. Qed.

(** "should skip symbolic links". *)
Example test_symbolic_link :
  Example.build 3 Example.linked "/r" Example.noOptions =
    Some (Example.dir "r" "/r"
            [ Example.dir "target" "/r/target"
                [ Example.leaf "file.txt" "/r/target/file.txt" 7 ] ]).
Proof. reflexivity. Qed.

(** "should respect directory-specific ignore rules (trailing slash)". *)
Example test_trailing_slash :
  Example.build 3 Example.directoryOnly "/r" Example.noOptions =
    Some (Example.dir "r" "/r"
            [ Example.stub "coverage" "/r/coverage" skipped_gitignore;
              Example.leaf ".gitignore" "/r/.gitignore" 9;
              Example.leaf "coverage_file" "/r/coverage_file" 4 ]).
Proof. reflexivity. Qed.

(** * Properties of the strings *)

Lemma append_assoc (a b c : string) : ((a ++ b) ++ c = a ++ (b ++ c))%string.
Proof.
  induction a as [|x a IH]; simpl; [reflexivity | now rewrite IH].
Qed.

Lemma prefix_append (p s : string) : String.prefix p (p ++ s) = true.
Proof.
  induction p as [|x p IH]; simpl.
  - now destruct s.
  - destruct (ascii_dec x x) as [_|N]; [exact IH | now elim N].
Qed.

Lemma prefix_append_left (p u line : string) :
  String.prefix (p ++ u) line = true -> String.prefix p line = true.
Proof.
  revert line. induction p as [|x p IH]; intros line; simpl.
  - intros _. now destruct line.
  - destruct line as [|y line]; simpl; [discriminate|].
    destruct (ascii_dec x y); [apply IH | discriminate].
Qed.

(** * Properties of renderTree *)

Section RenderFacts.

Context {CH : Chalk}.

Lemma linesOf_present (nm p : string) (ty : NodeType) (cs : list TreeNode)
    (sk : option SkipReason) (st : option NodeStats) (prefix : string)
    (isLast isRoot : bool) :
  Render.linesOf (mkTreeNode nm p ty (Some cs) sk st) prefix isLast isRoot =
  (Render.lead prefix isLast isRoot
     ++ Render.label (mkTreeNode nm p ty (Some cs) sk st))%string
  :: Render.childLines (Render.childPrefix prefix isLast isRoot) cs.
Proof.
  cbn [Render.linesOf]. f_equal.
  induction cs as [|c rest IH]; [reflexivity|].
  cbn [Render.childLines]. now rewrite <- IH.
Qed.

(** The threaded [traverse] appends the lines of the node to the array
    it was given. *)
Lemma traverse_linesOf (node : TreeNode) :
  forall prefix isLast isRoot lines,
    Render.traverse node prefix isLast isRoot lines =
    (lines ++ Render.linesOf node prefix isLast isRoot)%list.
Proof.
  induction node as [nm p ty sk st | nm p ty cs sk st IH]
    using TreeNode_nested_ind; intros prefix isLast isRoot lines.
  - reflexivity.
  - cbn [Render.traverse Render.linesOf].
    match goal with
    | |- ?F cs _ = (_ ++ _ :: ?G cs)%list =>
        assert (H : forall acc, F cs acc = (acc ++ G cs)%list)
    end.
    { induction IH as [|c rest Hc _ IHrest]; intros acc.
      - now rewrite app_nil_r.
      - rewrite Hc, IHrest. now rewrite app_assoc. }
    rewrite H, <- app_assoc. reflexivity.
Qed.

Lemma traverse_fresh (node : TreeNode) (prefix : string)
    (isLast isRoot : bool) :
  Render.traverse node prefix isLast isRoot [] =
  Render.linesOf node prefix isLast isRoot.
Proof. now rewrite traverse_linesOf. Qed.

Lemma childLines_length (cp : string) (cs : list TreeNode) :
  Forall (fun c => forall prefix isLast isRoot,
            length (Render.linesOf c prefix isLast isRoot)
            = length (subnodes c)) cs ->
  length (Render.childLines cp cs) = length (flat_map subnodes cs).
Proof.
  induction 1 as [|c rest Hc _ IH]; [reflexivity|].
  cbn [Render.childLines flat_map]. now rewrite !length_app, Hc, IH.
Qed.

Lemma linesOf_length (node : TreeNode) :
  forall prefix isLast isRoot,
    length (Render.linesOf node prefix isLast isRoot)
    = length (subnodes node).
Proof.
  induction node as [nm p ty sk st | nm p ty cs sk st IH]
    using TreeNode_nested_ind; intros prefix isLast isRoot.
  - reflexivity.
  - rewrite linesOf_present. cbn [subnodes length].
    now rewrite (childLines_length _ _ IH).
Qed.

Lemma childLines_last (cp : string) (cs : list TreeNode) (c : TreeNode) :
  Render.childLines cp (cs ++ [c]) =
  (flat_map (fun x => Render.linesOf x cp false false) cs
   ++ Render.linesOf c cp true false)%list.
Proof.
  induction cs as [|x rest IH]; simpl.
  - now rewrite app_nil_r.
  - rewrite IH, <- app_assoc.
    now destruct rest.
Qed.

Lemma linesOf_head (node : TreeNode) (prefix : string) (isLast isRoot : bool) :
  exists rest,
    Render.linesOf node prefix isLast isRoot =
    (Render.lead prefix isLast isRoot ++ Render.label node)%string :: rest.
Proof.
  destruct node as [nm p ty [cs|] sk st].
  - rewrite linesOf_present. eauto.
  - simpl. eauto.
Qed.

(** Every line of a node that is not the root begins with the node's
    prefix. *)
Lemma linesOf_prefixed (node : TreeNode) :
  forall prefix isLast line,
    In line (Render.linesOf node prefix isLast false) ->
    String.prefix prefix line = true.
Proof.
  induction node as [nm p ty sk st | nm p ty cs sk st IH]
    using TreeNode_nested_ind; intros prefix isLast line.
  - simpl. intros [<- | []]. unfold Render.lead.
    rewrite append_assoc. apply prefix_append.
  - rewrite linesOf_present. intros [<- | Hin].
    + unfold Render.lead. rewrite append_assoc. apply prefix_append.
    + unfold Render.childPrefix in Hin.
      apply prefix_append_left
        with (u := (if isLast then "    " else "│   ")%string).
      induction IH as [|c rest Hc _ IHrest]; [contradiction|].
      cbn [Render.childLines] in Hin. apply in_app_or in Hin.
      destruct Hin as [Hin | Hin]; [eapply Hc; eassumption | auto].
Qed.

Lemma indent_lineAt_children (d : nat) (cp : string) (cs : list TreeNode) :
  Forall (fun c => forall d prefix isLast,
            Render.indent d prefix ->
            Forall2 Render.lineAt (Render.withDepth (S d) c)
                    (Render.linesOf c prefix isLast false)) cs ->
  Render.indent d cp ->
  Forall2 Render.lineAt (flat_map (Render.withDepth (S d)) cs)
          (Render.childLines cp cs).
Proof.
  intros H Hi. induction H as [|c rest Hc _ IH]; [constructor|].
  cbn [flat_map Render.childLines]. apply Forall2_app; auto.
Qed.

Lemma linesOf_lineAt (node : TreeNode) :
  forall d prefix isLast,
    Render.indent d prefix ->
    Forall2 Render.lineAt (Render.withDepth (S d) node)
            (Render.linesOf node prefix isLast false).
Proof.
  induction node as [nm p ty sk st | nm p ty cs sk st IH]
    using TreeNode_nested_ind; intros d prefix isLast Hi.
  - simpl. constructor; [|constructor].
    exists prefix. split; [assumption|].
    unfold Render.lead. rewrite append_assoc. destruct isLast; auto.
  - rewrite linesOf_present. cbn [Render.withDepth]. constructor.
    + exists prefix. split; [assumption|].
      unfold Render.lead. rewrite append_assoc. destruct isLast; auto.
    + apply indent_lineAt_children; [exact IH|].
      unfold Render.childPrefix. destruct isLast; now constructor.
Qed.

Lemma withDepth_nodes (node : TreeNode) :
  forall d, map snd (Render.withDepth d node) = subnodes node.
Proof.
  induction node as [nm p ty sk st | nm p ty cs sk st IH]
    using TreeNode_nested_ind; intros d; [reflexivity|].
  cbn [Render.withDepth subnodes map snd]. f_equal.
  induction IH as [|c rest Hc _ IHrest]; [reflexivity|].
  cbn [flat_map]. now rewrite map_app, Hc, IHrest.
Qed.

End RenderFacts.

Lemma files_and_folders (l : list TreeNode) :
  countIf isFile l + countIf isFolder l = Z.of_nat (length l).
Proof.
  unfold countIf.
  assert (H : (length (filter isFile l) + length (filter isFolder l)
               = length l)%nat).
  { induction l as [|n l IH]; [reflexivity|].
    cbn [filter]. unfold isFile at 1, isFolder at 1.
    destruct (type n); cbn [NodeType_eqb length]; lia. }
  lia.
Qed.

Lemma occurrences_append (c : Ascii.ascii) (a b : string) :
  Render.occurrences c (a ++ b) =
  (Render.occurrences c a + Render.occurrences c b)%nat.
Proof.
  induction a as [|x a IH]; [reflexivity|].
  cbn [append Render.occurrences]. rewrite IH. lia.
Qed.

Lemma splitOn_length (c : Ascii.ascii) (s : string) :
  forall acc,
    length (Literal.splitOn c acc s) = S (Render.occurrences c s).
Proof.
  induction s as [|x s IH]; intros acc; [reflexivity|].
  cbn [Literal.splitOn Render.occurrences].
  destruct (Ascii.eqb x c); cbn [length]; now rewrite IH.
Qed.

Lemma splitOn_whole (c : Ascii.ascii) (v : string) :
  forall acc,
    Render.occurrences c v = 0%nat ->
    Literal.splitOn c acc v = [(acc ++ v)%string].
Proof.
  induction v as [|x v IH]; intros acc H.
  - cbn [Literal.splitOn]. f_equal.
    clear. induction acc as [|y acc IH]; [reflexivity|].
    cbn [append]. now rewrite <- IH.
  - cbn [Literal.splitOn Render.occurrences] in *.
    destruct (Ascii.eqb x c); [discriminate|].
    rewrite IH by exact H. now rewrite append_assoc.
Qed.

Lemma splitOn_at (c : Ascii.ascii) (v w : string) :
  forall acc,
    Render.occurrences c v = 0%nat ->
    Literal.splitOn c acc (v ++ String c w) =
    (acc ++ v)%string :: Literal.splitOn c "" w.
Proof.
  induction v as [|x v IH]; intros acc H.
  - cbn [append Literal.splitOn]. rewrite Ascii.eqb_refl. f_equal.
    clear. induction acc as [|y acc IH]; [reflexivity|].
    cbn [append]. now rewrite <- IH.
  - cbn [append Literal.splitOn Render.occurrences] in *.
    destruct (Ascii.eqb x c); [discriminate|].
    rewrite IH by exact H. now rewrite append_assoc.
Qed.

(** Joining with a separator and splitting at it gives the pieces
    back when none of them holds the separator. *)
Lemma splitOn_concat (c : Ascii.ascii) (l : list string) :
  forall x acc,
    (forall y, In y (x :: l) -> Render.occurrences c y = 0%nat) ->
    Literal.splitOn c acc (String.concat (String c "") (x :: l)) =
    (acc ++ x)%string :: l.
Proof.
  induction l as [|y l IH]; intros x acc H.
  - cbn [String.concat]. apply splitOn_whole. apply H. now left.
  - change (String.concat (String c "") (x :: y :: l))
      with (x ++ String c (String.concat (String c "") (y :: l)))%string.
    rewrite splitOn_at by (apply H; now left).
    rewrite IH by (intros z Hz; apply H; now right).
    reflexivity.
Qed.

Lemma occurrences_concat (c : Ascii.ascii) (l : list string) :
  forall x,
    S (Render.occurrences c (String.concat (String c "") (x :: l))) =
    (length (x :: l) + list_sum (map (Render.occurrences c) (x :: l)))%nat.
Proof.
  induction l as [|y l IH]; intros x.
  - unfold list_sum. cbn [String.concat length map fold_right]. lia.
  - change (String.concat (String c "") (x :: y :: l))
      with (x ++ String c (String.concat (String c "") (y :: l)))%string.
    rewrite occurrences_append. cbn [Render.occurrences].
    rewrite Ascii.eqb_refl. specialize (IH y).
    unfold list_sum in *. cbn [length map fold_right] in *. lia.
Qed.

Lemma indent_lineFeeds (d : nat) (s : string) :
  Render.indent d s -> Render.lineFeeds s = 0%nat.
Proof.
  unfold Render.lineFeeds.
  induction 1 as [|d s _ IH|d s _ IH]; [reflexivity| |];
    now rewrite occurrences_append, IH.
Qed.

Section RenderedText.

Context {CH : Chalk}.

Lemma renderLines_lineAt (tree : TreeNode) :
  Forall2 Render.lineAt (Render.withDepth 0 tree) (Render.renderLines tree).
Proof.
  unfold Render.renderLines. rewrite traverse_fresh.
  destruct tree as [nm p ty [cs|] sk st].
  - rewrite linesOf_present. cbn [Render.withDepth]. constructor.
    + reflexivity.
    + apply indent_lineAt_children; [|constructor].
      clear. induction cs as [|c rest IH]; constructor; auto.
      intros d prefix isLast. apply linesOf_lineAt.
  - simpl. constructor; [reflexivity | constructor].
Qed.

(** A line holds the line feeds of its node's label and no other. *)
Lemma lineAt_lineFeeds (dn : nat * TreeNode) (line : string) :
  Render.lineAt dn line ->
  Render.lineFeeds line = Render.lineFeeds (Render.label (snd dn)).
Proof.
  destruct dn as [[|d] n]; unfold Render.lineAt; cbn [fst snd].
  - now intros ->.
  - intros (ind & Hind & [-> | ->]); unfold Render.lineFeeds;
      rewrite !occurrences_append;
      fold (Render.lineFeeds ind); rewrite (indent_lineFeeds _ _ Hind);
      reflexivity.
Qed.

Lemma renderLines_lineFeeds (tree : TreeNode) :
  map Render.lineFeeds (Render.renderLines tree) =
  map (fun n => Render.lineFeeds (Render.label n)) (subnodes tree).
Proof.
  rewrite <- (withDepth_nodes tree 0), map_map.
  pose proof (renderLines_lineAt tree) as H.
  induction H as [|dn line dns lines Hl _ IH]; [reflexivity|].
  cbn [map]. now rewrite (lineAt_lineFeeds _ _ Hl), IH.
Qed.

Lemma renderLines_length (tree : TreeNode) :
  length (Render.renderLines tree) = length (subnodes tree).
Proof.
  unfold Render.renderLines. rewrite traverse_fresh. apply linesOf_length.
Qed.

End RenderedText.

Lemma nodes_counted (tree : TreeNode) :
  Z.of_nat (length (subnodes tree)) =
  totalFiles (getSummary tree) + totalFolders (getSummary tree).
Proof.
  unfold getSummary. rewrite traverse_tally, addSummary_empty_l. simpl.
  symmetry. apply files_and_folders.
Qed.

(** X1. The text that [renderTree] returns has one line for every
    node of the tree, and one more for every line feed that stands
    inside a label: the number of its lines is what [getSummary]
    counts as files and folders together, plus the line feeds of the
    labels.  When no label holds a line feed, the lines of the text
    are the lines pushed for the nodes, one for each. *)
Theorem renderTree_one_line_per_node :
  forall (CH : Chalk) (tree : TreeNode),
    Z.of_nat (length (Render.textLines (Render.renderTree tree))) =
      totalFiles (getSummary tree) + totalFolders (getSummary tree)
      + Z.of_nat (list_sum (map (fun n => Render.lineFeeds (Render.label n))
                                (subnodes tree))) /\
    ((forall n, In n (subnodes tree) ->
                Render.lineFeeds (Render.label n) = 0%nat) ->
     Render.textLines (Render.renderTree tree) = Render.renderLines tree /\
     Z.of_nat (length (Render.textLines (Render.renderTree tree))) =
       totalFiles (getSummary tree) + totalFolders (getSummary tree)).
Proof.
  intros CH tree.
  pose proof (renderLines_length tree) as Hlen.
  pose proof (renderLines_lineFeeds tree) as Hfeeds.
  unfold Render.textLines, Render.renderTree, Render.lineFeed.
  fold Literal.newline.
  destruct (Render.renderLines tree) as [|x l] eqn:E.
  { destruct tree as [nm p ty [cs|] sk st]; discriminate Hlen. }
  split.
  - rewrite splitOn_length, occurrences_concat.
    change (map (Render.occurrences Literal.newline) (x :: l))
      with (map Render.lineFeeds (x :: l)).
    rewrite Hfeeds, <- nodes_counted, <- Hlen. lia.
  - intros Hplain.
    assert (Hlines : forall y, In y (x :: l) ->
                       Render.occurrences Literal.newline y = 0%nat).
    { intros y Hy. apply (in_map Render.lineFeeds) in Hy.
      rewrite Hfeeds in Hy. apply in_map_iff in Hy.
      destruct Hy as (n & Hn & Hin). unfold Render.lineFeeds in *.
      rewrite <- Hn. now apply Hplain. }
    rewrite (splitOn_concat _ l x "" Hlines). split; [reflexivity|].
    cbn [append]. rewrite <- nodes_counted, <- Hlen. reflexivity.
Qed.

Lemma renderTree_one_line_per_node_witness :
  Render.textLines (@Render.renderTree Render.plain Example.pathSpecificTree) =
    @Render.renderLines Render.plain Example.pathSpecificTree /\
  Z.of_nat (length (Render.textLines
                      (@Render.renderTree Render.plain
                         Example.pathSpecificTree))) =
    totalFiles (getSummary Example.pathSpecificTree)
    + totalFolders (getSummary Example.pathSpecificTree).
Proof.
  apply (proj2 (renderTree_one_line_per_node Render.plain
                  Example.pathSpecificTree)).
  intros n Hn. simpl in Hn.
  repeat (destruct Hn as [<- | Hn]); try contradiction; reflexivity.
Defined.

(** X2. The lines come in the order of the nodes, parents before
    children and children in their order; the root's line is its bare
    label, and the line of a node at depth [d] is an indentation of
    [d - 1] four-column units, a connector and the node's label. *)
Theorem renderLines_follow_depth :
  forall (CH : Chalk) (tree : TreeNode),
    map snd (Render.withDepth 0 tree) = subnodes tree /\
    Forall2 Render.lineAt (Render.withDepth 0 tree)
            (Render.renderLines tree).
Proof.
  intros CH tree. split; [apply withDepth_nodes|].
  unfold Render.renderLines. rewrite traverse_fresh.
  destruct tree as [nm p ty [cs|] sk st].
  - rewrite linesOf_present. cbn [Render.withDepth]. constructor.
    + reflexivity.
    + apply indent_lineAt_children; [|constructor].
      clear. induction cs as [|c rest IH]; constructor; auto.
      intros d prefix isLast. apply linesOf_lineAt.
  - simpl. constructor; [reflexivity | constructor].
Qed.

(** X3. A node with children pushes its own line, then the lines of
    every child in order under the child prefix: all children but the
    last with the connector of an inner entry, the last one with the
    closing connector. *)
Theorem traverse_children_in_order :
  forall (CH : Chalk) (nm p : string) (ty : NodeType)
         (cs : list TreeNode) (c : TreeNode) (sk : option SkipReason)
         (st : option NodeStats) (prefix : string) (isLast isRoot : bool)
         (lines : list string),
    let node := mkTreeNode nm p ty (Some (cs ++ [c])%list) sk st in
    let cp := Render.childPrefix prefix isLast isRoot in
    Render.traverse node prefix isLast isRoot lines =
      (lines
       ++ [(Render.lead prefix isLast isRoot ++ Render.label node)%string]
       ++ flat_map (fun x => Render.traverse x cp false false []) cs
       ++ Render.traverse c cp true false [])%list /\
    (forall x, exists rest,
       Render.traverse x cp false false [] =
         (cp ++ "├── " ++ Render.label x)%string :: rest) /\
    (exists rest,
       Render.traverse c cp true false [] =
         (cp ++ "└── " ++ Render.label c)%string :: rest).
Proof.
  intros CH nm p ty cs c sk st prefix isLast isRoot lines node cp.
  split; [|split].
  - rewrite traverse_linesOf. unfold node. rewrite linesOf_present.
    fold node. fold cp. rewrite childLines_last, traverse_fresh.
    f_equal. cbn [app]. f_equal. f_equal.
    apply flat_map_ext. intros x. now rewrite traverse_fresh.
  - intros x. rewrite traverse_fresh.
    destruct (linesOf_head x cp false false) as (rest & ->).
    exists rest. unfold Render.lead. now rewrite append_assoc.
  - rewrite traverse_fresh.
    destruct (linesOf_head c cp true false) as (rest & ->).
    exists rest. unfold Render.lead. now rewrite append_assoc.
Qed.

(** X4. Below the line of a node that is not the root, every line
    begins with the node's prefix followed by a blank unit when the
    node is a last child and by the vertical bar otherwise: the bar
    runs down exactly beside the entries that have a following
    sibling. *)
Theorem traverse_continuation :
  forall (CH : Chalk) (node : TreeNode) (prefix : string) (isLast : bool)
         (line : string),
    In line (tl (Render.traverse node prefix isLast false [])) ->
    String.prefix (prefix ++ (if isLast then "    " else "│   ")) line = true.
Proof.
  intros CH node prefix isLast line. rewrite traverse_fresh.
  destruct node as [nm p ty [cs|] sk st]; [|intros []].
  rewrite linesOf_present. cbn [tl]. unfold Render.childPrefix.
  generalize (prefix ++ (if isLast then "    " else "│   "))%string as cp.
  intros cp. induction cs as [|c rest IH]; [intros []|].
  cbn [Render.childLines]. intros Hin. apply in_app_or in Hin.
  destruct Hin as [Hin | Hin]; [|auto].
  eapply linesOf_prefixed; eassumption.
Qed.

Lemma traverse_continuation_witness :
  String.prefix ("" ++ "│   ") "│   └── 📄 index.ts" = true.
Proof.
  apply (traverse_continuation Render.plain
           (Example.dir "src" "/root/src"
              [Example.leaf "index.ts" "/root/src/index.ts" 200])
           "" false).
  simpl. auto.
Defined.

(** * Further properties of buildTree *)

Section BuiltNodes.

Context {PM : PathModule} {IP : IgnorePackage} {CO : Collation}.

Variable f : fs.FileSystem.
Variable options : TreeOptions.

Lemma rootShape_ok (p : string) (stack : list IgnoreStackItem) (fuel : nat)
    (t : TreeNode) :
  rootShape f options p stack fuel t -> nodeShapeOk t = true.
Proof. intros H. destruct H; reflexivity. Qed.

Lemma built_node_shape (fuel : nat) (p : string)
    (stack : list IgnoreStackItem) (t n : TreeNode) :
  buildTree fuel f p options stack = Some t ->
  In n (subnodes t) -> nodeShapeOk n = true.
Proof.
  intros Ht Hn.
  destruct (subnode_kinds f options _ _ _ _ _ Ht Hn)
    as [(c & ->) | [(c & ->) | (fuel' & q & stk & Hq)]];
    try reflexivity.
  apply buildTree_shape in Hq. eapply rootShape_ok; eassumption.
Qed.

(** A node of the result that has children is the result of the
    invocation for its own path. *)
Lemma parent_is_invocation (fuel : nat) (p : string)
    (stack : list IgnoreStackItem) (t n : TreeNode) (cs : list TreeNode) :
  buildTree fuel f p options stack = Some t ->
  In n (subnodes t) -> children n = Some cs ->
  exists fuel' stk,
    buildTree (S fuel') f (path n) options stk = Some n.
Proof.
  intros Ht Hn Hcs.
  destruct (subnode_kinds f options _ _ _ _ _ Ht Hn)
    as [(c & ->) | [(c & ->) | (fuel' & q & stk & Hq)]];
    try discriminate.
  exists fuel', stk.
  destruct (buildTree_path f options _ _ _ _ Hq) as [-> _]. exact Hq.
Qed.

Lemma child_of_listed (fuel : nat) (p : string)
    (stack : list IgnoreStackItem) (t c : TreeNode) (cs : list TreeNode) :
  buildTree (S fuel) f p options stack = Some t ->
  children t = Some cs -> In c cs ->
  exists items item,
    fs.readdir f p = Some items /\ In item items /\
    path c = join p item /\
    (name c = item \/ name c = basename (join p item)).
Proof.
  intros Ht Hcs Hc.
  pose proof (buildTree_shape f options _ _ _ _ Ht) as Hshape.
  destruct Hshape as [Hl | s Hl Hs | s Hl Hs Hd | Hdir Hr
                      | items Hli Ho | items collected Hli Ho Hcoll];
    simpl in Hcs; try discriminate.
  - injection Hcs as <-. contradiction.
  - injection Hcs as <-.
    apply (proj1 (sort_In _ _)) in Hc.
    apply (proj1 (collectChildren_In _ _ _ Hcoll _)) in Hc.
    destruct Hc as (c0 & Hc0 & Hchild).
    apply candidate_listed in Hc0.
    destruct Hc0 as (item & Hin & Hname & Hpath & _).
    exists items, item. destruct Hli as [_ Hr].
    repeat split; auto.
    + destruct Hchild as [? ? | n' ? ? Hrec | ? ?]; auto.
      apply buildTree_path in Hrec. destruct Hrec as [-> _]. exact Hpath.
    + destruct Hchild as [? ? | n' ? ? Hrec | ? ?]; auto.
      apply buildTree_path in Hrec. destruct Hrec as [_ ->].
      right. now rewrite Hpath.
Qed.

End BuiltNodes.

(** X5. Every node of a tree that [buildTree] returns has one of three
    shapes: a file with [stats] and neither [children] nor marker, a
    folder with [children] and no marker, or a folder with a marker and
    no [children]; no folder has [stats]. *)
Theorem buildTree_node_shapes :
  forall (PM : PathModule) (IP : IgnorePackage) (CO : Collation)
         (f : fs.FileSystem) (options : TreeOptions)
         (stack : list IgnoreStackItem) (p : string) (fuel : nat)
         (t n : TreeNode),
    buildTree fuel f p options stack = Some t ->
    In n (subnodes t) ->
    nodeShapeOk n = true.
Proof.
  intros PM IP CO f options stack p fuel t n.
  apply built_node_shape.
Qed.

Lemma buildTree_node_shapes_witness :
  nodeShapeOk
    (Example.stub "node_modules" "/r/node_modules" skipped_gitignore) = true.
Proof.
  apply (buildTree_node_shapes _ _ _ Example.ignoredEntries
           Example.noOptions [] "/r" 3%nat
           (Example.dir "r" "/r"
              [ Example.stub "node_modules" "/r/node_modules"
                  skipped_gitignore;
                Example.leaf ".gitignore" "/r/.gitignore" 24;
                Example.leaf "included.txt" "/r/included.txt" 7 ])).
  - reflexivity.
  - simpl. auto.
Defined.

(** X6. In a tree that [buildTree] returns, the path of every child, at
    any depth, is the parent's path joined with an entry that [readdir]
    lists for the parent; where the base name of such a path is the
    entry's name, it is the parent's path joined with the child's
    name. *)
Theorem buildTree_child_paths :
  forall (PM : PathModule) (IP : IgnorePackage) (CO : Collation)
         (f : fs.FileSystem) (options : TreeOptions)
         (stack : list IgnoreStackItem) (p : string) (fuel : nat)
         (t n c : TreeNode) (cs : list TreeNode),
    buildTree fuel f p options stack = Some t ->
    In n (subnodes t) -> children n = Some cs -> In c cs ->
    (exists items item,
       fs.readdir f (path n) = Some items /\ In item items /\
       path c = join (path n) item) /\
    (listedNamesKept f -> path c = join (path n) (name c)).
Proof.
  intros PM IP CO f options stack p fuel t n c cs Ht Hn Hcs Hc.
  destruct (parent_is_invocation f options _ _ _ _ _ _ Ht Hn Hcs)
    as (fuel' & stk & Hinv).
  destruct (child_of_listed f options _ _ _ _ _ _ Hinv Hcs Hc)
    as (items & item & Hr & Hin & Hp & Hname).
  split.
  - exists items, item. auto.
  - intros Hkept. rewrite Hp. f_equal.
    destruct Hname as [-> | ->]; [reflexivity|].
    symmetry. eapply Hkept; eassumption.
Qed.

Ltac names_kept table :=
  let p := fresh "p" in
  let Hp := fresh "Hp" in let Ha := fresh "Ha" in
  intros p ? ? Hp Ha;
  unfold table in Hp;
  listed_entries Hp Ha; reflexivity.

Lemma ignoredEntries_names : listedNamesKept Example.ignoredEntries.
Proof. names_kept Example.ignoredEntries. Qed.

Lemma buildTree_child_paths_witness :
  (exists items item,
     fs.readdir Example.ignoredEntries "/r" = Some items /\ In item items /\
     "/r/node_modules" = join "/r" item) /\
  "/r/node_modules" = join "/r" "node_modules".
Proof.
  assert (Ht : buildTree 3 Example.ignoredEntries "/r" Example.noOptions []
               = Some (Example.dir "r" "/r"
                   [ Example.stub "node_modules" "/r/node_modules"
                       skipped_gitignore;
                     Example.leaf ".gitignore" "/r/.gitignore" 24;
                     Example.leaf "included.txt" "/r/included.txt" 7 ]))
    by reflexivity.
  destruct (buildTree_child_paths _ _ _ Example.ignoredEntries
              Example.noOptions [] "/r" 3%nat _ _
              (Example.stub "node_modules" "/r/node_modules"
                 skipped_gitignore)
              _ Ht (or_introl eq_refl) eq_refl (or_introl eq_refl))
    as [Hentry Hname].
  split; [exact Hentry|].
  apply Hname. exact ignoredEntries_names.
Defined.

Section KeptEntries.

Context {PM : PathModule} {IP : IgnorePackage} {CO : Collation}.

(** The children loop pushes one node for each kept entry, in the order
    of the listing, at the entry's path. *)
Lemma collected_paths (f : fs.FileSystem) (stack : list IgnoreStackItem)
    (p : string) (recur : string -> option TreeNode) (items : list string) :
  (forall q n, recur q = Some n -> path n = q) ->
  forall collected,
    collectChildren recur (scanCandidates f stack p items) = Some collected ->
    map path collected = map (join p) (filter (entryKept f stack p) items).
Proof.
  intros Hpath. induction items as [|item rest IH]; intros collected.
  - simpl. now intros [= <-].
  - cbn [scanCandidates filter]. unfold entryKept at 1.
    destruct (fs.lstat f (join p item)) as [s|]; [|apply IH].
    destruct (fs.isSymbolicLink s); [apply IH|].
    cbn [negb andb collectChildren isIgnored cand_stats cand_path].
    destruct (checkIgnored stack (join p item) (fs.isDirectory s)) eqn:Hi,
             (fs.isDirectory s) eqn:Hd; cbn [negb orb].
    + destruct (collectChildren recur _) as [cs|]; [|discriminate].
      simpl. intros [= <-]. simpl. f_equal. now apply IH.
    + apply IH.
    + destruct (recur (join p item)) as [n|] eqn:Hr; [|discriminate].
      destruct (collectChildren recur _) as [cs|]; [|discriminate].
      simpl. intros [= <-]. simpl. f_equal; [now apply Hpath | now apply IH].
    + destruct (collectChildren recur _) as [cs|]; [|discriminate].
      simpl. intros [= <-]. simpl. f_equal. now apply IH.
Qed.


Lemma scanCandidates_none_counts (f : fs.FileSystem)
    (stack : list IgnoreStackItem) (p : string) (items : list string) :
  forallb (fun item => negb (entryCounts f p item)) items = true ->
  scanCandidates f stack p items = [].
Proof.
  induction items as [|item rest IH]; [reflexivity|].
  cbn [forallb scanCandidates]. unfold entryCounts at 1.
  destruct (fs.lstat f (join p item)) as [s|]; [|exact IH].
  destruct (fs.isSymbolicLink s); [exact IH | discriminate].
Qed.

Lemma visibleCount_bounds (f : fs.FileSystem)
    (stack : list IgnoreStackItem) (p : string) (items : list string) :
  0 <= visibleCount (scanCandidates f stack p items)
    <= Z.of_nat (length items).
Proof.
  rewrite visibleCount_entries. split; [lia|].
  apply inj_le. apply filter_length_le.
Qed.


Lemma buildTree_same_patterns (f : fs.FileSystem) (m : option Z)
    (patterns patterns' : option (list string)) (fuel : nat) :
  forall p stack,
    stack <> [] ->
    buildTree fuel f p {| maxLeaf := m; ignorePatterns := patterns |} stack =
    buildTree fuel f p {| maxLeaf := m; ignorePatterns := patterns' |} stack.
Proof.
  induction fuel as [|fuel IH]; intros p stack Hne; [reflexivity|].
  cbn [buildTree].
  destruct (fs.lstat f p) as [s|]; [|reflexivity].
  destruct (fs.isSymbolicLink s); [reflexivity|].
  destruct (negb (fs.isDirectory s)); [reflexivity|].
  assert (Hpush : pushLevel f p {| maxLeaf := m; ignorePatterns := patterns |}
                    stack
                  = pushLevel f p
                      {| maxLeaf := m; ignorePatterns := patterns' |} stack).
  { unfold pushLevel, currentIgnore.
    destruct stack as [|lvl stack]; [now elim Hne | reflexivity]. }
  rewrite Hpush.
  destruct (fs.readdir f p) as [items|]; [|reflexivity].
  unfold overMaxLeaf. cbn [maxLeaf].
  destruct (match m with Some m0 => _ | None => false end); [reflexivity|].
  erewrite collectChildren_ext; [reflexivity|].
  intros c _. apply IH.
  unfold pushLevel. now destruct stack.
Qed.

Lemma buildTree_high_threshold (f : fs.FileSystem) (m : Z)
    (patterns : option (list string)) (fuel : nat) :
  (forall q items, fs.readdir f q = Some items ->
                   Z.of_nat (length items) <= m) ->
  forall p stack,
    buildTree fuel f p {| maxLeaf := Some m; ignorePatterns := patterns |}
      stack =
    buildTree fuel f p {| maxLeaf := None; ignorePatterns := patterns |}
      stack.
Proof.
  intros Hm. induction fuel as [|fuel IH]; intros p stack; [reflexivity|].
  cbn [buildTree].
  destruct (fs.lstat f p) as [s|]; [|reflexivity].
  destruct (fs.isSymbolicLink s); [reflexivity|].
  destruct (negb (fs.isDirectory s)); [reflexivity|].
  change (pushLevel f p {| maxLeaf := Some m; ignorePatterns := patterns |}
            stack)
    with (pushLevel f p {| maxLeaf := None; ignorePatterns := patterns |}
            stack).
  destruct (fs.readdir f p) as [items|] eqn:Hr; [|reflexivity].
  unfold overMaxLeaf. cbn [maxLeaf].
  pose proof (visibleCount_bounds f
                (pushLevel f p {| maxLeaf := None; ignorePatterns := patterns |}
                   stack) p items) as Hv.
  specialize (Hm p items Hr).
  destruct (Z.gtb_spec
              (visibleCount
                 (scanCandidates f
                    (pushLevel f p
                       {| maxLeaf := None; ignorePatterns := patterns |} stack)
                    p items)) m) as [G|G]; [lia|].
  rewrite andb_false_r.
  erewrite collectChildren_ext; [reflexivity|].
  intros c _. apply IH.
Qed.

End KeptEntries.

(** X7. The children of an expanded directory stand, one for one, for
    the listed entries that [lstat] reports, that are not links and
    that are directories or not ignored: their paths are these entries'
    paths, each as often as the entry is listed. *)
Theorem buildTree_children_are_kept_entries :
  forall (PM : PathModule) (IP : IgnorePackage) (CO : Collation)
         (f : fs.FileSystem) (options : TreeOptions)
         (stack : list IgnoreStackItem) (p : string) (items : list string)
         (fuel : nat) (t : TreeNode) (cs : list TreeNode),
    listedDirectory f p items ->
    buildTree fuel f p options stack = Some t ->
    children t = Some cs ->
    Permutation (map path cs)
      (map (join p)
         (filter (entryKept f (pushLevel f p options stack) p) items)).
Proof.
  intros PM IP CO f options stack p items fuel t cs Hl Ht Hcs.
  destruct fuel as [|fuel]; [discriminate|].
  destruct (listed_children f options _ _ _ _ _ _ Hl Ht Hcs)
    as (collected & Hcoll & ->).
  rewrite <- (collected_paths f _ p _ items
                (fun q n H => proj1 (buildTree_path f options fuel q _ n H))
                collected Hcoll).
  apply Permutation_map. apply sort_perm.
Qed.

Lemma buildTree_children_are_kept_entries_witness :
  Permutation
    (map path
       [ Example.stub "node_modules" "/r/node_modules" skipped_gitignore;
         Example.leaf ".gitignore" "/r/.gitignore" 24;
         Example.leaf "included.txt" "/r/included.txt" 7 ])
    (map (join "/r")
       (filter (entryKept Example.ignoredEntries
                  (pushLevel Example.ignoredEntries "/r" Example.noOptions [])
                  "/r")
          [".gitignore"; "ignored.txt"; "included.txt"; "node_modules"])).
Proof.
  assert (Hl : listedDirectory Example.ignoredEntries "/r"
                 [".gitignore"; "ignored.txt"; "included.txt";
                  "node_modules"]).
  { split; [|reflexivity]. exists (Example.regular true 4096). repeat split. }
  assert (Ht : buildTree 3 Example.ignoredEntries "/r" Example.noOptions []
               = Some (Example.dir "r" "/r"
                   [ Example.stub "node_modules" "/r/node_modules"
                       skipped_gitignore;
                     Example.leaf ".gitignore" "/r/.gitignore" 24;
                     Example.leaf "included.txt" "/r/included.txt" 7 ]))
    by reflexivity.
  exact (buildTree_children_are_kept_entries _ _ _ Example.ignoredEntries
           Example.noOptions [] "/r" _ 3%nat _ _ Hl Ht eq_refl).
Defined.

(** X8. A directory in which nothing counts (it is empty, or every
    entry is a link or cannot be stat'ed) gives, unless [maxLeaf] is
    negative, the folder node with an empty [children]: the very node
    that the same directory gives when it cannot be listed. *)
Theorem buildTree_nothing_to_show :
  forall (PM : PathModule) (IP : IgnorePackage) (CO : Collation)
         (f : fs.FileSystem) (options : TreeOptions)
         (stack : list IgnoreStackItem) (p : string) (items : list string)
         (fuel : nat),
    isDirectoryAt f p -> fs.readdir f p = Some items ->
    forallb (fun item => negb (entryCounts f p item)) items = true ->
    (forall m, maxLeaf options = Some m -> 0 <= m) ->
    let empty := {| name := basename p; path := p; type := folder;
                    children := Some []; skipped := None; stats := None |} in
    buildTree (S fuel) f p options stack = Some empty /\
    (forall f', fs.lstat f' p = fs.lstat f p -> fs.readdir f' p = None ->
                buildTree (S fuel) f' p options stack = Some empty).
Proof.
  intros PM IP CO f options stack p items fuel Hd Hr Hnone Hm empty. split.
  - rewrite (buildTree_listed f options fuel p stack items (conj Hd Hr)).
    cbv zeta. rewrite (scanCandidates_none_counts f _ p items Hnone).
    unfold overMaxLeaf, visibleCount. simpl.
    destruct (maxLeaf options) as [m|] eqn:Em; [|reflexivity].
    specialize (Hm m eq_refl).
    destruct (Z.gtb_spec 0 m) as [G|G]; [lia|].
    now rewrite andb_false_r.
  - intros f' Hl' Hr'. apply buildTree_readdir_fails; [|exact Hr'].
    destruct Hd as (s & Hl & Hs & Hdir). exists s. rewrite Hl'. auto.
Qed.

Lemma buildTree_nothing_to_show_witness :
  buildTree 1 Cases.onlyLinks "/r" Example.noOptions [] =
    Some (Example.dir "r" "/r" []).
Proof.
  refine (proj1 (buildTree_nothing_to_show _ _ _ Cases.onlyLinks
                   Example.noOptions [] "/r" ["a"; "gone"] 0%nat
                   _ eq_refl eq_refl _)).
  - exists (Example.regular true 4096). repeat split.
  - discriminate.
Defined.

(** X9. A negative [maxLeaf] collapses every listed directory, the
    root included, even an empty one: the visible count is never below
    zero, so it is always over the threshold. *)
Theorem buildTree_negative_maxLeaf :
  forall (PM : PathModule) (IP : IgnorePackage) (CO : Collation)
         (f : fs.FileSystem) (options : TreeOptions)
         (stack : list IgnoreStackItem) (p : string) (items : list string)
         (m : Z) (fuel : nat),
    listedDirectory f p items -> maxLeaf options = Some m -> m < 0 ->
    buildTree (S fuel) f p options stack =
      Some {| name := basename p; path := p; type := folder;
              children := None; skipped := Some skipped_size;
              stats := None |}.
Proof.
  intros PM IP CO f options stack p items m fuel Hl Hm Hneg.
  rewrite (buildTree_listed f options fuel p stack items Hl). cbv zeta.
  pose proof (visibleCount_bounds f (pushLevel f p options stack) p items)
    as Hv.
  unfold overMaxLeaf. rewrite Hm.
  destruct (Z.eqb_spec m 0) as [E|E]; [lia|].
  destruct (Z.gtb_spec
              (visibleCount
                 (scanCandidates f (pushLevel f p options stack) p items)) m)
    as [G|G]; [reflexivity | lia].
Qed.

Lemma buildTree_negative_maxLeaf_witness :
  buildTree 1 Cases.onlyLinks "/r" (Example.withMaxLeaf (-1)) [] =
    Some (Example.stub "r" "/r" skipped_size).
Proof.
  refine (buildTree_negative_maxLeaf _ _ _ Cases.onlyLinks
            (Example.withMaxLeaf (-1)) [] "/r" ["a"; "gone"] (-1) 0%nat
            _ eq_refl eq_refl).
  split; [|reflexivity]. exists (Example.regular true 4096). repeat split.
Defined.

(** X10. [options.ignorePatterns] act through the root's level only: an
    invocation that receives a stack that is not empty returns the same
    tree whatever the patterns are. *)
Theorem buildTree_patterns_only_at_root :
  forall (PM : PathModule) (IP : IgnorePackage) (CO : Collation)
         (f : fs.FileSystem) (m : option Z)
         (patterns patterns' : option (list string))
         (stack : list IgnoreStackItem) (p : string) (fuel : nat),
    stack <> [] ->
    buildTree fuel f p {| maxLeaf := m; ignorePatterns := patterns |} stack =
    buildTree fuel f p {| maxLeaf := m; ignorePatterns := patterns' |} stack.
Proof.
  intros PM IP CO f m patterns patterns' stack p fuel Hne.
  now apply buildTree_same_patterns.
Qed.

Lemma buildTree_patterns_only_at_root_witness :
  let rootStack := pushLevel Example.largeDir "/r" Example.noOptions [] in
  buildTree 1 Example.largeDir "/r/large-dir"
    {| maxLeaf := None;
       ignorePatterns := Some ["file0.txt"; "file1.txt"; "file2.txt"] |}
    rootStack =
  buildTree 1 Example.largeDir "/r/large-dir"
    {| maxLeaf := None; ignorePatterns := None |} rootStack.
Proof.
  intros rootStack.
  apply (buildTree_patterns_only_at_root _ _ _ Example.largeDir None).
  discriminate.
Defined.

(** X11. A [maxLeaf] that no listing exceeds changes nothing: when every
    directory lists at most [maxLeaf] entries, the tree is the one built
    without [maxLeaf]. *)
Theorem buildTree_maxLeaf_never_reached :
  forall (PM : PathModule) (IP : IgnorePackage) (CO : Collation)
         (f : fs.FileSystem) (m : Z) (patterns : option (list string))
         (stack : list IgnoreStackItem) (p : string) (fuel : nat),
    (forall q items, fs.readdir f q = Some items ->
                     Z.of_nat (length items) <= m) ->
    buildTree fuel f p {| maxLeaf := Some m; ignorePatterns := patterns |}
      stack =
    buildTree fuel f p {| maxLeaf := None; ignorePatterns := patterns |}
      stack.
Proof.
  intros PM IP CO f m patterns stack p fuel Hm.
  now apply buildTree_high_threshold.
Qed.

Lemma onlyLinks_small :
  forall q items, fs.readdir Cases.onlyLinks q = Some items ->
                  Z.of_nat (length items) <= 2.
Proof.
  intros q items H. unfold Cases.onlyLinks in H.
  cbn [fs.readdir Example.observe Example.lookup] in H.
  split_lookup; try discriminate H; injection H as <-; simpl; lia.
Qed.

Lemma buildTree_maxLeaf_never_reached_witness :
  buildTree 2 Cases.onlyLinks "/r" (Example.withMaxLeaf 2) [] =
  buildTree 2 Cases.onlyLinks "/r" Example.noOptions [].
Proof.
  exact (buildTree_maxLeaf_never_reached _ _ _ Cases.onlyLinks 2 None []
           "/r" 2%nat onlyLinks_small).
Defined.


(** * Further properties of getSummary *)

Lemma getSummary_tally (tree : TreeNode) :
  getSummary tree = tally (subnodes tree).
Proof.
  unfold getSummary. now rewrite traverse_tally, addSummary_empty_l.
Qed.

Lemma countIf_perm (q : TreeNode -> bool) (l l' : list TreeNode) :
  Permutation l l' -> countIf q l = countIf q l'.
Proof.
  unfold countIf. intros H. f_equal.
  induction H as [| x l l' _ IH | x y l | l l' l'' _ IH1 _ IH2].
  - reflexivity.
  - cbn [filter]. destruct (q x); cbn [length]; now rewrite IH.
  - cbn [filter]. destruct (q x), (q y); reflexivity.
  - now rewrite IH1.
Qed.

Lemma tally_perm (l l' : list TreeNode) :
  Permutation l l' -> tally l = tally l'.
Proof.
  intros H. unfold tally.
  now rewrite (countIf_perm isFile _ _ H), (countIf_perm isFolder _ _ H),
    (countIf_perm (fun n => isFolder n && hasSkip skipped_gitignore n) _ _ H),
    (countIf_perm (fun n => isFolder n && hasSkip skipped_size n) _ _ H).
Qed.

Lemma fold_summaries (cs : list TreeNode) :
  forall s,
    fold_left addSummary (map getSummary cs) s =
    addSummary s (tally (flat_map subnodes cs)).
Proof.
  induction cs as [|c rest IH]; intros s; cbn [map fold_left flat_map].
  - now rewrite tally_nil, addSummary_empty_r.
  - now rewrite IH, getSummary_tally, tally_app, addSummary_assoc.
Qed.

(** X13. The summary of a node with children is the summary of the node
    taken alone, to which the summaries of the children are added one
    after the other. *)
Theorem getSummary_adds_children :
  forall (nm p : string) (ty : NodeType) (cs : list TreeNode)
         (sk : option SkipReason) (st : option NodeStats),
    getSummary (mkTreeNode nm p ty (Some cs) sk st) =
    fold_left addSummary (map getSummary cs)
      (getSummary (mkTreeNode nm p ty None sk st)).
Proof.
  intros nm p ty cs sk st.
  rewrite fold_summaries, !getSummary_tally.
  cbn [subnodes].
  change (mkTreeNode nm p ty (Some cs) sk st :: flat_map subnodes cs)
    with ([mkTreeNode nm p ty (Some cs) sk st] ++ flat_map subnodes cs)%list.
  rewrite tally_app. f_equal.
  destruct ty, sk as [[|]|]; reflexivity.
Qed.

Section SummaryOfBuiltTrees.

Context {PM : PathModule} {IP : IgnorePackage}.

Lemma Some_eq {A : Type} (a b : A) : Some a = Some b -> a = b.
Proof. congruence. Qed.

Lemma childrenTally_cons (x : TreeNode) (l : list TreeNode) :
  childrenTally (x :: l) =
  addSummary (tally (subnodes x)) (childrenTally l).
Proof.
  unfold childrenTally. cbn [flat_map]. apply tally_app.
Qed.

Lemma collectChildren_same_tally (r1 r2 : string -> option TreeNode)
    (candidates : list Candidate) :
  (forall q, option_map getSummary (r1 q) = option_map getSummary (r2 q)) ->
  option_map childrenTally (collectChildren r1 candidates) =
  option_map childrenTally (collectChildren r2 candidates).
Proof.
  intros H.
  induction candidates as [|c rest IH]; [reflexivity|].
  cbn [collectChildren].
  destruct (isIgnored c), (fs.isDirectory (cand_stats c)); auto.
  - destruct (collectChildren r1 rest) as [cs1|],
             (collectChildren r2 rest) as [cs2|];
      cbn [option_map] in *; try discriminate; auto.
    apply Some_eq in IH. f_equal.
    now rewrite !childrenTally_cons, IH.
  - specialize (H (cand_path c)).
    destruct (r1 (cand_path c)) as [n1|], (r2 (cand_path c)) as [n2|];
      cbn [option_map] in H; try discriminate; auto.
    apply Some_eq in H. rewrite !getSummary_tally in H.
    destruct (collectChildren r1 rest) as [cs1|],
             (collectChildren r2 rest) as [cs2|];
      cbn [option_map] in *; try discriminate; auto.
    apply Some_eq in IH. f_equal.
    now rewrite !childrenTally_cons, H, IH.
  - destruct (collectChildren r1 rest) as [cs1|],
             (collectChildren r2 rest) as [cs2|];
      cbn [option_map] in *; try discriminate; auto.
    apply Some_eq in IH. f_equal.
    now rewrite !childrenTally_cons, IH.
Qed.

Lemma summary_of_expanded (CO : Collation) (p : string)
    (cs : list TreeNode) :
  getSummary (expandedFolder p (@sort CO cs)) =
  addSummary (tally [expandedFolder p []]) (childrenTally cs).
Proof.
  rewrite getSummary_tally. unfold expandedFolder, childrenTally.
  cbn [subnodes].
  change (?x :: flat_map subnodes ?l) with ([x] ++ flat_map subnodes l)%list.
  rewrite tally_app. f_equal.
  apply tally_perm. apply Permutation_flat_map. apply sort_perm.
Qed.

Lemma summary_same_collation (CO1 CO2 : Collation) (f : fs.FileSystem)
    (options : TreeOptions) (fuel : nat) :
  forall p stack,
    option_map getSummary (@buildTree PM IP CO1 fuel f p options stack) =
    option_map getSummary (@buildTree PM IP CO2 fuel f p options stack).
Proof.
  induction fuel as [|fuel IH]; intros p stack; [reflexivity|].
  cbn [buildTree].
  destruct (fs.lstat f p) as [s|]; [|reflexivity].
  destruct (fs.isSymbolicLink s); [reflexivity|].
  destruct (negb (fs.isDirectory s)); [reflexivity|].
  destruct (fs.readdir f p) as [items|]; [|reflexivity].
  destruct (overMaxLeaf _ _); [reflexivity|].
  pose proof (collectChildren_same_tally
                (fun q => @buildTree PM IP CO1 fuel f q options
                            (pushLevel f p options stack))
                (fun q => @buildTree PM IP CO2 fuel f q options
                            (pushLevel f p options stack))
                (scanCandidates f (pushLevel f p options stack) p items)
                (fun q => IH q _)) as H.
  destruct (collectChildren _ _) as [cs1|],
           (collectChildren _ _) as [cs2|];
    cbn [option_map] in *; try discriminate; auto.
  apply Some_eq in H. f_equal.
  change (getSummary (expandedFolder p (@sort CO1 cs1)) =
          getSummary (expandedFolder p (@sort CO2 cs2))).
  now rewrite !summary_of_expanded, H.
Qed.

End SummaryOfBuiltTrees.

(** X14. The summary of the tree that [buildTree] returns does not
    depend on how [localeCompare] orders the names: two runtimes that
    collate differently get the same four counts. *)
Theorem getSummary_whatever_the_collation :
  forall (PM : PathModule) (IP : IgnorePackage) (CO1 CO2 : Collation)
         (f : fs.FileSystem) (options : TreeOptions)
         (stack : list IgnoreStackItem) (p : string) (fuel : nat),
    option_map getSummary (@buildTree PM IP CO1 fuel f p options stack) =
    option_map getSummary (@buildTree PM IP CO2 fuel f p options stack).
Proof.
  intros PM IP CO1 CO2 f options stack p fuel.
  apply summary_same_collation.
Qed.

Section SkipCounters.

Context {PM : PathModule} {IP : IgnorePackage} {CO : Collation}.

Lemma countIf_same (q1 q2 : TreeNode -> bool) (l : list TreeNode) :
  (forall n, In n l -> q1 n = q2 n) -> countIf q1 l = countIf q2 l.
Proof.
  intros H. unfold countIf. now rewrite (filter_ext_in _ _ _ H).
Qed.

Lemma countIf_none (q : TreeNode -> bool) (l : list TreeNode) :
  (forall n, In n l -> q n = false) -> countIf q l = 0.
Proof.
  intros H. rewrite (countIf_same q (fun _ => false) l H).
  unfold countIf. f_equal.
  clear H. induction l as [|n l IH]; [reflexivity | exact IH].
Qed.

Lemma marked_is_folder (n : TreeNode) (r : SkipReason) :
  nodeShapeOk n = true -> isFolder n && hasSkip r n = hasSkip r n.
Proof.
  unfold nodeShapeOk, isFolder, hasSkip.
  destruct (type n), (children n), (skipped n) as [[|]|], (stats n), r;
    simpl; intros H; try reflexivity; discriminate.
Qed.

Lemma no_size_marker (f : fs.FileSystem) (options : TreeOptions)
    (fuel : nat) (p : string) (stack : list IgnoreStackItem)
    (t n : TreeNode) :
  (forall v, overMaxLeaf options v = false) ->
  buildTree fuel f p options stack = Some t ->
  In n (subnodes t) -> hasSkip skipped_size n = false.
Proof.
  intros Hnever Ht Hn.
  destruct (subnode_kinds f options _ _ _ _ _ Ht Hn)
    as [(c & ->) | [(c & ->) | (fuel' & q & stk & Hq)]];
    try reflexivity.
  apply buildTree_shape in Hq.
  destruct Hq as [| | | | items _ Ho |]; try reflexivity.
  rewrite Hnever in Ho. discriminate.
Qed.

End SkipCounters.

(** X15. On a tree that [buildTree] returns, the two skip counters of
    the summary are the numbers of marked nodes: no marker sits on a
    file, so none is passed over.  When [maxLeaf] is absent or 0, the
    counter [skippedSize] is 0. *)
Theorem getSummary_of_built_tree :
  forall (PM : PathModule) (IP : IgnorePackage) (CO : Collation)
         (f : fs.FileSystem) (options : TreeOptions)
         (stack : list IgnoreStackItem) (p : string) (fuel : nat)
         (t : TreeNode),
    buildTree fuel f p options stack = Some t ->
    skippedGitignore (getSummary t) =
      countIf (hasSkip skipped_gitignore) (subnodes t) /\
    skippedSize (getSummary t) =
      countIf (hasSkip skipped_size) (subnodes t) /\
    (maxLeaf options = None \/ maxLeaf options = Some 0 ->
     skippedSize (getSummary t) = 0).
Proof.
  intros PM IP CO f options stack p fuel t Ht.
  rewrite getSummary_tally. cbn [tally skippedGitignore skippedSize].
  assert (Hshape : forall r n, In n (subnodes t) ->
            isFolder n && hasSkip r n = hasSkip r n).
  { intros r n Hn. apply marked_is_folder.
    eapply built_node_shape; eassumption. }
  rewrite (countIf_same _ (hasSkip skipped_gitignore) _
             (Hshape skipped_gitignore)).
  rewrite (countIf_same _ (hasSkip skipped_size) _ (Hshape skipped_size)).
  split; [reflexivity|]. split; [reflexivity|].
  intros Hm. apply countIf_none. intros n Hn.
  eapply no_size_marker; [|eassumption..].
  intros v. unfold overMaxLeaf. destruct Hm as [-> | ->]; reflexivity.
Qed.

Lemma getSummary_of_built_tree_witness :
  skippedGitignore
    (getSummary
       (Example.dir "r" "/r"
          [ Example.stub "node_modules" "/r/node_modules" skipped_gitignore;
            Example.leaf ".gitignore" "/r/.gitignore" 24;
            Example.leaf "included.txt" "/r/included.txt" 7 ])) =
  countIf (hasSkip skipped_gitignore)
    (subnodes
       (Example.dir "r" "/r"
          [ Example.stub "node_modules" "/r/node_modules" skipped_gitignore;
            Example.leaf ".gitignore" "/r/.gitignore" 24;
            Example.leaf "included.txt" "/r/included.txt" 7 ])).
Proof.
  assert (Ht : buildTree 3 Example.ignoredEntries "/r" Example.noOptions []
               = Some (Example.dir "r" "/r"
                   [ Example.stub "node_modules" "/r/node_modules"
                       skipped_gitignore;
                     Example.leaf ".gitignore" "/r/.gitignore" 24;
                     Example.leaf "included.txt" "/r/included.txt" 7 ]))
    by reflexivity.
  exact (proj1 (getSummary_of_built_tree _ _ _ Example.ignoredEntries
                  Example.noOptions [] "/r" 3%nat _ Ht)).
Defined.

(** * Properties of the verification script *)

Lemma setAdd_In (x y : string) (s : list string) :
  In x (Verify.setAdd y s) <-> x = y \/ In x s.
Proof.
  unfold Verify.setAdd.
  destruct (existsb (String.eqb y) s) eqn:E.
  - split; [auto|]. intros [-> | H]; [|exact H].
    apply existsb_exists in E. destruct E as (z & Hz & Ez).
    apply String.eqb_eq in Ez. now subst.
  - rewrite in_app_iff. simpl. split.
    + intros [H | [<- | []]]; auto.
    + intros [-> | H]; auto.
Qed.

Lemma setAdd_NoDup (y : string) (s : list string) :
  NoDup s -> NoDup (Verify.setAdd y s).
Proof.
  intros H. unfold Verify.setAdd.
  destruct (existsb (String.eqb y) s) eqn:E; [exact H|].
  apply NoDup_app; auto.
  - constructor; [intros [] | constructor].
  - intros x Hx [Hy | []].
    assert (existsb (String.eqb y) s = true); [|congruence].
    apply existsb_exists. exists x. split; [exact Hx|].
    subst x. apply String.eqb_refl.
Qed.

Lemma setHas_In (s : list string) (x : string) :
  Verify.setHas s x = true <-> In x s.
Proof.
  unfold Verify.setHas. rewrite existsb_exists. split.
  - intros (z & Hz & Ez). apply String.eqb_eq in Ez. now subst.
  - intros H. exists x. split; [exact H | apply String.eqb_refl].
Qed.

Section CollectFiles.

Context {PM : PathModule}.

Variable resolvedTarget : string.

Lemma collectFiles_folder (nm p : string) (cs : list TreeNode)
    (sk : option SkipReason) (st : option NodeStats)
    (treeFiles : list string) :
  Verify.collectFiles resolvedTarget (mkTreeNode nm p folder (Some cs) sk st)
    treeFiles =
  fold_left (fun acc c => Verify.collectFiles resolvedTarget c acc) cs
    treeFiles.
Proof. reflexivity. Qed.

Lemma collectFiles_In (node : TreeNode) :
  (forall n, In n (subnodes node) -> type n = file -> children n = None) ->
  forall treeFiles x,
    In x (Verify.collectFiles resolvedTarget node treeFiles) <->
    In x treeFiles \/
    exists n, In n (subnodes node) /\ type n = file /\
              x = relative resolvedTarget (path n).
Proof.
  induction node as [nm p ty sk st | nm p ty cs sk st IH]
    using TreeNode_nested_ind; intros Hleaf treeFiles x.
  - destruct ty; cbn [Verify.collectFiles subnodes].
    + rewrite setAdd_In. split.
      * intros [-> | H]; [right | now left].
        eexists. split; [now left|]. split; reflexivity.
      * intros [H | (n & [<- | []] & _ & ->)]; auto.
    + split; [auto|].
      intros [H | (n & [<- | []] & Hty & _)]; [exact H | discriminate].
  - destruct ty.
    + specialize (Hleaf _ (or_introl eq_refl) eq_refl). discriminate.
    + rewrite collectFiles_folder. cbn [subnodes].
      assert (Hsub : forall c, In c cs -> forall n, In n (subnodes c) ->
                       type n = file -> children n = None).
      { intros c Hc n Hn. apply Hleaf. right.
        apply in_flat_map. eauto. }
      clear Hleaf.
      assert (Hfold : forall acc,
                In x (fold_left
                        (fun acc c => Verify.collectFiles resolvedTarget c acc)
                        cs acc) <->
                In x acc \/
                exists n, In n (flat_map subnodes cs) /\ type n = file /\
                          x = relative resolvedTarget (path n)).
      { induction IH as [|c rest Hc _ IHrest]; intros acc.
        - cbn [fold_left flat_map]. split; [auto|].
          intros [H | (n & [] & _)]. exact H.
        - cbn [fold_left flat_map].
          rewrite IHrest by (intros c' Hc'; apply Hsub; now right).
          rewrite (Hc (Hsub c (or_introl eq_refl))).
          split.
          + intros [[H | (n & Hn & Hty & E)] | (n & Hn & Hty & E)].
            * now left.
            * right. exists n. split; [|now split].
              apply in_or_app. now left.
            * right. exists n. split; [|now split].
              apply in_or_app. now right.
          + intros [H | (n & Hn & Hty & E)]; [now do 2 left|].
            apply in_app_or in Hn. destruct Hn as [Hn | Hn].
            * left. right. exists n. now repeat split.
            * right. exists n. now repeat split. }
      rewrite Hfold. split.
      * intros [H | (n & Hn & Hty & E)]; [now left|].
        right. exists n. split; [now right | now split].
      * intros [H | (n & [<- | Hn] & Hty & E)]; [now left | discriminate |].
        right. exists n. now repeat split.
Qed.

Lemma collectFiles_NoDup (node : TreeNode) :
  forall treeFiles,
    NoDup treeFiles ->
    NoDup (Verify.collectFiles resolvedTarget node treeFiles).
Proof.
  induction node as [nm p ty sk st | nm p ty cs sk st IH]
    using TreeNode_nested_ind; intros treeFiles Hnd.
  - destruct ty; cbn [Verify.collectFiles]; [now apply setAdd_NoDup | exact Hnd].
  - destruct ty; [now apply setAdd_NoDup|].
    rewrite collectFiles_folder. revert treeFiles Hnd.
    induction IH as [|c rest Hc _ IHrest]; intros treeFiles Hnd; auto.
    cbn [fold_left]. apply IHrest. now apply Hc.
Qed.

End CollectFiles.

(** X16. On a tree whose file nodes have no children, [collectFiles]
    leaves in the set, without repetition, what was in it and the
    paths, relative to the target, of the file nodes of the tree. *)
Theorem collectFiles_collects_the_files :
  forall (PM : PathModule) (resolvedTarget : string) (tree : TreeNode)
         (treeFiles : list string),
    (forall n, In n (subnodes tree) -> type n = file -> children n = None) ->
    NoDup treeFiles ->
    NoDup (Verify.collectFiles resolvedTarget tree treeFiles) /\
    (forall x,
       In x (Verify.collectFiles resolvedTarget tree treeFiles) <->
       In x treeFiles \/
       exists n, In n (subnodes tree) /\ type n = file /\
                 x = relative resolvedTarget (path n)).
Proof.
  intros PM resolvedTarget tree treeFiles Hleaf Hnd. split.
  - now apply collectFiles_NoDup.
  - now apply collectFiles_In.
Qed.

Lemma collectFiles_collects_the_files_witness :
  NoDup (Verify.collectFiles "/r" Example.pathSpecificTree []) /\
  (forall x,
     In x (Verify.collectFiles "/r" Example.pathSpecificTree []) <->
     In x [] \/
     exists n, In n (subnodes Example.pathSpecificTree) /\ type n = file /\
               x = relative "/r" (path n)).
Proof.
  apply (collectFiles_collects_the_files Posix.pathModule "/r"
           Example.pathSpecificTree []).
  - intros n Hn. simpl in Hn.
    repeat (destruct Hn as [<- | Hn]); try contradiction;
      intros Hty; try reflexivity; discriminate Hty.
  - constructor.
Defined.

Section ReportedFiles.

Context {PM : PathModule} {IP : IgnorePackage} {CO : Collation}.

(** The result of an invocation for a directory is a folder. *)
Lemma directory_gives_folder (f : fs.FileSystem) (options : TreeOptions)
    (fuel : nat) (p : string) (stack : list IgnoreStackItem) (t : TreeNode)
    (s : fs.Stats) :
  fs.lstat f p = Some s -> fs.isSymbolicLink s = false ->
  fs.isDirectory s = true ->
  buildTree fuel f p options stack = Some t -> type t = folder.
Proof.
  intros Hl Hs Hd Ht. destruct fuel as [|fuel]; [discriminate|].
  apply buildTree_shape in Ht.
  destruct Ht; try reflexivity; congruence.
Qed.

Lemma file_node_origin (f : fs.FileSystem) (options : TreeOptions)
    (fuel : nat) (root : string) (t n : TreeNode) :
  buildTree fuel f root options [] = Some t ->
  In n (descendants t) -> type n = file ->
  exists names items a s,
    let q := descend root names in
    let stk := pushLevel f q options (stackAt f options [] root names) in
    fs.readdir f q = Some items /\ In a items /\ path n = join q a /\
    fs.lstat f (join q a) = Some s /\ fs.isSymbolicLink s = false /\
    fs.isDirectory s = false /\
    checkIgnored stk (join q a) false = false.
Proof.
  intros Ht Hn Hty.
  destruct (descendant_origin f options _ _ _ _ _ Ht Hn)
    as (names & items & c & fuel' & _ & [_ Hr] & Hc & Hch).
  apply candidate_listed in Hc.
  destruct Hc as (a & Ha & _ & Hcp & Hl & Hs & Hi).
  exists names, items, a, (cand_stats c). cbv zeta.
  destruct Hch as [Hig Hd | n' Hig Hd Hrec | Hig Hd].
  - discriminate.
  - rewrite (directory_gives_folder f options _ _ _ _ _ Hl Hs Hd Hrec) in Hty.
    discriminate.
  - rewrite <- Hcp. cbn [fileNode path].
    rewrite Hd in Hi. rewrite <- Hi. auto 10.
Qed.

End ReportedFiles.

(** X17. Run on the tree that [buildTree] returns for the target, the
    script reports nothing but regular files that no level of the
    ignore stack excludes, each under its path relative to the target;
    the one exception is the target itself, reported when it is not a
    directory. *)
Theorem collectFiles_reports_visible_files :
  forall (PM : PathModule) (IP : IgnorePackage) (CO : Collation)
         (f : fs.FileSystem) (options : TreeOptions) (root : string)
         (fuel : nat) (t : TreeNode) (x : string),
    buildTree fuel f root options [] = Some t ->
    In x (Verify.collectFiles root t []) ->
    (x = relative root root /\ ~ isDirectoryAt f root) \/
    exists names items a s,
      let q := descend root names in
      let stk := pushLevel f q options (stackAt f options [] root names) in
      fs.readdir f q = Some items /\ In a items /\
      x = relative root (join q a) /\
      fs.lstat f (join q a) = Some s /\ fs.isSymbolicLink s = false /\
      fs.isDirectory s = false /\
      checkIgnored stk (join q a) false = false.
Proof.
  intros PM IP CO f options root fuel t x Ht Hx.
  apply collectFiles_In in Hx.
  - destruct Hx as [[] | (n & Hn & Hty & ->)].
    rewrite subnodes_root in Hn. destruct Hn as [<- | Hn].
    + left. destruct (buildTree_path f options _ _ _ _ Ht) as [-> _].
      split; [reflexivity|].
      intros (s & Hl & Hs & Hd).
      rewrite (directory_gives_folder f options _ _ _ _ _ Hl Hs Hd Ht) in Hty.
      discriminate.
    + right.
      destruct (file_node_origin f options _ _ _ _ Ht Hn Hty)
        as (names & items & a & s & Hr & Ha & Hp & Hl & Hs & Hd & Hi).
      exists names, items, a, s. cbv zeta. rewrite Hp.
      repeat split; assumption.
  - intros n Hn Hty.
    pose proof (built_node_shape f options _ _ _ _ _ Ht Hn) as Hshape.
    unfold nodeShapeOk in Hshape. rewrite Hty in Hshape.
    now destruct (children n).
Qed.

Lemma collectFiles_reports_visible_files_witness :
  ("src/keep.txt" = relative "/r" "/r" /\
   ~ isDirectoryAt Example.pathSpecific "/r") \/
  exists names items a s,
    let q := descend "/r" names in
    let stk := pushLevel Example.pathSpecific q Example.noOptions
                 (stackAt Example.pathSpecific Example.noOptions [] "/r"
                    names) in
    fs.readdir Example.pathSpecific q = Some items /\ In a items /\
    "src/keep.txt" = relative "/r" (join q a) /\
    fs.lstat Example.pathSpecific (join q a) = Some s /\
    fs.isSymbolicLink s = false /\ fs.isDirectory s = false /\
    checkIgnored stk (join q a) false = false.
Proof.
  apply (collectFiles_reports_visible_files _ _ _ Example.pathSpecific
           Example.noOptions "/r" 3%nat Example.pathSpecificTree).
  - reflexivity.
  - simpl. auto.
Defined.

(** X18. The script announces success exactly when git's list and the
    tree's list hold the same paths. *)
Theorem listsMatch_same_paths :
  forall gitFiles treeFiles : list string,
    Verify.listsMatch gitFiles treeFiles = true <->
    (forall x, In x gitFiles <-> In x treeFiles).
Proof.
  intros gitFiles treeFiles. unfold Verify.listsMatch.
  rewrite andb_true_iff, !Nat.eqb_eq, !length_zero_iff_nil.
  unfold Verify.missingInTree, Verify.extraInTree.
  assert (Hnil : forall (l s : list string),
            filter (fun x => negb (Verify.setHas s x)) l = [] <->
            (forall x, In x l -> In x s)).
  { intros l s. split.
    - intros H x Hx. apply setHas_In.
      destruct (Verify.setHas s x) eqn:E; [reflexivity|].
      assert (Hin : In x (filter (fun y => negb (Verify.setHas s y)) l)).
      { apply filter_In. split; [exact Hx | now rewrite E]. }
      rewrite H in Hin. contradiction.
    - intros H. destruct (filter _ l) as [|y rest] eqn:E; [reflexivity|].
      assert (Hin : In y (filter (fun x => negb (Verify.setHas s x)) l))
        by (rewrite E; now left).
      apply filter_In in Hin. destruct Hin as [Hy Hneg].
      apply H, setHas_In in Hy. rewrite Hy in Hneg. discriminate. }
  rewrite !Hnil. split.
  - intros [H1 H2] x. split; auto.
  - intros H. split; intros x; apply H.
Qed.

(** * Properties of the command line *)

Lemma includesEquals_append (u v : string) :
  Main.includesEquals (u ++ v) =
  Main.includesEquals u || Main.includesEquals v.
Proof.
  induction u as [|c u IH]; simpl; [reflexivity|].
  now rewrite IH, orb_assoc.
Qed.

Lemma append_empty_r (s : string) : s ++ "" = s.
Proof.
  induction s as [|c s IH]; simpl; [reflexivity | now rewrite IH].
Qed.

Lemma splitOn_plain (acc v : string) :
  Main.includesEquals v = false ->
  Literal.splitOn Main.equals acc v = [acc ++ v].
Proof.
  revert acc. induction v as [|c v IH]; intros acc H; simpl in *.
  - now rewrite append_empty_r.
  - apply orb_false_iff in H. destruct H as [Hc Hv].
    rewrite Hc, IH by exact Hv.
    now rewrite append_assoc.
Qed.

Lemma splitOn_first (acc v w : string) :
  Main.includesEquals v = false ->
  Literal.splitOn Main.equals acc (v ++ String Main.equals w) =
  (acc ++ v) :: Literal.splitOn Main.equals "" w.
Proof.
  revert acc. induction v as [|c v IH]; intros acc H; simpl in *.
  - now rewrite append_empty_r.
  - apply orb_false_iff in H. destruct H as [Hc Hv].
    rewrite Hc, IH by exact Hv.
    now rewrite append_assoc.
Qed.

Lemma splitOn_second (flag v : string) :
  Main.includesEquals flag = false ->
  exists more,
    Literal.splitOn Main.equals "" (flag ++ String Main.equals v) =
    flag :: more /\
    (Main.includesEquals v = false -> more = [v]) /\
    (forall u w, v = u ++ String Main.equals w ->
                 Main.includesEquals u = false ->
                 nth_error more 0 = Some u).
Proof.
  intros Hf. rewrite (splitOn_first "" flag v Hf). simpl.
  eexists. split; [reflexivity|]. split.
  - intros Hv. now rewrite splitOn_plain.
  - intros u w -> Hu. now rewrite splitOn_first.
Qed.

Section ArgumentFacts.

Variable Num : Type.
Variable parseInt : string -> Num.

Lemma flag_with_value (flag v : string) (rest : list string)
    (st : Main.Settings Num) :
  flag = "--maxLeaf" \/ flag = "-m" ->
  exists more,
    Literal.splitOn Main.equals "" (flag ++ String Main.equals v) =
    flag :: more /\
    (Main.includesEquals v = false -> more = [v]) /\
    (forall u w, v = u ++ String Main.equals w ->
                 Main.includesEquals u = false ->
                 nth_error more 0 = Some u) /\
    Main.parseArgs Num parseInt ((flag ++ String Main.equals v) :: rest) st =
    Main.parseArgs Num parseInt rest (Main.assignMaxLeaf Num parseInt (nth_error more 0) st).
Proof.
  intros Hflag.
  assert (Hf : Main.includesEquals flag = false)
    by (destruct Hflag as [-> | ->]; reflexivity).
  destruct (splitOn_second flag v Hf) as (more & Hsplit & Hplain & Hcut).
  exists more. repeat split; try assumption.
  cbn [Main.parseArgs].
  assert (Hs : Main.isSummaryFlag (flag ++ String Main.equals v) = false)
    by (destruct Hflag as [-> | ->]; reflexivity).
  assert (Hm : Main.isMaxLeafFlag (flag ++ String Main.equals v) = true).
  { unfold Main.isMaxLeafFlag. destruct Hflag as [-> | ->].
    - change ("--maxLeaf" ++ String Main.equals v) with ("--maxLeaf=" ++ v).
      rewrite prefix_append. now rewrite orb_true_r.
    - change ("-m" ++ String Main.equals v) with ("-m=" ++ v).
      rewrite prefix_append. now rewrite orb_true_r. }
  assert (Hi : Main.includesEquals (flag ++ String Main.equals v) = true).
  { rewrite includesEquals_append. simpl. now rewrite orb_true_r. }
  rewrite Hs, Hm, Hi, Hsplit. reflexivity.
Qed.

Lemma bare_flag (flag val : string) (rest : list string)
    (st : Main.Settings Num) :
  flag = "--maxLeaf" \/ flag = "-m" ->
  Main.parseArgs Num parseInt (flag :: val :: rest) st =
  Main.parseArgs Num parseInt rest (Main.assignMaxLeaf Num parseInt (Some val) st).
Proof.
  intros [-> | ->]; reflexivity.
Qed.

Lemma not_an_option (arg : string) :
  String.prefix "-" arg = false ->
  Main.isSummaryFlag arg = false /\ Main.isMaxLeafFlag arg = false.
Proof.
  destruct arg as [|c arg]; [intros _; split; reflexivity|].
  cbn [String.prefix]. intros H.
  assert (N : "-"%char <> c).
  { intros E. destruct (ascii_dec "-" c); [|contradiction].
    now destruct arg. }
  assert (Hc : Ascii.eqb c "-" = false) by (apply Ascii.eqb_neq; congruence).
  unfold Main.isSummaryFlag, Main.isMaxLeafFlag.
  cbn [String.eqb String.prefix]. rewrite Hc.
  destruct (ascii_dec "-" c); [contradiction|]. split; reflexivity.
Qed.

Lemma assignMaxLeaf_keeps (val : option string) (st : Main.Settings Num) :
  Main.targetDir (Main.assignMaxLeaf Num parseInt val st) = Main.targetDir st /\
  Main.showSummary (Main.assignMaxLeaf Num parseInt val st) = Main.showSummary st /\
  (Main.maxLeaf (Main.assignMaxLeaf Num parseInt val st) = Main.maxLeaf st \/
   exists v, val = Some v /\ v <> "" /\
             Main.maxLeaf (Main.assignMaxLeaf Num parseInt val st) = Some (parseInt v)).
Proof.
  destruct val as [v|]; simpl; [|auto].
  destruct (String.eqb_spec v ""); simpl; [auto|].
  repeat split. right. exists v. auto.
Qed.

End ArgumentFacts.

(** X19. An option and its value may be written as one argument with
    [=] between them or as two arguments: for a value that holds no
    [=], [--maxLeaf=v] and [-m=v] leave the same settings as
    [--maxLeaf v] and [-m v], whatever follows. *)
Theorem parseArgs_two_spellings :
  forall (Num : Type) (parseInt : string -> Num) (flag v : string)
         (rest : list string) (st : Main.Settings Num),
    flag = "--maxLeaf" \/ flag = "-m" ->
    Main.includesEquals v = false ->
    Main.parseArgs Num parseInt ((flag ++ "=" ++ v) :: rest) st =
    Main.parseArgs Num parseInt (flag :: v :: rest) st.
Proof.
  intros Num parseInt flag v rest st Hflag Hv.
  destruct (flag_with_value Num parseInt flag v rest st Hflag)
    as (more & _ & Hplain & _ & Hrun).
  change (flag ++ "=" ++ v) with (flag ++ String Main.equals v).
  rewrite Hrun, (Hplain Hv). symmetry. now apply bare_flag.
Qed.

Lemma parseArgs_two_spellings_witness :
  Main.parseArgs (option Z) Main.parseDecimal (("-m" ++ "=" ++ "250") :: ["src"])
    (Main.initial (option Z)) =
  Main.parseArgs (option Z) Main.parseDecimal ("-m" :: "250" :: ["src"]) (Main.initial (option Z)).
Proof.
  apply (parseArgs_two_spellings (option Z) Main.parseDecimal "-m" "250" ["src"]
           (Main.initial (option Z))).
  - right. reflexivity.
  - reflexivity.
Defined.

(** X20. In the one-argument spelling the value ends at the next [=]:
    what follows a second [=] in the argument is dropped. *)
Theorem parseArgs_value_ends_at_equals :
  forall (Num : Type) (parseInt : string -> Num) (flag v w : string)
         (rest : list string) (st : Main.Settings Num),
    flag = "--maxLeaf" \/ flag = "-m" ->
    Main.includesEquals v = false ->
    Main.parseArgs Num parseInt ((flag ++ "=" ++ v ++ "=" ++ w) :: rest) st =
    Main.parseArgs Num parseInt ((flag ++ "=" ++ v) :: rest) st.
Proof.
  intros Num parseInt flag v w rest st Hflag Hv.
  destruct (flag_with_value Num parseInt flag (v ++ "=" ++ w) rest st Hflag)
    as (more & _ & _ & Hcut & Hrun).
  destruct (flag_with_value Num parseInt flag v rest st Hflag)
    as (more' & _ & Hplain & _ & Hrun').
  change (flag ++ "=" ++ v ++ "=" ++ w)
    with (flag ++ String Main.equals (v ++ "=" ++ w)).
  change (flag ++ "=" ++ v) with (flag ++ String Main.equals v).
  rewrite Hrun, Hrun', (Hplain Hv), (Hcut v w eq_refl Hv). reflexivity.
Qed.

Lemma parseArgs_value_ends_at_equals_witness :
  Main.parseArgs (option Z) Main.parseDecimal
    (("--maxLeaf" ++ "=" ++ "12" ++ "=" ++ "345") :: ["src"])
    (Main.initial (option Z)) =
  Main.parseArgs (option Z) Main.parseDecimal (("--maxLeaf" ++ "=" ++ "12") :: ["src"])
    (Main.initial (option Z)).
Proof.
  apply (parseArgs_value_ends_at_equals (option Z) Main.parseDecimal "--maxLeaf" "12"
           "345" ["src"] (Main.initial (option Z))).
  - left. reflexivity.
  - reflexivity.
Defined.

(** X21. What the loop never does: it never switches the summary off,
    and switches it on only for an argument [--summary] or [-s]; the
    directory it leaves is the one it started with or an argument that
    does not begin with [-]; the threshold it leaves is the one it
    started with or [parseInt] of a non-empty text taken from the
    arguments. *)
Theorem parseArgs_settings_come_from_arguments :
  forall (Num : Type) (parseInt : string -> Num) (args : list string)
         (st : Main.Settings Num),
    let r := Main.parseArgs Num parseInt args st in
    (Main.showSummary st = true -> Main.showSummary r = true) /\
    (Main.showSummary r = true ->
     Main.showSummary st = true \/ In "--summary" args \/ In "-s" args) /\
    (Main.targetDir r = Main.targetDir st \/
     In (Main.targetDir r) args /\
     String.prefix "-" (Main.targetDir r) = false) /\
    (Main.maxLeaf r = Main.maxLeaf st \/
     exists v, v <> "" /\ Main.maxLeaf r = Some (parseInt v) /\
       (In v args \/
        exists arg, In arg args /\
                    nth_error (Literal.splitOn Main.equals "" arg) 1 =
                    Some v)).
Proof.
  intros Num parseInt args. cbv zeta.
  assert (Hlen : forall n (args : list string), (length args <= n)%nat ->
            forall st,
    (Main.showSummary st = true ->
     Main.showSummary (Main.parseArgs Num parseInt args st) = true) /\
    (Main.showSummary (Main.parseArgs Num parseInt args st) = true ->
     Main.showSummary st = true \/ In "--summary" args \/ In "-s" args) /\
    (Main.targetDir (Main.parseArgs Num parseInt args st) = Main.targetDir st \/
     In (Main.targetDir (Main.parseArgs Num parseInt args st)) args /\
     String.prefix "-" (Main.targetDir (Main.parseArgs Num parseInt args st))
       = false) /\
    (Main.maxLeaf (Main.parseArgs Num parseInt args st) = Main.maxLeaf st \/
     exists v, v <> "" /\
       Main.maxLeaf (Main.parseArgs Num parseInt args st) =
         Some (parseInt v) /\
       (In v args \/
        exists arg, In arg args /\
                    nth_error (Literal.splitOn Main.equals "" arg) 1 =
                    Some v))).
  { clear args. induction n as [|n IH]; intros args Hn st.
    - destruct args; [|simpl in Hn; lia]. simpl. tauto.
    - destruct args as [|arg rest]; [simpl; tauto|].
      simpl in Hn. cbn [Main.parseArgs].
      destruct (Main.isSummaryFlag arg) eqn:Es.
      + destruct (IH rest ltac:(lia)
                    (Main.mkSettings (Main.targetDir st) (Main.maxLeaf st)
                       true))
          as (H1 & H2 & H3 & H4).
        cbn [Main.showSummary Main.targetDir Main.maxLeaf] in *.
        split; [auto|]. split.
        * intros _. right. unfold Main.isSummaryFlag in Es.
          apply orb_true_iff in Es.
          destruct Es as [E | E]; apply String.eqb_eq in E; subst arg;
            simpl; auto.
        * split.
          -- destruct H3 as [H3 | [H3 H3']]; [now left | right].
             split; [now right | exact H3'].
          -- destruct H4 as [H4 | (v & Hv & Hm & Hsrc)]; [now left | right].
             exists v. repeat split; auto.
             destruct Hsrc as [Hin | (a & Ha & Hnth)]; [left; now right|].
             right. exists a. split; [now right | exact Hnth].
      + destruct (Main.isMaxLeafFlag arg) eqn:Em.
        * destruct (Main.includesEquals arg) eqn:Ei.
          -- set (val := nth_error (Literal.splitOn Main.equals "" arg) 1).
             destruct (IH rest ltac:(lia)
                         (Main.assignMaxLeaf Num parseInt val st))
               as (H1 & H2 & H3 & H4).
             destruct (assignMaxLeaf_keeps Num parseInt val st)
               as (Kt & Ks & Km).
             rewrite Kt in H3. rewrite Ks in H1, H2.
             split; [exact H1|]. split.
             ++ intros H. destruct (H2 H) as [?|[?|?]]; simpl; auto.
             ++ split.
                ** destruct H3 as [H3 | [H3 H3']]; [now left | right].
                   split; [now right | exact H3'].
                ** destruct H4 as [H4 | (v & Hv & Hm & Hsrc)].
                   --- rewrite H4.
                       destruct Km as [Km | (v & Hval & Hv & Km)];
                         [now left | right].
                       exists v. repeat split; auto.
                       right. exists arg. split; [now left | exact Hval].
                   --- right. exists v. repeat split; auto.
                       destruct Hsrc as [Hin | (a & Ha & Hnth)];
                         [left; now right|].
                       right. exists a. split; [now right | exact Hnth].
          -- destruct rest as [|val rest'].
             ++ simpl. tauto.
             ++ simpl in Hn.
                destruct (IH rest' ltac:(lia)
                            (Main.assignMaxLeaf Num parseInt (Some val) st))
                  as (H1 & H2 & H3 & H4).
                destruct (assignMaxLeaf_keeps Num parseInt (Some val) st)
                  as (Kt & Ks & Km).
                rewrite Kt in H3. rewrite Ks in H1, H2.
                split; [exact H1|]. split.
                ** intros H. destruct (H2 H) as [?|[?|?]]; simpl; auto.
                ** split.
                   --- destruct H3 as [H3 | [H3 H3']]; [now left | right].
                       split; [right; now right | exact H3'].
                   --- destruct H4 as [H4 | (v & Hv & Hm & Hsrc)].
                       +++ rewrite H4.
                           destruct Km as [Km | (v & Hval & Hv & Km)];
                             [now left | right].
                           exists v. repeat split; auto.
                           left. right. left. congruence.
                       +++ right. exists v. repeat split; auto.
                           destruct Hsrc as [Hin | (a & Ha & Hnth)];
                             [left; right; now right|].
                           right. exists a.
                           split; [right; now right | exact Hnth].
        * destruct (String.prefix "-" arg) eqn:Ep; cbn [negb].
          -- destruct (IH rest ltac:(lia) st) as (H1 & H2 & H3 & H4).
             split; [exact H1|]. split.
             ++ intros H. destruct (H2 H) as [?|[?|?]]; simpl; auto.
             ++ split.
                ** destruct H3 as [H3 | [H3 H3']]; [now left | right].
                   split; [now right | exact H3'].
                ** destruct H4 as [H4 | (v & Hv & Hm & Hsrc)];
                     [now left | right].
                   exists v. repeat split; auto.
                   destruct Hsrc as [Hin | (a & Ha & Hnth)];
                     [left; now right|].
                   right. exists a. split; [now right | exact Hnth].
          -- destruct (IH rest ltac:(lia)
                         (Main.mkSettings arg (Main.maxLeaf st)
                            (Main.showSummary st)))
               as (H1 & H2 & H3 & H4).
             cbn [Main.showSummary Main.targetDir Main.maxLeaf] in *.
             split; [exact H1|]. split.
             ++ intros H. destruct (H2 H) as [?|[?|?]]; simpl; auto.
             ++ split.
                ** right. destruct H3 as [H3 | [H3 H3']].
                   --- rewrite H3. split; [now left | exact Ep].
                   --- split; [now right | exact H3'].
                ** destruct H4 as [H4 | (v & Hv & Hm & Hsrc)];
                     [now left | right].
                   exists v. repeat split; auto.
                   destruct Hsrc as [Hin | (a & Ha & Hnth)];
                     [left; now right|].
                   right. exists a. split; [now right | exact Hnth]. }
  intros st. exact (Hlen (length args) args (le_n _) st).
Qed.

(** X22. When no argument begins with [-], the last argument is the
    directory and nothing else changes. *)
Theorem parseArgs_last_directory_wins :
  forall (Num : Type) (parseInt : string -> Num) (args : list string)
         (st : Main.Settings Num),
    Forall (fun arg => String.prefix "-" arg = false) args ->
    Main.parseArgs Num parseInt args st =
    Main.mkSettings (last args (Main.targetDir st)) (Main.maxLeaf st)
      (Main.showSummary st).
Proof.
  intros Num parseInt args st H. revert st.
  induction H as [|arg rest Harg _ IH]; intros st.
  - now destruct st.
  - cbn [Main.parseArgs].
    destruct (not_an_option arg Harg) as [-> ->]. rewrite Harg. cbn [negb].
    rewrite IH. cbn [Main.targetDir Main.maxLeaf Main.showSummary].
    f_equal. destruct rest as [|b rest]; [reflexivity|].
    cbn [last]. clear. revert b. induction rest as [|c rest IH]; intros b.
    + reflexivity.
    + simpl. destruct rest; [reflexivity|]. apply (IH c).
Qed.

Lemma parseArgs_last_directory_wins_witness :
  Main.parseArgs (option Z) Main.parseDecimal ["src"; "docs"] (Main.initial (option Z)) =
  Main.mkSettings (last ["src"; "docs"] (Main.targetDir (Main.initial (option Z))))
    (Main.maxLeaf (Main.initial (option Z))) (Main.showSummary (Main.initial (option Z))).
Proof.
  apply (parseArgs_last_directory_wins (option Z) Main.parseDecimal ["src"; "docs"]
           (Main.initial (option Z))).
  repeat constructor.
Defined.

Lemma countIf_positive (q : TreeNode -> bool) (l : list TreeNode) :
  (countIf q l >? 0) = true <-> exists n, In n l /\ q n = true.
Proof.
  unfold countIf. rewrite Z.gtb_lt. split.
  - intros H. destruct (filter q l) as [|n rest] eqn:E; [simpl in H; lia|].
    exists n. apply filter_In. rewrite E. now left.
  - intros (n & Hn & Hq).
    assert (Hin : In n (filter q l)) by (apply filter_In; auto).
    destruct (filter q l); [contradiction | simpl; lia].
Qed.

(** X23. The summary that [main] prints has its line of skipped
    folders exactly when the tree holds a folder that carries a
    marker. *)
Theorem skippedLineShown_marked_folder :
  forall tree : TreeNode,
    Main.skippedLineShown (getSummary tree) = true <->
    exists n, In n (subnodes tree) /\ type n = folder /\ skipped n <> None.
Proof.
  intros tree. unfold Main.skippedLineShown.
  rewrite getSummary_tally. cbn [tally skippedGitignore skippedSize].
  rewrite orb_true_iff, !countIf_positive. split.
  - intros [(n & Hn & Hq) | (n & Hn & Hq)];
      exists n; (split; [exact Hn|]);
      apply andb_true_iff in Hq; destruct Hq as [Hf Hs];
      unfold isFolder in Hf; unfold hasSkip in Hs;
      (split; [now destruct (type n) | now destruct (skipped n)]).
  - intros (n & Hn & Hty & Hsk).
    destruct (skipped n) as [[|]|] eqn:E; [left | right | congruence];
      exists n; (split; [exact Hn|]);
      unfold isFolder, hasSkip; rewrite Hty, E; reflexivity.
Qed.
